(* Verification of the agent core of google/computer-use-preview
   (src/agent.py): action dispatch, credential vault, retry wrapper,
   safety gate, screenshot retention and the agent loop iteration; the
   [FormAgent] dispatcher (src/form_agent.py) and the scripted Playwright
   login (src/computers/playwright/auth.py), whose page is an oracle
   answering each call given the calls made before it.

   Python values are embedded as follows.
   - [str] is [String.string]; [str.lower]/[str.upper] act on ASCII letters.
   - JSON-like argument values form the inductive [Value]; a Python dict
     is an association list, looked up at its first matching key.
   - Python floats are IEEE-754 binary64, embedded with the Standard
     Library's [SpecFloat] at precision 53 and maximal exponent 1024.
   - Exceptions are the inductive [Exn]; stateful methods of
     [BrowserAgent] run in a state/exception monad over [Agent]. As in
     Python, state changes made before an exception are kept. *)

From Stdlib Require Import ZArith Bool List String Ascii Lia.
From Stdlib Require Import Floats.SpecFloat.
Import ListNotations.
Open Scope string_scope.
Open Scope Z_scope.
Set Warnings "-register-all".

(* ------------------------------------------------------------------ *)
(** * Python strings *)

Module PyStr.

Definition lower_char (c : ascii) : ascii :=
  let n := nat_of_ascii c in
  if (Nat.leb 65 n && Nat.leb n 90)%bool then ascii_of_nat (n + 32) else c.

Definition upper_char (c : ascii) : ascii :=
  let n := nat_of_ascii c in
  if (Nat.leb 97 n && Nat.leb n 122)%bool then ascii_of_nat (n - 32) else c.

Fixpoint map_chars (f : ascii -> ascii) (s : string) : string :=
  match s with
  | EmptyString => EmptyString
  | String c r => String (f c) (map_chars f r)
  end.

(** [str.lower] and [str.upper] on ASCII text. Python maps the letters of
    all of Unicode; on a string whose characters are all ASCII ([is_ascii])
    both agree with Python's. *)
Definition lower (s : string) : string := map_chars lower_char s.
Definition upper (s : string) : string := map_chars upper_char s.

(** [s.isascii()]. *)
Definition is_ascii (s : string) : bool :=
  forallb (fun c => Nat.ltb (nat_of_ascii c) 128) (list_ascii_of_string s).

(** [s.endswith(suf)]. *)
Definition endswith (suf s : string) : bool :=
  (Nat.leb (String.length suf) (String.length s) &&
   String.eqb (substring (String.length s - String.length suf)
                         (String.length suf) s) suf)%bool.

(** [s.replace(old, new)] for a non-empty [old]: every non-overlapping
    occurrence, scanned from the left, is replaced. *)
Fixpoint replace_go (fuel : nat) (old new s : string) : string :=
  match fuel with
  | O => s
  | S fuel' =>
      match s with
      | EmptyString => EmptyString
      | String c r =>
          if String.prefix old s
          then new ++ replace_go fuel'
                        old new (substring (String.length old)
                                   (String.length s - String.length old) s)
          else String c (replace_go fuel' old new r)
      end
  end.

Definition replace (old new s : string) : string :=
  replace_go (String.length s) old new s.

(** [s.split(sep)] for a one-character separator. *)
Fixpoint split_char (sep : ascii) (s : string) : list string :=
  match s with
  | EmptyString => [EmptyString]
  | String c r =>
      match split_char sep r with
      | [] => [String c EmptyString]
      | w :: ws => if Ascii.eqb c sep then EmptyString :: w :: ws
                   else String c w :: ws
      end
  end.

(** [sep.join(l)]. *)
Fixpoint join (sep : string) (l : list string) : string :=
  match l with
  | [] => EmptyString
  | [w] => w
  | w :: ws => w ++ sep ++ join sep ws
  end.

End PyStr.

(* ------------------------------------------------------------------ *)
(** * Python values and exceptions *)

Inductive Value : Type :=
| VNone
| VBool (b : bool)
| VInt (z : Z)
| VStr (s : string)
| VList (l : list Value)
| VDict (d : list (string * Value)).

Definition dict := list (string * Value).

(** Truthiness ([bool(v)]). *)
Definition truthy (v : Value) : bool :=
  match v with
  | VNone => false
  | VBool b => b
  | VInt z => negb (Z.eqb z 0)
  | VStr s => negb (String.eqb s "")
  | VList l => match l with [] => false | _ => true end
  | VDict d => match d with [] => false | _ => true end
  end.

(** Lookup in an association list (a Python dict has unique keys). *)
Fixpoint assoc {A : Type} (k : string) (d : list (string * A)) : option A :=
  match d with
  | [] => None
  | (k', v) :: r => if String.eqb k k' then Some v else assoc k r
  end.

Definition mem {A : Type} (k : string) (d : list (string * A)) : bool :=
  match assoc k d with Some _ => true | None => false end.

Inductive Exn : Type :=
| KeyError (k : string)
| TypeError
| AttributeError
| ValueError (msg : string)
| OverflowError
| EOFError
| TransportError (e : string).

Inductive Res (A : Type) : Type :=
| Ok (a : A)
| Exc (e : Exn).
Arguments Ok {A} a.
Arguments Exc {A} e.

(** [d[k]] on a dict value: [KeyError] when absent. *)
Definition getitem (d : dict) (k : string) : Res Value :=
  match assoc k d with Some v => Ok v | None => Exc (KeyError k) end.

(** [d.get(k, default)]. *)
Definition dict_get (d : dict) (k : string) (default : Value) : Value :=
  match assoc k d with Some v => v | None => default end.

(* ------------------------------------------------------------------ *)
(** * Python floats (IEEE-754 binary64) *)

Module PyFloat.

Definition prec : Z := 53.
Definition emax : Z := 1024.

(** [float(z)] for an int: the nearest double. *)
Definition of_int (z : Z) : spec_float := binary_normalize prec emax z 0 false.

Definition div (x y : spec_float) : spec_float := SFdiv prec emax x y.
Definition mul (x y : spec_float) : spec_float := SFmul prec emax x y.

(** [int(f)]: truncation toward zero; [inf] raises [OverflowError] and
    [nan] raises [ValueError]. *)
Definition to_int (f : spec_float) : Res Z :=
  match f with
  | S754_zero _ => Ok 0
  | S754_finite s m e =>
      let a := if Z.leb 0 e then Z.pos m * 2 ^ e else Z.pos m / 2 ^ (- e) in
      Ok (if s then - a else a)
  | S754_infinity _ => Exc OverflowError
  | S754_nan => Exc (ValueError "cannot convert float NaN to integer")
  end.

End PyFloat.

(** [int(v / 1000 * dim)] for an int [v] and an int [dim]: [int / int] is
    true division (correctly rounded), the product with [dim] is a float
    product. *)
Definition denormalize (v dim : Z) : Res Z :=
  PyFloat.to_int
    (PyFloat.mul (PyFloat.div (PyFloat.of_int v) (PyFloat.of_int 1000))
                 (PyFloat.of_int dim)).

(** The argument is a JSON value: ints (and bools, a subclass of int)
    divide, anything else raises [TypeError]. *)
Definition denormalize_value (v : Value) (dim : Z) : Res Z :=
  match v with
  | VInt z => denormalize z dim
  | VBool b => denormalize (if b then 1 else 0) dim
  | _ => Exc TypeError
  end.

(* ------------------------------------------------------------------ *)
(** * google.genai types used by the agent *)

Record Blob : Type := mkBlob { mime_type : string; data : string }.

Record FunctionCall : Type := mkFunctionCall {
  fc_name : string;
  fc_args : option dict  (* [None] when the model sends no arguments *)
}.

Record FunctionResponse : Type := mkFunctionResponse {
  fr_name : string;
  fr_response : dict;
  fr_parts : option (list Blob)
}.

Record Part : Type := mkPart {
  text : option string;
  function_call : option FunctionCall;
  function_response : option FunctionResponse
}.

Record Content : Type := mkContent { role : string; parts : list Part }.

Inductive FinishReason : Type :=
| STOP
| MALFORMED_FUNCTION_CALL
| OTHER_FINISH.

Record Candidate : Type := mkCandidate {
  cand_content : option Content;
  finish_reason : FinishReason
}.

Record Response : Type := mkResponse { candidates : list Candidate }.

(** [computers.EnvState]. *)
Record EnvState : Type := mkEnvState { url : string; screenshot : string }.

(** [FunctionResponseT = Union[EnvState, dict]]. *)
Inductive FunctionResponseT : Type :=
| FREnv (e : EnvState)
| FRDict (d : dict).

Definition text_part (t : string) : Part := mkPart (Some t) None None.
Definition call_part (fc : FunctionCall) : Part := mkPart None (Some fc) None.
Definition response_part (fr : FunctionResponse) : Part :=
  mkPart None None (Some fr).

(* ------------------------------------------------------------------ *)
(** * Custom tools *)

(** [os.environ], in iteration order. *)
Definition Environ := list (string * string).

(** [x * y] on the JSON values the model can send: ints (bools count as
    ints) multiply, a str or list times an int repeats. *)
Definition as_int (v : Value) : option Z :=
  match v with
  | VInt z => Some z
  | VBool b => Some (if b then 1 else 0)
  | _ => None
  end.

Fixpoint repeat_str (n : nat) (s : string) : string :=
  match n with O => EmptyString | S k => s ++ repeat_str k s end.

Fixpoint repeat_list {A : Type} (n : nat) (l : list A) : list A :=
  match n with O => [] | S k => l ++ repeat_list k l end.

Definition py_mul (x y : Value) : Res Value :=
  match as_int x, as_int y with
  | Some a, Some b => Ok (VInt (a * b))
  | _, _ =>
      match x, y with
      | VStr s, _ => match as_int y with
                     | Some n => Ok (VStr (repeat_str (Z.to_nat n) s))
                     | None => Exc TypeError end
      | _, VStr s => match as_int x with
                     | Some n => Ok (VStr (repeat_str (Z.to_nat n) s))
                     | None => Exc TypeError end
      | VList l, _ => match as_int y with
                      | Some n => Ok (VList (repeat_list (Z.to_nat n) l))
                      | None => Exc TypeError end
      | _, VList l => match as_int x with
                      | Some n => Ok (VList (repeat_list (Z.to_nat n) l))
                      | None => Exc TypeError end
      | _, _ => Exc TypeError
      end
  end.

(** [multiply_numbers]. *)
Definition multiply_numbers (x y : Value) : Res dict :=
  match py_mul x y with
  | Ok r => Ok [("result", r)]
  | Exc e => Exc e
  end.

(** The site prefix of a [*_USERNAME]/[*_USER] variable:
    [var.replace('_USERNAME', '').replace('_USER', '')]. *)
Definition site_of_var (var : string) : string :=
  PyStr.replace "_USER" "" (PyStr.replace "_USERNAME" "" var).

(** The loop of [get_available_credentials] over [env_vars]. *)
Fixpoint scan_sites (env_vars vars : list string) : list string :=
  match vars with
  | [] => []
  | var :: rest =>
      if (PyStr.endswith "_USERNAME" var || PyStr.endswith "_USER" var)%bool
      then
        let site := site_of_var var in
        let password_var := site ++ "_PASSWORD" in
        if existsb (String.eqb password_var) env_vars
        then PyStr.lower site :: scan_sites env_vars rest
        else scan_sites env_vars rest
      else scan_sites env_vars rest
  end.

(** [get_available_credentials]: reads [os.environ.keys()] only. *)
Definition get_available_credentials (env : Environ) : dict :=
  let env_vars := map fst env in
  let available_sites := scan_sites env_vars env_vars in
  [("available_sites", VList (map VStr available_sites));
   ("message", VStr ("Credentials are securely stored for: " ++
      (match available_sites with
       | [] => "no sites"
       | _ => PyStr.join ", " available_sites
       end) ++ ". Use perform_secure_login() to authenticate."))].

(** The dict returned by [perform_secure_login]. *)
Record LoginResult : Type := mkLoginResult {
  lr_success : bool;
  lr_message : string;
  lr_username : Value;
  lr_password : Value
}.

(** [os.environ.get(key)] as a value ([None] when absent). *)
Definition environ_get (env : Environ) (k : string) : Value :=
  match assoc k env with Some v => VStr v | None => VNone end.

(** [perform_secure_login(site)] for a str [site]. *)
Definition perform_secure_login (env : Environ) (site : string) : LoginResult :=
  let site_upper := PyStr.upper site in
  let username_key0 := site_upper ++ "_USERNAME" in
  let password_key := site_upper ++ "_PASSWORD" in
  let username_key :=
    if mem username_key0 env then username_key0 else site_upper ++ "_USER" in
  let username := environ_get env username_key in
  let password := environ_get env password_key in
  if (truthy username && truthy password)%bool
  then mkLoginResult true
         ("Credentials retrieved for " ++ site ++ ". Ready to perform login.")
         username password
  else mkLoginResult false
         ("No credentials found for " ++ site ++
          ". Expected environment variables: " ++ username_key ++ " and " ++
          password_key)
         VNone VNone.

Definition login_instruction : string :=
  "Credentials loaded. Use type_text_at with {{USERNAME}} and {{PASSWORD}} placeholders to enter credentials in the appropriate fields.".

(* ------------------------------------------------------------------ *)
(** * Browser backend calls *)

(** One constructor per [Computer] action method, with the arguments the
    dispatcher forwards. *)
Inductive BackendCall : Type :=
| BOpenWebBrowser
| BClickAt (x y : Z)
| BHoverAt (x y : Z)
| BTypeTextAt (x y : Z) (txt : Value) (press_enter clear_before_typing : Value)
| BScrollDocument (direction : Value)
| BScrollAt (x y : Z) (direction : Value) (magnitude : Z)
| BWait5Seconds
| BGoBack
| BGoForward
| BSearch
| BNavigate (u : Value)
| BKeyCombination (keys : list string)
| BDragAndDrop (x y destination_x destination_y : Z).

(* ------------------------------------------------------------------ *)
(** * Retry wrapper ([BrowserAgent.get_model_response]) *)

(** What the transport does at one attempt. *)
Inductive TResult (R : Type) : Type :=
| TOk (r : R)
| TErr (e : Exn).
Arguments TOk {R} r.
Arguments TErr {R} e.

(** Observable events: an attempt (0-indexed) and a [time.sleep]. *)
Inductive Event : Type :=
| Attempt (k : nat)
| Sleep (delay : Z).

(** How the method ends: returns the response, re-raises, or falls off
    the end of the [for] loop (returns [None]). *)
Inductive Outcome (R : Type) : Type :=
| Returned (r : R)
| Raised (e : Exn)
| ReturnedNone.
Arguments Returned {R} r.
Arguments Raised {R} e.
Arguments ReturnedNone {R}.

(** The body of [for attempt in range(max_retries)], from [attempt] on,
    with [remaining] iterations left. *)
Fixpoint retry_from {R : Type} (transport : nat -> TResult R)
    (max_retries : nat) (base_delay_s : Z) (attempt remaining : nat)
    : list Event * Outcome R :=
  match remaining with
  | O => ([], ReturnedNone)
  | S rem =>
      match transport attempt with
      | TOk r => ([Attempt attempt], Returned r)
      | TErr e =>
          if Nat.ltb attempt (max_retries - 1) then
            let delay := base_delay_s * 2 ^ Z.of_nat attempt in
            let '(evs, o) :=
              retry_from transport max_retries base_delay_s (S attempt) rem in
            (Attempt attempt :: Sleep delay :: evs, o)
          else ([Attempt attempt], Raised e)
      end
  end.

Definition get_model_response {R : Type} (transport : nat -> TResult R)
    (max_retries : nat) (base_delay_s : Z) : list Event * Outcome R :=
  retry_from transport max_retries base_delay_s 0 max_retries.

(* ------------------------------------------------------------------ *)
(** * Agent state and the state/exception monad *)

Record Agent : Type := mkAgent {
  contents : list Content;                 (* self._contents *)
  temp_credentials : list (string * Value); (* self._temp_credentials *)
  backend_log : list BackendCall;          (* actions sent to the browser *)
  stdin : list string;                     (* lines the human will type *)
  final_reasoning : option string          (* self.final_reasoning *)
}.

Definition set_contents (cs : list Content) (s : Agent) : Agent :=
  mkAgent cs (temp_credentials s) (backend_log s) (stdin s) (final_reasoning s).
Definition set_temp_credentials (c : list (string * Value)) (s : Agent) : Agent :=
  mkAgent (contents s) c (backend_log s) (stdin s) (final_reasoning s).
Definition set_backend_log (l : list BackendCall) (s : Agent) : Agent :=
  mkAgent (contents s) (temp_credentials s) l (stdin s) (final_reasoning s).
Definition set_stdin (i : list string) (s : Agent) : Agent :=
  mkAgent (contents s) (temp_credentials s) (backend_log s) i (final_reasoning s).
Definition set_final_reasoning (r : option string) (s : Agent) : Agent :=
  mkAgent (contents s) (temp_credentials s) (backend_log s) (stdin s) r.

Definition M (A : Type) : Type := Agent -> Res A * Agent.

Definition ret {A : Type} (a : A) : M A := fun s => (Ok a, s).
Definition raise {A : Type} (e : Exn) : M A := fun s => (Exc e, s).
Definition lift {A : Type} (r : Res A) : M A := fun s => (r, s).
Definition bind {A B : Type} (m : M A) (k : A -> M B) : M B :=
  fun s => match m s with
           | (Ok a, s') => k a s'
           | (Exc e, s') => (Exc e, s')
           end.
Definition modify (f : Agent -> Agent) : M unit := fun s => (Ok tt, f s).
Definition gets {A : Type} (f : Agent -> A) : M A := fun s => (Ok (f s), s).

Notation "x <- m ;; k" := (bind m (fun x => k))
  (at level 61, m at next level, right associativity).

(* ------------------------------------------------------------------ *)
(** * Safety gate ([BrowserAgent._get_safety_confirmation]) *)

Inductive Verdict : Type := Continue | Terminate.

(** [v[k]] on the [safety_decision] value. *)
Definition value_getitem (v : Value) (k : string) : Res Value :=
  match v with
  | VDict d => getitem d k
  | _ => Exc TypeError
  end.

Definition is_str (v : Value) (s : string) : bool :=
  match v with VStr t => String.eqb t s | _ => false end.

Definition accepted_answer (d : string) : bool :=
  existsb (String.eqb (PyStr.lower d)) ["y"; "n"; "ye"; "yes"; "no"].

(** [while decision.lower() not in (...): decision = input(...)],
    started from [decision = ""] (which is not accepted): returns the
    accepted line and the unread input; [input()] at end of input raises
    [EOFError]. *)
Fixpoint prompt_until_accepted (inp : list string) : Res string * list string :=
  match inp with
  | [] => (Exc EOFError, [])
  | d :: rest =>
      if accepted_answer d then (Ok d, rest) else prompt_until_accepted rest
  end.

Definition read_decision : M string :=
  fun s => let '(r, rest) := prompt_until_accepted (stdin s) in
           (r, set_stdin rest s).

Definition get_safety_confirmation (trust_mode : bool) (safety : Value)
    : M Verdict :=
  d <- lift (value_getitem safety "decision") ;;
  if negb (is_str d "require_confirmation")
  then raise (ValueError "Unknown safety decision: safety['decision']")
  else if trust_mode
  then (_ <- lift (value_getitem safety "explanation") ;; ret Continue)
  else (_ <- lift (value_getitem safety "explanation") ;;
        decision <- read_decision ;;
        if existsb (String.eqb (PyStr.lower decision)) ["n"; "no"]
        then ret Terminate
        else ret Continue).

(* ------------------------------------------------------------------ *)
(** * Screenshot retention *)

Definition MAX_RECENT_TURN_WITH_SCREENSHOTS : nat := 3.

Definition PREDEFINED_COMPUTER_USE_FUNCTIONS : list string :=
  ["open_web_browser"; "click_at"; "hover_at"; "type_text_at";
   "scroll_document"; "scroll_at"; "wait_5_seconds"; "go_back";
   "go_forward"; "search"; "navigate"; "key_combination"; "drag_and_drop"].

Definition is_predefined (n : string) : bool :=
  existsb (String.eqb n) PREDEFINED_COMPUTER_USE_FUNCTIONS.

Definition blobs_truthy (o : option (list Blob)) : bool :=
  match o with Some (_ :: _) => true | _ => false end.

(** [part.function_response and part.function_response.parts and
    part.function_response.name in PREDEFINED_COMPUTER_USE_FUNCTIONS]. *)
Definition screenshot_part (p : Part) : bool :=
  match function_response p with
  | Some fr => (blobs_truthy (fr_parts fr) && is_predefined (fr_name fr))%bool
  | None => false
  end.

(** [content.role == "user" and content.parts] and [has_screenshot]. *)
Definition has_screenshot (c : Content) : bool :=
  (String.eqb (role c) "user" &&
   match parts c with [] => false | _ => true end &&
   existsb screenshot_part (parts c))%bool.

(** [part.function_response.parts = None] on every matching part. *)
Definition strip_part (p : Part) : Part :=
  if screenshot_part p then
    match function_response p with
    | Some fr => mkPart (text p) (function_call p)
                   (Some (mkFunctionResponse (fr_name fr) (fr_response fr) None))
    | None => p
    end
  else p.

Definition strip_content (c : Content) : Content :=
  mkContent (role c) (map strip_part (parts c)).

(** The loop over [reversed(self._contents)], most recent first, with
    [turn_with_screenshots_found] as [found]. *)
Fixpoint prune_rev (found : nat) (cs : list Content) : list Content :=
  match cs with
  | [] => []
  | c :: rest =>
      if has_screenshot c then
        let found' := S found in
        (if Nat.ltb MAX_RECENT_TURN_WITH_SCREENSHOTS found'
         then strip_content c else c) :: prune_rev found' rest
      else c :: prune_rev found rest
  end.

(** The in-place pass, in the list's own order. *)
Definition prune_screenshots (cs : list Content) : list Content :=
  rev (prune_rev 0 (rev cs)).

(* ------------------------------------------------------------------ *)
(** * [BrowserAgent]: dispatch and one loop iteration *)

Section BrowserAgent.

(** [self._trust_mode]. *)
Variable trust_mode : bool.
(** [self._browser_computer.screen_size()]: (width, height). *)
Variable screen_size : Z * Z.
(** [os.environ]. *)
Variable environ : Environ.
(** The browser answers an action with an [EnvState], which may depend on
    every action it has executed before. *)
Variable backend : list BackendCall -> BackendCall -> EnvState.

Definition denormalize_x (v : Value) : Res Z :=
  denormalize_value v (fst screen_size).
Definition denormalize_y (v : Value) : Res Z :=
  denormalize_value v (snd screen_size).

(** [action.args[k]]: [TypeError] when [args] is [None]. *)
Definition arg (fc : FunctionCall) (k : string) : Res Value :=
  match fc_args fc with
  | Some d => getitem d k
  | None => Exc TypeError
  end.

(** [action.args.get(k, default)]: [AttributeError] when [args] is [None]. *)
Definition arg_get (fc : FunctionCall) (k : string) (default : Value)
    : Res Value :=
  match fc_args fc with
  | Some d => Ok (dict_get d k default)
  | None => Exc AttributeError
  end.

Definition arg_x (fc : FunctionCall) (k : string) : M Z :=
  v <- lift (arg fc k) ;; lift (denormalize_x v).
Definition arg_y (fc : FunctionCall) (k : string) : M Z :=
  v <- lift (arg fc k) ;; lift (denormalize_y v).

(** Calling an action method of [self._browser_computer]. *)
Definition call_backend (c : BackendCall) : M FunctionResponseT :=
  fun s => (Ok (FREnv (backend (backend_log s) c)),
            set_backend_log (backend_log s ++ [c])%list s).

(** The placeholder rule of the [type_text_at] branch. *)
Definition substitute_placeholder (txt : Value)
    (creds : list (string * Value)) : Value :=
  if (is_str txt "{{USERNAME}}" && mem "username" creds)%bool
  then dict_get creds "username" txt
  else if (is_str txt "{{PASSWORD}}" && mem "password" creds)%bool
  then dict_get creds "password" txt
  else txt.

(** [action.args["keys"].split("+")]. *)
Definition split_keys (v : Value) : Res (list string) :=
  match v with
  | VStr s => Ok (PyStr.split_char "+"%char s)
  | _ => Exc AttributeError
  end.

Definition in_strs (v : Value) (l : list string) : bool :=
  existsb (is_str v) l.

(** The [type_text_at] branch of [handle_action]. *)
Definition type_text_at_branch (fc : FunctionCall) : M FunctionResponseT :=
  x <- arg_x fc "x" ;; y <- arg_y fc "y" ;;
  press_enter <- lift (arg_get fc "press_enter" (VBool false)) ;;
  clear_before_typing <- lift (arg_get fc "clear_before_typing" (VBool true)) ;;
  txt <- lift (arg fc "text") ;;
  creds <- gets temp_credentials ;;
  call_backend (BTypeTextAt x y (substitute_placeholder txt creds)
                  press_enter clear_before_typing).

(** The [perform_secure_login] branch of [handle_action]. *)
Definition perform_secure_login_branch (fc : FunctionCall) : M FunctionResponseT :=
  site <- lift (arg fc "site") ;;
  match site with
  | VStr st =>
      let result := perform_secure_login environ st in
      let safe_result := [("success", VBool (lr_success result));
                          ("message", VStr (lr_message result))] in
      if lr_success result then
        _ <- modify (set_temp_credentials
                       [("username", lr_username result);
                        ("password", lr_password result)]) ;;
        ret (FRDict (safe_result ++ [("instruction", VStr login_instruction)])%list)
      else ret (FRDict safe_result)
  | _ => raise AttributeError  (* [site.upper()] on a non-str *)
  end.

(** [BrowserAgent.handle_action]. *)
Definition handle_action (fc : FunctionCall) : M FunctionResponseT :=
  let n := fc_name fc in
  if String.eqb n "open_web_browser" then call_backend BOpenWebBrowser
  else if String.eqb n "click_at" then
    x <- arg_x fc "x" ;; y <- arg_y fc "y" ;; call_backend (BClickAt x y)
  else if String.eqb n "hover_at" then
    x <- arg_x fc "x" ;; y <- arg_y fc "y" ;; call_backend (BHoverAt x y)
  else if String.eqb n "type_text_at" then type_text_at_branch fc
  else if String.eqb n "scroll_document" then
    d <- lift (arg fc "direction") ;; call_backend (BScrollDocument d)
  else if String.eqb n "scroll_at" then
    x <- arg_x fc "x" ;; y <- arg_y fc "y" ;;
    magnitude <- lift (arg_get fc "magnitude" (VInt 800)) ;;
    direction <- lift (arg fc "direction") ;;
    if in_strs direction ["up"; "down"] then
      m <- lift (denormalize_y magnitude) ;;
      call_backend (BScrollAt x y direction m)
    else if in_strs direction ["left"; "right"] then
      m <- lift (denormalize_x magnitude) ;;
      call_backend (BScrollAt x y direction m)
    else raise (ValueError "Unknown direction: ")
  else if String.eqb n "wait_5_seconds" then call_backend BWait5Seconds
  else if String.eqb n "go_back" then call_backend BGoBack
  else if String.eqb n "go_forward" then call_backend BGoForward
  else if String.eqb n "search" then call_backend BSearch
  else if String.eqb n "navigate" then
    u <- lift (arg fc "url") ;; call_backend (BNavigate u)
  else if String.eqb n "key_combination" then
    k <- lift (arg fc "keys") ;; keys <- lift (split_keys k) ;;
    call_backend (BKeyCombination keys)
  else if String.eqb n "drag_and_drop" then
    x <- arg_x fc "x" ;; y <- arg_y fc "y" ;;
    dx <- arg_x fc "destination_x" ;; dy <- arg_y fc "destination_y" ;;
    call_backend (BDragAndDrop x y dx dy)
  else if String.eqb n "multiply_numbers" then
    x <- lift (arg fc "x") ;; y <- lift (arg fc "y") ;;
    r <- lift (multiply_numbers x y) ;; ret (FRDict r)
  else if String.eqb n "get_available_credentials" then
    ret (FRDict (get_available_credentials environ))
  else if String.eqb n "perform_secure_login" then perform_secure_login_branch fc
  else raise (ValueError "Unsupported function").

(** [get_text]. *)
Definition get_text (cand : Candidate) : option string :=
  match cand_content cand with
  | None => None
  | Some c =>
      match parts c with
      | [] => None
      | ps =>
          let texts := flat_map (fun p => match text p with
                                          | Some t => if String.eqb t "" then []
                                                      else [t]
                                          | None => [] end) ps in
          let j := PyStr.join " " texts in
          if String.eqb j "" then None else Some j
      end
  end.

(** [extract_function_calls]. *)
Definition extract_function_calls (cand : Candidate) : list FunctionCall :=
  match cand_content cand with
  | None => []
  | Some c => flat_map (fun p => match function_call p with
                                 | Some fc => [fc] | None => [] end) (parts c)
  end.

(** The safety check at the head of the dispatch loop: [None] when the
    gate terminates, otherwise [extra_fr_fields]. *)
Definition safety_step (fc : FunctionCall) : M (option dict) :=
  match fc_args fc with
  | Some args =>
      let safety := dict_get args "safety_decision" VNone in
      if (truthy (VDict args) && truthy safety)%bool then
        decision <- get_safety_confirmation trust_mode safety ;;
        match decision with
        | Terminate => ret None
        | Continue => ret (Some [("safety_acknowledgement", VStr "true")])
        end
      else ret (Some [])
  | None => ret (Some [])
  end.

(** The [FunctionResponse] built from a dispatch result. *)
Definition to_function_response (fc : FunctionCall) (extra_fr_fields : dict)
    (r : FunctionResponseT) : FunctionResponse :=
  match r with
  | FREnv e =>
      mkFunctionResponse (fc_name fc) (("url", VStr (url e)) :: extra_fr_fields)
        (Some [mkBlob "image/png" (screenshot e)])
  | FRDict d => mkFunctionResponse (fc_name fc) d None
  end.

(** [for function_call in function_calls: ...]: [None] when the loop
    returns ["COMPLETE"] on a terminated safety gate. *)
Fixpoint dispatch_calls (fcs : list FunctionCall) (acc : list FunctionResponse)
    : M (option (list FunctionResponse)) :=
  match fcs with
  | [] => ret (Some acc)
  | fc :: rest =>
      extra <- safety_step fc ;;
      match extra with
      | None => ret None
      | Some extra_fr_fields =>
          r <- handle_action fc ;;
          dispatch_calls rest (acc ++ [to_function_response fc extra_fr_fields r])%list
      end
  end.

Definition append_content (c : Content) : M unit :=
  modify (fun s => set_contents (contents s ++ [c])%list s).

Inductive LoopStatus : Type := COMPLETE | CONTINUE.

Definition is_malformed (f : FinishReason) : bool :=
  match f with MALFORMED_FUNCTION_CALL => true | _ => false end.

(** [BrowserAgent.run_one_iteration]; [transport] is the model service. *)
Definition run_one_iteration (transport : nat -> TResult Response)
    : M LoopStatus :=
  match snd (get_model_response transport 5 1) with
  | Raised _ => ret COMPLETE
  | ReturnedNone => raise AttributeError  (* [None.candidates] *)
  | Returned response =>
      match candidates response with
      | [] => raise (ValueError "Empty response")
      | candidate :: _ =>
          _ <- match cand_content candidate with
               | Some c => append_content c
               | None => ret tt
               end ;;
          let reasoning := get_text candidate in
          let function_calls := extract_function_calls candidate in
          match function_calls, reasoning with
          | [], None =>
              if is_malformed (finish_reason candidate) then ret CONTINUE
              else (_ <- modify (set_final_reasoning reasoning) ;; ret COMPLETE)
          | [], Some _ =>
              _ <- modify (set_final_reasoning reasoning) ;; ret COMPLETE
          | _ :: _, _ =>
              r <- dispatch_calls function_calls [] ;;
              match r with
              | None => ret COMPLETE
              | Some function_responses =>
                  _ <- append_content
                         (mkContent "user" (map response_part function_responses)) ;;
                  _ <- modify (fun s => set_contents
                                          (prune_screenshots (contents s)) s) ;;
                  ret CONTINUE
              end
          end
      end
  end.

End BrowserAgent.

(* ------------------------------------------------------------------ *)
(** * Derived notions used in the statements *)

(** Dispatching a sequence of actions one after the other, as the loop
    does within and across iterations (safety gate aside). *)
Fixpoint handle_actions (screen_size : Z * Z) (environ : Environ)
    (backend : list BackendCall -> BackendCall -> EnvState)
    (fcs : list FunctionCall) : M unit :=
  match fcs with
  | [] => ret tt
  | fc :: rest =>
      _ <- handle_action screen_size environ backend fc ;;
      handle_actions screen_size environ backend rest
  end.

(** The pair a call stores in the vault, if it is a successful
    credential retrieval. *)
Definition successful_login (environ : Environ) (fc : FunctionCall)
    : option (list (string * Value)) :=
  if String.eqb (fc_name fc) "perform_secure_login" then
    match arg fc "site" with
    | Ok (VStr st) =>
        let r := perform_secure_login environ st in
        if lr_success r
        then Some [("username", lr_username r); ("password", lr_password r)]
        else None
    | _ => None
    end
  else None.

(** The vault after a sequence of calls: the pair of the last successful
    retrieval, or the initial content when there is none. *)
Definition vault_after (environ : Environ) (fcs : list FunctionCall)
    (v : list (string * Value)) : list (string * Value) :=
  fold_left (fun v fc => match successful_login environ fc with
                         | Some c => c
                         | None => v
                         end) fcs v.

(** Two environments with the same variable names, in the same order,
    whose values differ at most in content but not in emptiness: they
    differ only in their secrets. *)
Definition same_shape (e1 e2 : Environ) : Prop :=
  Forall2 (fun a b => fst a = fst b /\ (snd a = "" <-> snd b = "")) e1 e2.

(** A call that the loop sends through the safety gate. *)
Definition flagged (fc : FunctionCall) : bool :=
  match fc_args fc with
  | Some args => (truthy (VDict args) &&
                  truthy (dict_get args "safety_decision" VNone))%bool
  | None => false
  end.

(** The safety decision of [fc] is a well-formed confirmation request
    and the first accepted answer on the input [inp] denies it. *)
Definition human_denies (fc : FunctionCall) (inp : list string) : bool :=
  match fc_args fc with
  | Some args =>
      match dict_get args "safety_decision" VNone with
      | VDict d =>
          (is_str (dict_get d "decision" VNone) "require_confirmation" &&
           mem "explanation" d &&
           match prompt_until_accepted inp with
           | (Ok a, _) => existsb (String.eqb (PyStr.lower a)) ["n"; "no"]
           | (Exc _, _) => false
           end)%bool
      | _ => false
      end
  | None => false
  end.

(** Number of screenshot-bearing user turns. *)
Definition count_shots (cs : list Content) : nat :=
  List.length (filter has_screenshot cs).

(** The event trace the backoff rule describes for attempts [0..n]:
    attempt [k >= 1] is preceded by a sleep of [base * 2^(k-1)]. *)
Definition claimed_trace (base : Z) (n : nat) : list Event :=
  Attempt 0 :: flat_map (fun k => [Sleep (base * 2 ^ (Z.of_nat k - 1));
                                   Attempt k]) (seq 1 n).

(** [lo <= v < lo + n] checked one by one. *)
Fixpoint check_range (f : Z -> bool) (lo : Z) (n : nat) : bool :=
  match n with
  | O => true
  | S k => (f lo && check_range f (lo + 1) k)%bool
  end.

Definition res_eqb (r : Res Z) (z : Z) : bool :=
  match r with Ok a => Z.eqb a z | Exc _ => false end.

(** [floor(v * d / 1000)] for non-negative [v], [d]. *)
Definition exact_denormalize (v d : Z) : Z := v * d / 1000.

(** The configured browser: [PLAYWRIGHT_SCREEN_SIZE] in src/main.py. *)
Definition PLAYWRIGHT_SCREEN_SIZE : Z * Z := (1440, 900).

(** The x values at which the configured width loses a pixel. *)
Definition x_off_by_one : list Z := [175; 350; 575; 700].

(** The configured screen: the y axis is exact, the x axis loses a pixel
    exactly at [x_off_by_one]. *)
Definition shipped_screen_ok (v : Z) : bool :=
  (res_eqb (denormalize v 900) (exact_denormalize v 900) &&
   res_eqb (denormalize v 1440)
     (if existsb (Z.eqb v) x_off_by_one then exact_denormalize v 1440 - 1
      else exact_denormalize v 1440))%bool.

(** The trace of attempts [a .. a+i] with the wrapper's own delays. *)
Definition retry_segment (base : Z) (a i : nat) : list Event :=
  (flat_map (fun k => [Attempt k; Sleep (base * 2 ^ Z.of_nat k)]) (seq a i)
   ++ [Attempt (a + i)])%list.

(** A computation that leaves the field [f] of the agent as it found it,
    whether it returns or raises. *)
Definition frame {X A : Type} (f : Agent -> X) (m : M A) : Prop :=
  forall s r s', m s = (r, s') -> f s' = f s.

(** Total time slept along a trace. *)
Fixpoint total_sleep (evs : list Event) : Z :=
  match evs with
  | [] => 0
  | Sleep d :: rest => d + total_sleep rest
  | Attempt _ :: rest => total_sleep rest
  end.

(** The names of [custom_functions] in [BrowserAgent.__init__]. *)
Definition CUSTOM_FUNCTIONS : list string :=
  ["multiply_numbers"; "get_available_credentials"; "perform_secure_login"].

(** A computation that either fails or sends exactly one action to the
    browser and returns the browser's answer, changing nothing else. *)
Definition calls_once (backend : list BackendCall -> BackendCall -> EnvState)
    (m : M FunctionResponseT) : Prop :=
  forall s r s', m s = (Ok r, s') ->
  exists c, r = FREnv (backend (backend_log s) c) /\
            s' = set_backend_log (backend_log s ++ [c])%list s.

(** A computation that raises and leaves the agent as it was. *)
Definition fails_pure {A : Type} (m : M A) : Prop :=
  forall s r s', m s = (r, s') -> s' = s /\ exists e, r = Exc e.

(** Number of attempts along a trace. *)
Fixpoint attempts (evs : list Event) : nat :=
  match evs with
  | [] => O
  | Attempt _ :: rest => S (attempts rest)
  | Sleep _ :: rest => attempts rest
  end.

(* ------------------------------------------------------------------ *)
(** * [FormAgent] (src/form_agent.py) *)

Module FormAgent.

(** [read_data_from_json(file_path)]: [files file_path] is what
    [open(file_path)] followed by [json.load] gives, the loaded object or
    the exception they raise. The model follows the annotation [-> dict]
    and the response type [Union[EnvState, dict]]: it covers files that
    hold a JSON object. [json.load] also returns lists, strings, numbers
    and [None] for files holding those, which [FormAgent.handle_action]
    passes on unchanged; such files are outside this model. *)
Definition read_data_from_json (files : Value -> Res dict) (file_path : Value)
    : Res dict :=
  files file_path.

(** [ask_for_help(question)] is [input(question)]: it reads one line, and
    raises [EOFError] at the end of input. *)
Definition ask_for_help : M string :=
  fun s => match stdin s with
           | [] => (Exc EOFError, s)
           | l :: rest => (Ok l, set_stdin rest s)
           end.

(** [FormAgent.handle_action]; any other action goes to
    [BrowserAgent.handle_action]. *)
Definition handle_action (can_ask_for_help : bool) (files : Value -> Res dict)
    (screen_size : Z * Z) (environ : Environ)
    (backend : list BackendCall -> BackendCall -> EnvState) (fc : FunctionCall)
    : M FunctionResponseT :=
  if String.eqb (fc_name fc) "read_data_from_json" then
    p <- lift (arg fc "file_path") ;;
    d <- lift (read_data_from_json files p) ;;
    ret (FRDict d)
  else if (String.eqb (fc_name fc) "ask_for_help" && can_ask_for_help)%bool then
    q <- lift (arg fc "question") ;;
    a <- ask_for_help ;;
    ret (FRDict [("response", VStr a)])
  else (* [super().handle_action]: the outer [handle_action] *)
    handle_action screen_size environ backend fc.

End FormAgent.

(* ------------------------------------------------------------------ *)
(** * Playwright login (src/computers/playwright/auth.py) *)

Module Auth.

(** Exceptions of this module besides the built-in ones. *)
Inductive AuthExn : Type :=
| PyExn (e : Exn)
| PlaywrightTimeoutError
| PlaywrightError (msg : string).

Inductive AResult (A : Type) : Type :=
| AOk (a : A)
| AErr (e : AuthExn).
Arguments AOk {A} a.
Arguments AErr {A} e.

Definition of_res {A : Type} (r : Res A) : AResult A :=
  match r with Ok a => AOk a | Exc e => AErr (PyExn e) end.

Definition res_bind {A B : Type} (r : Res A) (k : A -> Res B) : Res B :=
  match r with Ok a => k a | Exc e => Exc e end.

Local Notation "'let?' x ':=' r 'in' k" := (res_bind r (fun x => k))
  (at level 200, x name, r at level 200, k at level 200).

(** [v.get(k, default)] on a TOML value: [AttributeError] unless a table. *)
Definition value_get (v : Value) (k : string) (default : Value) : Res Value :=
  match v with
  | VDict d => Ok (dict_get d k default)
  | _ => Exc AttributeError
  end.

Record AuthConfig : Type := mkAuthConfig {
  site_name : string;
  name : Value;
  login_url : Value;
  success_url : Value;
  username_env : Value;
  password_env : Value;
  username_field : Value;
  password_field : Value;
  submit_button : Value;
  success_element : Value;
  timeout : Value
}.

(** [AuthConfig.__init__(site_name, config)]. *)
Definition auth_config_init (site : string) (config : Value) : Res AuthConfig :=
  let? nm := value_get config "name" (VStr site) in
  let? login_url := value_getitem config "login_url" in
  let? success_url := value_get config "success_url" (VStr "") in
  let? username_env := value_getitem config "username_env" in
  let? password_env := value_getitem config "password_env" in
  let? selectors := value_get config "selectors" (VDict []) in
  let? username_field := value_get selectors "username_field" (VStr "") in
  let? password_field := value_get selectors "password_field" (VStr "") in
  let? submit_button := value_get selectors "submit_button" (VStr "") in
  let? success_element := value_get selectors "success_element" (VStr "") in
  let? timeout := value_get selectors "timeout" (VInt 30) in
  Ok (mkAuthConfig site nm login_url success_url username_env password_env
        username_field password_field submit_button success_element timeout).

(** [os.environ.get(k)]: a non-str name raises [TypeError]. *)
Definition environ_lookup (env : Environ) (k : Value) : Res Value :=
  match k with
  | VStr k => Ok (environ_get env k)
  | _ => Exc TypeError
  end.

(** [AuthConfig.get_credentials]. *)
Definition get_credentials (env : Environ) (c : AuthConfig) : Res (Value * Value) :=
  let? username := environ_lookup env (username_env c) in
  let? password := environ_lookup env (password_env c) in
  if (truthy username && truthy password)%bool then Ok (username, password)
  else Exc (ValueError "Missing credentials").

(** The parsed TOML file, for a file whose [default_site] (if any) is a
    string and whose [sites] (if any) is a table: [default_site] is
    [config_data.get("default_site", "")] and [sites] is
    [config_data.get("sites", {})]. *)
Record AuthData : Type := mkAuthData {
  default_site : string;
  sites : list (string * Value)
}.

(** [PlaywrightAuthenticator.get_site_config(site_name)]. *)
Definition get_site_config (cfg : AuthData) (site_name : option string)
    : Res AuthConfig :=
  let site := match site_name with Some n => n | None => default_site cfg end in
  if String.eqb site "" then
    Exc (ValueError "No site specified and no default_site configured")
  else match assoc site (sites cfg) with
       | None => Exc (ValueError ("Site '" ++ site ++ "' not found in config. " ++
                                  "Available sites: " ++
                                  PyStr.join ", " (map fst (sites cfg))))
       | Some c => auth_config_init site c
       end.


(** Calls [perform_login] makes on the Playwright page. *)
Inductive PageOp : Type :=
| Goto (url : Value)
| WaitForLoadState (state : string) (timeout : Value)
| Fill (selector : Value) (value : Value)           (* page.fill(sel, v, timeout=5000) *)
| LabelFill (label : Value) (value : Value)         (* page.get_by_label(l).fill(v) *)
| Click (selector : Value)                          (* page.click(sel, timeout=5000) *)
| RoleClick (name : Value)                          (* page.get_by_role("button", name=n).click() *)
| WaitForUrl (url : Value) (timeout : Value)
| WaitForSelector (selector : Value) (timeout : Value).

(** How the page answers a call, given the calls made before it. *)
Inductive PageResult : Type :=
| Done
| TimedOut
| Failed (msg : string).

(** The page is the state: the calls made on it so far. *)
Definition PM (A : Type) : Type := list PageOp -> AResult A * list PageOp.

Definition pret {A : Type} (a : A) : PM A := fun log => (AOk a, log).
Definition pbind {A B : Type} (m : PM A) (k : A -> PM B) : PM B :=
  fun log => match m log with
             | (AOk a, log') => k a log'
             | (AErr e, log') => (AErr e, log')
             end.
Definition plift {A : Type} (r : Res A) : PM A := fun log => (of_res r, log).

Local Set Warnings "-notation-overridden".
Local Notation "x <- m ;; k" := (pbind m (fun x => k))
  (at level 61, m at next level, right associativity).

Section Page.

(** The page's answer to each call, and [page.url]. *)
Variable page : list PageOp -> PageOp -> PageResult.
Variable page_url : list PageOp -> string.

Definition page_op (o : PageOp) : PM unit :=
  fun log => (match page log o with
              | Done => AOk tt
              | TimedOut => AErr PlaywrightTimeoutError
              | Failed m => AErr (PlaywrightError m)
              end, (log ++ [o])%list).

(** [try: m except PlaywrightTimeoutError: handler]. *)
Definition on_timeout (m handler : PM unit) : PM unit :=
  fun log => match m log with
             | (AErr PlaywrightTimeoutError, log') => handler log'
             | r => r
             end.

(** [config.timeout * 1000]. *)
Definition timeout_ms (c : AuthConfig) : Res Value := py_mul (timeout c) (VInt 1000).

Definition wait_networkidle (c : AuthConfig) : PM unit :=
  ms <- plift (timeout_ms c) ;; page_op (WaitForLoadState "networkidle" ms).

(** [PlaywrightAuthenticator.perform_login(page, site_name)]; the
    [time.sleep] calls and the progress messages are not modelled. *)
Definition perform_login (cfg : AuthData) (env : Environ) (site_name : option string)
    : PM Value :=
  config <- plift (get_site_config cfg site_name) ;;
  creds <- plift (get_credentials env config) ;;
  let '(username, password) := creds in
  _ <- page_op (Goto (login_url config)) ;;
  _ <- wait_networkidle config ;;
  _ <- on_timeout (page_op (Fill (username_field config) username))
                  (page_op (LabelFill (username_field config) username)) ;;
  _ <- on_timeout (page_op (Fill (password_field config) password))
                  (page_op (LabelFill (password_field config) password)) ;;
  _ <- on_timeout (page_op (Click (submit_button config)))
                  (page_op (RoleClick (submit_button config))) ;;
  _ <- (if truthy (success_url config) then
          on_timeout (ms <- plift (timeout_ms config) ;;
                      page_op (WaitForUrl (success_url config) ms))
                     (wait_networkidle config)
        else wait_networkidle config) ;;
  _ <- (if truthy (success_element config) then
          on_timeout (ms <- plift (timeout_ms config) ;;
                      page_op (WaitForSelector (success_element config) ms))
                     (pret tt)
        else pret tt) ;;
  if truthy (success_url config) then pret (success_url config)
  else fun log => (AOk (VStr (page_url log)), log).

End Page.

(** The (field, text) pairs typed into the page. *)
Fixpoint fills (ops : list PageOp) : list (Value * Value) :=
  match ops with
  | [] => []
  | Fill f v :: rest => (f, v) :: fills rest
  | LabelFill f v :: rest => (f, v) :: fills rest
  | _ :: rest => fills rest
  end.

End Auth.

(* ------------------------------------------------------------------ *)
(** * Concrete conversations and calls *)

Definition shot_turn (u : string) : Content :=
  mkContent "user"
    [response_part (mkFunctionResponse "click_at" [("url", VStr u)]
                      (Some [mkBlob "image/png" "PNG"]))].

Definition model_turn : Content := mkContent "model" [text_part "ok"].

Definition conv_four_shots : list Content :=
  [mkContent "user" [text_part "open the page"]; model_turn; shot_turn "a";
   model_turn; shot_turn "b"; model_turn; shot_turn "c"; model_turn;
   shot_turn "d"].


(** A browser that always reports the same page. *)
Definition fixed_backend (log : list BackendCall) (c : BackendCall) : EnvState :=
  mkEnvState "https://example.com" "PNG".

Definition empty_agent : Agent := mkAgent [] [] [] [] None.

Definition vault_state : Agent :=
  mkAgent [] [("username", VStr "alice"); ("password", VStr "s3cret")] [] [] None.

Definition type_username : FunctionCall :=
  mkFunctionCall "type_text_at"
    (Some [("x", VInt 100); ("y", VInt 200); ("text", VStr "{{USERNAME}}")]).

Definition env_github : Environ :=
  [("GITHUB_USERNAME", "alice"); ("GITHUB_PASSWORD", "s3cret")].

Definition login_to (site : string) : FunctionCall :=
  mkFunctionCall "perform_secure_login" (Some [("site", VStr site)]).


(** A safety decision asking for confirmation. *)
Definition confirm_request : Value :=
  VDict [("decision", VStr "require_confirmation");
         ("explanation", VStr "The page asks to accept terms.")].

Definition click_point : FunctionCall :=
  mkFunctionCall "click_at" (Some [("x", VInt 175); ("y", VInt 500)]).

Definition flagged_type : FunctionCall :=
  mkFunctionCall "type_text_at"
    (Some [("x", VInt 100); ("y", VInt 200); ("text", VStr "yes");
           ("safety_decision", confirm_request)]).

Definition flagged_multiply : FunctionCall :=
  mkFunctionCall "multiply_numbers"
    (Some [("x", VInt 2); ("y", VInt 3); ("safety_decision", confirm_request)]).

Definition calls_turn (fcs : list FunctionCall) : Content :=
  mkContent "model" (map call_part fcs).

(** A model service that answers at once with the model turn [c]. *)
Definition respond_with (c : Content) (attempt : nat) : TResult Response :=
  TOk (mkResponse [mkCandidate (Some c) STOP]).

(** A scroll in a direction [handle_action] does not know. *)
Definition sideways_scroll : FunctionCall :=
  mkFunctionCall "scroll_at"
    (Some [("x", VInt 500); ("y", VInt 500); ("direction", VStr "sideways")]).

Definition copy_keys : FunctionCall :=
  mkFunctionCall "key_combination" (Some [("keys", VStr "Control+Shift+C")]).

(** A login configuration with one site, [gh], the default. *)
Definition gh_auth : Auth.AuthData :=
  Auth.mkAuthData "gh"
    [("gh", VDict [("login_url", VStr "https://gh.example/login");
                   ("success_url", VStr "https://gh.example/home");
                   ("username_env", VStr "GH_USER");
                   ("password_env", VStr "GH_PASS");
                   ("selectors", VDict [("username_field", VStr "#user");
                                        ("password_field", VStr "#pass");
                                        ("submit_button", VStr "Sign in")])])].

Definition gh_env : Environ := [("GH_USER", "ada"); ("GH_PASS", "pw")].

(** A page on which the CSS selector "#user" matches nothing (the fill
    times out), and the submit button is found by its text only. *)
Definition label_page (log : list Auth.PageOp) (o : Auth.PageOp) : Auth.PageResult :=
  match o with
  | Auth.Fill (VStr "#user") _ => Auth.TimedOut
  | Auth.Click _ => Auth.TimedOut
  | _ => Auth.Done
  end.

Definition blank_url (log : list Auth.PageOp) : string := "about:blank".

(** An agent whose human first types an unaccepted line, then denies. *)
Definition denying_agent : Agent := mkAgent [] [] [] ["maybe"; "No"] None.

(* ================================================================== *)
(** * Theorems *)

(* ------------------------------------------------------------------ *)
(** ** Coordinate mapper *)

Lemma check_range_sound (f : Z -> bool) (n : nat) :
  forall lo, check_range f lo n = true ->
  forall v, lo <= v < lo + Z.of_nat n -> f v = true.
Proof.
  induction n as [|n IH]; intros lo Hc v Hv; simpl in *.
  - lia.
  - apply andb_true_iff in Hc as [Hlo Hrest].
    destruct (Z.eq_dec v lo) as [->|Hne]; [exact Hlo|].
    apply (IH (lo + 1)); [exact Hrest|lia].
Qed.

Lemma res_eqb_ok (r : Res Z) (z : Z) : res_eqb r z = true -> r = Ok z.
Proof.
  destruct r as [a|e]; simpl; [|discriminate].
  intros H. apply Z.eqb_eq in H. subst. reflexivity.
Qed.

Lemma shipped_screen_checked : check_range shipped_screen_ok 0 1001 = true.
Proof. vm_compute. reflexivity. Qed.

(** Rounding in SpecFloat at 53 bits: [digits2_pos] counts binary digits,
    [shr_1] drops one bit and records the round and sticky bits. *)
Lemma digits2_pos_bounds (p : positive) :
  2 ^ (Zpos (digits2_pos p) - 1) <= Zpos p < 2 ^ Zpos (digits2_pos p).
Proof.
  induction p as [p IH|p IH|]; cbn [digits2_pos]; [| |cbn; lia];
    rewrite Pos2Z.inj_succ;
    [rewrite (Pos2Z.inj_xI p)|rewrite (Pos2Z.inj_xO p)];
    pose proof (Pos2Z.is_pos (digits2_pos p)) as Hj;
    revert IH Hj; generalize (Zpos (digits2_pos p)); intros j IH Hj;
    replace (Z.succ j - 1) with (Z.succ (j - 1)) by lia;
    replace (Z.succ j) with (Z.succ (Z.succ (j - 1))) by lia;
    replace j with (Z.succ (j - 1)) in IH at 2 by lia;
    rewrite !Z.pow_succ_r in * by lia; lia.
Qed.

Lemma digits2_unique (p : positive) (j : Z) :
  2 ^ (j - 1) <= Zpos p < 2 ^ j -> Zpos (digits2_pos p) = j.
Proof.
  intros Hp. pose proof (digits2_pos_bounds p) as Hd.
  pose proof (Pos2Z.is_pos (digits2_pos p)) as Hk.
  revert Hd Hk. generalize (Zpos (digits2_pos p)). intros k Hd Hk.
  destruct (Z.lt_trichotomy k j) as [Hlt|[Heq|Hgt]]; [|exact Heq|].
  - assert (2 ^ k <= 2 ^ (j - 1)) by (apply Z.pow_le_mono_r; lia). lia.
  - assert (0 <= j) by (destruct (Z.le_gt_cases 0 j); [assumption|];
      rewrite (Z.pow_neg_r 2 j) in Hp by lia; lia).
    assert (2 ^ j <= 2 ^ (k - 1)) by (apply Z.pow_le_mono_r; lia). lia.
Qed.

Lemma iter_pos_nat {A : Type} (f : A -> A) (p : positive) (x : A) :
  iter_pos f p x = Nat.iter (Pos.to_nat p) f x.
Proof.
  revert x. induction p as [p IH|p IH|]; intros x; cbn [iter_pos].
  - rewrite IH, IH, Pos2Nat.inj_xI, Nat.iter_succ_r, <- Nat.iter_add.
    f_equal. lia.
  - rewrite IH, IH, Pos2Nat.inj_xO, <- Nat.iter_add. f_equal. lia.
  - reflexivity.
Qed.

Lemma shr_1_spec (q : Z) (r s : bool) :
  0 <= q -> shr_1 (Build_shr_record q r s) = Build_shr_record (q / 2) (Z.odd q) (r || s).
Proof.
  intros Hq. rewrite <- Z.div2_div.
  destruct q as [|p|p]; [reflexivity| |lia]. destruct p; reflexivity.
Qed.

Lemma shr_iter (m0 rho D : Z) (r0 s0 : bool) (n : nat) :
  0 <= m0 -> 0 <= rho < D ->
  (r0 = true <-> D <= 2 * rho) -> (s0 = true <-> rho <> 0 /\ 2 * rho <> D) ->
  exists R r s,
    Nat.iter n shr_1 (Build_shr_record m0 r0 s0) =
      Build_shr_record (m0 / 2 ^ Z.of_nat n) r s /\
    m0 * D + rho = m0 / 2 ^ Z.of_nat n * (2 ^ Z.of_nat n * D) + R /\
    0 <= R < 2 ^ Z.of_nat n * D /\
    (r = true <-> 2 ^ Z.of_nat n * D <= 2 * R) /\
    (s = true <-> R <> 0 /\ 2 * R <> 2 ^ Z.of_nat n * D).
Proof.
  intros Hm Hrho Hr0 Hs0. induction n as [|n IH].
  - exists rho, r0, s0. change (2 ^ Z.of_nat 0) with 1.
    rewrite Z.div_1_r, Z.mul_1_l. cbn [Nat.iter].
    split; [reflexivity|split; [ring|split; [lia|split; assumption]]].
  - destruct IH as (R & r & s & Hit & Hq & HR & Hr & Hs).
    set (t := 2 ^ Z.of_nat n) in *.
    assert (Ht : 0 < t) by (apply Z.pow_pos_nonneg; lia).
    assert (Hsn : 2 ^ Z.of_nat (S n) = 2 * t)
      by (rewrite Nat2Z.inj_succ, Z.pow_succ_r by lia; reflexivity).
    set (q := m0 / t) in *.
    assert (Hq0 : 0 <= q) by (apply Z.div_pos; lia).
    pose proof (Z.div_mod q 2 ltac:(lia)) as Hq2.
    pose proof (Zmod_odd q) as Hodd.
    pose proof (Z.mod_pos_bound q 2 ltac:(lia)) as Hb.
    exists ((q mod 2) * (t * D) + R), (Z.odd q), (r || s).
    rewrite Hsn, Nat.iter_succ, Hit, shr_1_spec by exact Hq0.
    assert (Hdiv : m0 / (2 * t) = q / 2).
    { unfold q. rewrite Z.div_div by lia. f_equal. lia. }
    rewrite Hdiv. split; [reflexivity|]. split; [nia|]. split; [nia|].
    split.
    + destruct (Z.odd q); split; intros H; try reflexivity; try discriminate; nia.
    + destruct r, s; cbn [orb];
        destruct Hr as [Hr1 Hr2]; destruct Hs as [Hs1 Hs2];
        split; intros H; try reflexivity; try discriminate;
        destruct (Z.odd q); nia.
Qed.

Lemma shr_round (m0 rho D : Z) (r0 s0 : bool) (n : nat) :
  0 <= m0 -> 0 <= rho < D ->
  (r0 = true <-> D <= 2 * rho) -> (s0 = true <-> rho <> 0 /\ 2 * rho <> D) ->
  let rec := Nat.iter n shr_1 (Build_shr_record m0 r0 s0) in
  let m' := round_nearest_even (shr_m rec) (loc_of_shr_record rec) in
  shr_m rec = m0 / 2 ^ Z.of_nat n /\
  2 * Z.abs (m' * (2 ^ Z.of_nat n * D) - (m0 * D + rho)) <= 2 ^ Z.of_nat n * D /\
  (m' = shr_m rec \/ m' = shr_m rec + 1) /\
  (rho = 0 -> m0 mod 2 ^ Z.of_nat n = 0 -> m' = shr_m rec).
Proof.
  intros Hm Hrho Hr0 Hs0.
  destruct (shr_iter m0 rho D r0 s0 n Hm Hrho Hr0 Hs0) as (R & r & s & Hit & Hq & HR & Hr & Hs).
  cbv zeta. rewrite Hit. cbn [shr_m].
  assert (Htn : 0 < 2 ^ Z.of_nat n) by (apply Z.pow_pos_nonneg; lia).
  assert (Hexact : rho = 0 -> m0 mod 2 ^ Z.of_nat n = 0 -> R = 0).
  { intros H0 Hmod. pose proof (Z.div_mod m0 (2 ^ Z.of_nat n) ltac:(lia)) as Hdm.
    rewrite Hmod, Z.add_0_r in Hdm. subst rho. nia. }
  set (T := 2 ^ Z.of_nat n * D) in *. set (q := m0 / 2 ^ Z.of_nat n) in *.
  clearbody T q.
  split; [reflexivity|].
  destruct r, s; cbn [loc_of_shr_record round_nearest_even];
    destruct Hr as [Hr1 Hr2]; destruct Hs as [Hs1 Hs2].
  - specialize (Hr1 eq_refl). specialize (Hs1 eq_refl).
    split; [|split; [right; reflexivity|intros H0 H1; specialize (Hexact H0 H1); lia]]. nia.
  - specialize (Hr1 eq_refl).
    assert (HRe : 2 * R = T) by (destruct (Z.eq_dec (2 * R) T); [assumption|];
      assert (R <> 0 /\ 2 * R <> T) as Hc by lia; apply Hs2 in Hc; discriminate).
    destruct (Z.even q).
    + split; [nia|split; [left; reflexivity|intros; lia]].
    + split; [nia|split; [right; reflexivity|intros H0 H1; specialize (Hexact H0 H1); lia]].
  - specialize (Hs1 eq_refl).
    assert (2 * R < T) by (destruct (Z.lt_ge_cases (2 * R) T); [assumption|];
      apply Hr2 in H; discriminate).
    split; [nia|split; [left; reflexivity|intros; reflexivity]].
  - assert (2 * R < T) by (destruct (Z.lt_ge_cases (2 * R) T); [assumption|];
      apply Hr2 in H; discriminate).
    assert (R = 0) by (destruct (Z.eq_dec R 0); [assumption|];
      assert (R <> 0 /\ 2 * R <> T) as Hc by lia; apply Hs2 in Hc; discriminate).
    split; [nia|split; [left; reflexivity|intros; reflexivity]].
Qed.

Lemma fexp_normal (x : Z) : -1074 <= x - 53 -> fexp 53 1024 x = x - 53.
Proof. intros H. unfold fexp, emin. lia. Qed.

Lemma shr_nonpos (mrs : shr_record) (e n : Z) : n <= 0 -> shr mrs e n = (mrs, e).
Proof. intros H. destruct n; [reflexivity|lia|reflexivity]. Qed.

Lemma shr_iter_nat (mrs : shr_record) (e x : Z) :
  0 <= x -> shr mrs e x = (Nat.iter (Z.to_nat x) shr_1 mrs, e + x).
Proof.
  intros Hx. destruct x as [|p|p]; [cbn; rewrite Z.add_0_r; reflexivity| |lia].
  cbn [shr]. rewrite iter_pos_nat, Z2Nat.inj_pos. reflexivity.
Qed.

Lemma shr_record_of_loc_fields (m : Z) (l : location) :
  shr_record_of_loc m l =
  Build_shr_record m (shr_r (shr_record_of_loc m l)) (shr_s (shr_record_of_loc m l)).
Proof. destruct l as [|[]]; reflexivity. Qed.

Lemma loc_exact_rho (rho D : Z) :
  0 <= rho < D -> (false = true <-> D <= 2 * rho) ->
  (false = true <-> rho <> 0 /\ 2 * rho <> D) -> rho = 0.
Proof.
  intros Hrho Hr Hs. destruct (Z.eq_dec rho 0) as [H|H]; [exact H|].
  assert (2 * rho <> D) by (intros E; assert (false = true) by (apply Hr; lia); discriminate).
  assert (false = true) by (apply Hs; split; assumption). discriminate.
Qed.

(** [binary_round_aux] on [m + rho / D] (the location [l] encodes
    [rho / D]) is within relative error [2^-53] of it, and exact when
    nothing is dropped. *)
Lemma round_aux_gen (m : positive) (e : Z) (l : location) (rho D : Z) :
  0 <= rho < D ->
  (shr_r (shr_record_of_loc (Zpos m) l) = true <-> D <= 2 * rho) ->
  (shr_s (shr_record_of_loc (Zpos m) l) = true <-> rho <> 0 /\ 2 * rho <> D) ->
  (l = loc_Exact \/ 53 <= Zpos (digits2_pos m)) ->
  -1074 <= Zpos (digits2_pos m) + e - 53 -> Zpos (digits2_pos m) + e <= 1000 -> e <= 900 ->
  exists m2 e2,
    binary_round_aux 53 1024 false (Zpos m) e l = S754_finite false m2 e2 /\
    e <= e2 <= e + Z.max 0 (Zpos (digits2_pos m) - 53) + 1 /\ Zpos m2 < 2 ^ 53 /\
    2 ^ 53 * Z.abs (Zpos m2 * 2 ^ (e2 - e) * D - (Zpos m * D + rho)) <= Zpos m * D + rho /\
    (Zpos (digits2_pos m) <= 53 -> l = loc_Exact -> m2 = m /\ e2 = e) /\
    (rho = 0 -> Zpos m mod 2 ^ (Zpos (digits2_pos m) - 53) = 0 ->
     Zpos m2 * 2 ^ (e2 - e) = Zpos m).
Proof.
  intros Hrho Hr0 Hs0 Hl Hlo Hhi He. unfold binary_round_aux, shr_fexp.
  change (Zdigits2 (Zpos m)) with (Zpos (digits2_pos m)).
  pose proof (digits2_pos_bounds m) as Hb.
  remember (Zpos (digits2_pos m)) as k eqn:Hk.
  rewrite fexp_normal by lia.
  replace (k + e - 53 - e) with (k - 53) by lia.
  destruct (Z.lt_ge_cases k 53) as [Hs|Hs].
  - destruct Hl as [->|Hl]; [|lia].
    pose proof (loc_exact_rho rho D Hrho Hr0 Hs0) as Hrho0. subst rho.
    rewrite shr_nonpos by lia. cbn [shr_record_of_loc shr_m loc_of_shr_record
      round_nearest_even].
    change (Zdigits2 (Zpos m)) with (Zpos (digits2_pos m)). rewrite <- Hk.
    rewrite fexp_normal by lia. replace (k + e - 53 - e) with (k - 53) by lia.
    rewrite shr_nonpos by lia. cbn [shr_m].
    replace (e <=? 1024 - 53) with true by lia.
    exists m, e. rewrite Z.sub_diag, Z.mul_1_r, Z.add_0_r, Z.sub_diag. cbn [Z.abs].
    assert (2 ^ k <= 2 ^ 53) by (apply Z.pow_le_mono_r; lia).
    repeat split; try lia.
  - rewrite shr_iter_nat by lia.
    rewrite (shr_record_of_loc_fields (Zpos m) l).
    pose proof (shr_round (Zpos m) rho D _ _ (Z.to_nat (k - 53)) ltac:(lia) Hrho Hr0 Hs0)
      as Hr.
    rewrite Z2Nat.id in Hr by lia. cbv zeta in Hr.
    set (rec := Nat.iter (Z.to_nat (k - 53)) shr_1 (Build_shr_record (Zpos m) _ _)) in *.
    set (m' := round_nearest_even (shr_m rec) (loc_of_shr_record rec)) in *.
    clearbody rec m'. destruct Hr as (Hq & Hclose & Hm' & Hexact).
    assert (Hp2 : 2 ^ k = 2 ^ 53 * 2 ^ (k - 53))
      by (rewrite <- Z.pow_add_r by lia; f_equal; lia).
    assert (Hp1 : 2 ^ (k - 1) = 2 ^ 52 * 2 ^ (k - 53))
      by (rewrite <- Z.pow_add_r by lia; f_equal; lia).
    assert (Hpp : 0 < 2 ^ (k - 53)) by (apply Z.pow_pos_nonneg; lia).
    assert (Hqlo : 2 ^ 52 <= shr_m rec).
    { rewrite Hq. apply Z.div_le_lower_bound; lia. }
    assert (Hqhi : shr_m rec < 2 ^ 53).
    { rewrite Hq. apply Z.div_lt_upper_bound; lia. }
    assert (HD : 0 < D) by lia.
    destruct m' as [|mp|mp]; try lia.
    assert (Hk53 : k <= 53 -> l = loc_Exact -> Zpos mp = Zpos m).
    { intros H1 ->. assert (E0 : k - 53 = 0) by lia.
      pose proof (loc_exact_rho rho D Hrho Hr0 Hs0) as Hrho0.
      rewrite E0, Z.div_1_r in Hq. rewrite E0 in Hexact.
      rewrite Hexact, Hq; [reflexivity|exact Hrho0|]. apply Z.mod_1_r. }
    change (Zdigits2 (Zpos mp)) with (Zpos (digits2_pos mp)).
    destruct (Z.eq_dec (Zpos mp) (2 ^ 53)) as [Htop|Htop].
    + rewrite (digits2_unique mp 54) by (rewrite Htop; cbn; lia).
      rewrite fexp_normal by lia.
      replace (54 + (e + (k - 53)) - 53 - (e + (k - 53))) with 1 by lia.
      cbn [shr shr_record_of_loc iter_pos].
      rewrite Htop. cbn [shr_1 shr_m].
      replace (e + (k - 53) + 1 <=? 1024 - 53) with true by lia.
      exists (2 ^ 52)%positive, (e + (k - 53) + 1).
      replace (e + (k - 53) + 1 - e) with (1 + (k - 53)) by lia.
      rewrite Z.pow_add_r by lia.
      split; [reflexivity|]. split; [lia|]. split; [reflexivity|].
      split; [|split; [intros H1 H2; specialize (Hk53 H1 H2);
        replace k with 53 in Hb by lia; lia|]].
      * change (Zpos (2 ^ 52)) with (2 ^ 52). nia.
      * intros H0 Hmod. specialize (Hexact H0 Hmod). lia.
    + rewrite (digits2_unique mp 53) by (cbn; lia).
      rewrite fexp_normal by lia.
      replace (53 + (e + (k - 53)) - 53 - (e + (k - 53))) with 0 by lia.
      rewrite shr_nonpos by lia. cbn [shr_record_of_loc shr_m].
      replace (e + (k - 53) <=? 1024 - 53) with true by lia.
      exists mp, (e + (k - 53)).
      replace (e + (k - 53) - e) with (k - 53) by lia.
      split; [reflexivity|]. split; [lia|]. split; [lia|]. split; [|split].
      * nia.
      * intros H1 H2. specialize (Hk53 H1 H2). injection Hk53 as ->. split; lia.
      * intros H0 Hmod. specialize (Hexact H0 Hmod).
        pose proof (Z.div_mod (Zpos m) (2 ^ (k - 53)) ltac:(lia)) as Hdm.
        rewrite Hmod, <- Hq, <- Hexact in Hdm. lia.
Qed.

Lemma new_location_spec (D rho m : Z) :
  0 <= rho < D ->
  (shr_r (shr_record_of_loc m (new_location D rho)) = true <-> D <= 2 * rho) /\
  (shr_s (shr_record_of_loc m (new_location D rho)) = true <-> rho <> 0 /\ 2 * rho <> D).
Proof.
  intros Hr. unfold new_location, new_location_even, new_location_odd.
  destruct (Z.even D) eqn:Ev.
  - apply Z.even_spec in Ev as [h Hh].
    destruct (Z.eqb_spec rho 0) as [->|H0]; [cbn [shr_record_of_loc shr_r shr_s]; intuition (try discriminate; lia)|].
    destruct (Z.compare_spec (2 * rho) D); cbn [shr_record_of_loc shr_r shr_s]; intuition (try discriminate; lia).
  - assert (Hodd : Z.odd D = true) by (rewrite <- Z.negb_even, Ev; reflexivity).
    apply Z.odd_spec in Hodd as [h Hh].
    destruct (Z.eqb_spec rho 0) as [->|H0]; [cbn [shr_record_of_loc shr_r shr_s]; intuition (try discriminate; lia)|].
    destruct (Z.compare_spec (2 * rho + 1) D); cbn [shr_record_of_loc shr_r shr_s]; intuition (try discriminate; lia).
Qed.

Lemma round_aux_pos (m : positive) (e : Z) :
  -1074 <= Zpos (digits2_pos m) + e - 53 -> Zpos (digits2_pos m) + e <= 1000 -> e <= 900 ->
  exists m2 e2,
    binary_round_aux 53 1024 false (Zpos m) e loc_Exact = S754_finite false m2 e2 /\
    e <= e2 /\ Zpos m2 < 2 ^ 53 /\
    2 ^ 53 * Z.abs (Zpos m2 * 2 ^ (e2 - e) - Zpos m) <= Zpos m /\
    (Zpos (digits2_pos m) <= 53 -> m2 = m /\ e2 = e) /\
    (Zpos m mod 2 ^ (Zpos (digits2_pos m) - 53) = 0 -> Zpos m2 * 2 ^ (e2 - e) = Zpos m).
Proof.
  intros H1 H2 H3.
  destruct (round_aux_gen m e loc_Exact 0 1) as (m2 & e2 & Hr & He & Hm2 & HW & Hex & Hmod);
    try (cbn [shr_record_of_loc shr_r shr_s]; split; intros; try discriminate; lia);
    try lia; [left; reflexivity|].
  exists m2, e2. rewrite !Z.mul_1_r, Z.add_0_r in HW.
  split; [exact Hr|]. split; [lia|]. split; [exact Hm2|]. split; [exact HW|]. split.
  - intros Hk. apply Hex; [exact Hk|reflexivity].
  - intros Hm. apply Hmod; [reflexivity|exact Hm].
Qed.

Lemma pos_iter_xO (p n : positive) : Zpos (Pos.iter xO p n) = Zpos p * 2 ^ Zpos n.
Proof.
  induction n as [|n IH] using Pos.peano_ind.
  - cbn. lia.
  - rewrite Pos.iter_succ, Pos2Z.inj_succ, Z.pow_succ_r by lia.
    rewrite (Pos2Z.inj_xO (Pos.iter xO p n)), IH. ring.
Qed.

Lemma of_int_exact (d : Z) : 1 <= d < 2 ^ 53 ->
  exists md B, PyFloat.of_int d = S754_finite false md (- B) /\ 0 <= B /\
               Zpos md = d * 2 ^ B /\ Zpos md < 2 ^ 53 /\ 2 ^ 52 <= Zpos md.
Proof.
  intros Hd. destruct d as [|p|p]; try lia.
  unfold PyFloat.of_int, PyFloat.prec, PyFloat.emax, binary_normalize, binary_round.
  pose proof (digits2_pos_bounds p) as Hb.
  remember (Zpos (digits2_pos p)) as k eqn:Hk.
  assert (Hk53 : k <= 53).
  { destruct (Z.le_gt_cases k 53) as [H|H]; [exact H|].
    assert (2 ^ 53 <= 2 ^ (k - 1)) by (apply Z.pow_le_mono_r; lia). lia. }
  assert (Hk1 : 1 <= k) by lia.
  rewrite fexp_normal by lia. unfold shl_align.
  replace (k + 0 - 53 - 0) with (k - 53) by lia.
  destruct (k - 53) as [|δ|δ] eqn:Es; try lia.
  - destruct (round_aux_pos p 0) as (m2 & e2 & Hr & _ & _ & _ & Hex & _); try lia.
    destruct (Hex ltac:(lia)) as [-> ->].
    replace (k + 0 - 53) with 0 by lia. rewrite Hr.
    replace k with 53 in Hb by lia.
    exists p, 0. repeat split; lia.
  - assert (Hm : Zpos (Pos.iter xO p δ) = Zpos p * 2 ^ Zpos δ) by apply pos_iter_xO.
    assert (Hδ : Zpos δ = 53 - k) by lia.
    assert (H52 : 2 ^ 52 = 2 ^ (k - 1) * 2 ^ Zpos δ)
      by (rewrite <- Z.pow_add_r by lia; f_equal; lia).
    assert (H53 : 2 ^ 53 = 2 ^ k * 2 ^ Zpos δ)
      by (rewrite <- Z.pow_add_r by lia; f_equal; lia).
    assert (Hpp : 0 < 2 ^ Zpos δ) by (apply Z.pow_pos_nonneg; lia).
    assert (Hdig : Zpos (digits2_pos (Pos.iter xO p δ)) = 53).
    { apply digits2_unique. rewrite Hm. cbn [Z.sub]. nia. }
    destruct (round_aux_pos (Pos.iter xO p δ) (Zneg δ)) as (m2 & e2 & Hr & _ & _ & _ & Hex & _);
      try lia.
    destruct (Hex ltac:(lia)) as [-> ->].
    replace (k + 0 - 53) with (Zneg δ) by lia.
    exists (Pos.iter xO p δ), (Zpos δ). split; [exact Hr|]. repeat split; try lia; nia.
Qed.

(** Two roundings of relative error [2^-53] around [v * d / 1000] either
    stay in the same integer or fall just below a multiple of 1000. *)
Lemma floor_window (v d mq a b W : Z) :
  1 <= v -> 1 <= d -> v * d <= 2 ^ 51 -> 0 < a -> 0 < b -> 0 <= mq ->
  2 ^ 53 * Z.abs (mq * 1000 - v * a) <= v * a ->
  2 ^ 53 * Z.abs (W - mq * (d * b)) <= mq * (d * b) ->
  W / (a * b) = v * d / 1000 \/
  ((v * d) mod 1000 = 0 /\ W / (a * b) = v * d / 1000 - 1).
Proof.
  intros Hv Hd Hvd Ha Hb Hmq Hq HW.
  set (K := 2 ^ 53) in *. assert (HK : K = 9007199254740992) by reflexivity.
  set (t := a * b). assert (Ht : 0 < t) by (unfold t; nia).
  set (P := mq * (d * b)) in *. set (X := v * d * t).
  assert (HX : X <= 2 ^ 51 * t) by (unfold X; nia).
  assert (Hdiff : 1000 * P - X = d * b * (mq * 1000 - v * a)) by (unfold P, X, t; ring).
  assert (F1 : K * Z.abs (1000 * P - X) <= X).
  { rewrite Hdiff, Z.abs_mul, (Z.abs_eq (d * b)) by nia.
    replace X with (d * b * (v * a)) by (unfold X, t; ring).
    replace (K * (d * b * Z.abs (mq * 1000 - v * a)))
      with (d * b * (K * Z.abs (mq * 1000 - v * a))) by ring.
    apply Z.mul_le_mono_nonneg_l; [nia|exact Hq]. }
  assert (F2 : 1000 * P <= 2 * X).
  { assert (0 <= X) by (unfold X; nia).
    destruct (Z.abs_spec (1000 * P - X)) as [[_ E]|[_ E]]; rewrite E in F1; nia. }
  assert (F3 : K * Z.abs (1000 * W - X) < K * t).
  { assert (E : 1000 * W - X = 1000 * (W - P) + (1000 * P - X)) by ring.
    assert (K * Z.abs (1000 * W - X) <= 1000 * (K * Z.abs (W - P)) + K * Z.abs (1000 * P - X)).
    { rewrite E. pose proof (Z.abs_triangle (1000 * (W - P)) (1000 * P - X)).
      rewrite Z.abs_mul in H. cbn [Z.abs] in H. nia. }
    rewrite HK in *. change (2 ^ 51) with 2251799813685248 in HX. nia. }
  assert (F4 : Z.abs (1000 * W - X) < t) by nia.
  pose proof (Z.div_mod (v * d) 1000 ltac:(lia)) as Hn.
  pose proof (Z.mod_pos_bound (v * d) 1000 ltac:(lia)) as Hf.
  set (N := v * d / 1000) in *. set (f := v * d mod 1000) in *.
  assert (HXN : X = (1000 * N + f) * t) by (unfold X; rewrite <- Hn; ring).
  assert (Hlo : (N - 1) * t <= W) by (destruct (Z.abs_spec (1000 * W - X)) as [[_ E]|[_ E]]; nia).
  assert (Hhi : W < (N + 1) * t) by (destruct (Z.abs_spec (1000 * W - X)) as [[_ E]|[_ E]]; nia).
  assert (N - 1 <= W / t) by (apply Z.div_le_lower_bound; lia).
  assert (W / t < N + 1) by (apply Z.div_lt_upper_bound; lia).
  destruct (Z.eq_dec f 0) as [Hf0|Hf0].
  - lia.
  - assert (Hlo' : N * t <= W)
      by (destruct (Z.abs_spec (1000 * W - X)) as [[_ E]|[_ E]]; nia).
    assert (N <= W / t) by (apply Z.div_le_lower_bound; lia).
    lia.
Qed.
Lemma to_int_finite (m2 : positive) (e2 E : Z) :
  E <= e2 -> E <= 0 ->
  PyFloat.to_int (S754_finite false m2 e2) = Ok (Zpos m2 * 2 ^ (e2 - E) / 2 ^ (- E)).
Proof.
  intros H1 H2. unfold PyFloat.to_int. f_equal.
  destruct (Z.leb_spec 0 e2) as [He|He].
  - replace (2 ^ (e2 - E)) with (2 ^ e2 * 2 ^ (- E))
      by (rewrite <- Z.pow_add_r by lia; f_equal; lia).
    rewrite Z.mul_assoc, Z.div_mul; [reflexivity|].
    apply Z.pow_nonzero; lia.
  - replace (2 ^ (- E)) with (2 ^ (- e2) * 2 ^ (e2 - E))
      by (rewrite <- Z.pow_add_r by lia; f_equal; lia).
    rewrite Z.div_mul_cancel_r; [reflexivity| |]; apply Z.pow_nonzero; lia.
Qed.

Lemma digits2_le (p : positive) (j : Z) : 0 <= j -> Zpos p < 2 ^ j -> Zpos (digits2_pos p) <= j.
Proof.
  intros Hj Hp. pose proof (digits2_pos_bounds p) as Hb.
  destruct (Z.le_gt_cases (Zpos (digits2_pos p)) j) as [H|H]; [exact H|].
  assert (2 ^ j <= 2 ^ (Zpos (digits2_pos p) - 1)) by (apply Z.pow_le_mono_r; lia). lia.
Qed.


Lemma of_int_1000 :
  PyFloat.of_int 1000 = S754_finite false (1000 * 2 ^ 43) (-43).
Proof. vm_compute. reflexivity. Qed.

(** [v / 1000] is correctly rounded: its significand [mq] and exponent
    [eq] satisfy [|mq * 2^eq - v / 1000| <= 2^-53 * v / 1000]. *)
Lemma div_close (v : Z) : 1 <= v < 2 ^ 53 ->
  exists mq eq,
    PyFloat.div (PyFloat.of_int v) (PyFloat.of_int 1000) = S754_finite false mq eq /\
    eq < 0 /\ -80 <= eq /\ Zpos mq < 2 ^ 53 /\
    2 ^ 53 * Z.abs (Zpos mq * 1000 - v * 2 ^ (- eq)) <= v * 2 ^ (- eq).
Proof.
  intros Hv.
  destruct (of_int_exact v Hv) as (mv & Bv & Hov & HBv & Hmv & Hmv53 & Hmv52).
  assert (HB52 : Bv <= 52).
  { destruct (Z.le_gt_cases Bv 52) as [H|H]; [exact H|].
    assert (2 ^ 53 <= 2 ^ Bv) by (apply Z.pow_le_mono_r; lia). nia. }
  rewrite Hov, of_int_1000. set (my := (1000 * 2 ^ 43)%positive).
  assert (Hmy : Zpos my = 1000 * 2 ^ 43) by reflexivity.
  unfold PyFloat.div, PyFloat.prec, PyFloat.emax, SFdiv, SFdiv_core_binary.
  assert (Hdv : Zdigits2 (Zpos mv) = 53).
  { apply digits2_unique. cbn [Z.sub]. lia. }
  assert (Hdy : Zdigits2 (Zpos my) = 53) by reflexivity.
  rewrite Hdv, Hdy, fexp_normal by lia.
  replace (Z.min (53 + - Bv - (53 + -43) - 53) (- Bv - -43)) with (-10 - Bv) by lia.
  replace (- Bv - -43 - (-10 - Bv)) with 53 by lia.
  cbv beta iota zeta.
  rewrite Z.shiftl_mul_pow2 by lia.
  set (a := Zpos mv * 2 ^ 53).
  destruct (Z.div_eucl a (Zpos my)) as [q r] eqn:Edq.
  assert (Hq : q = a / Zpos my) by (unfold Z.div; rewrite Edq; reflexivity).
  assert (Hrm : r = a mod Zpos my) by (unfold Z.modulo; rewrite Edq; reflexivity).
  pose proof (Z.div_mod a (Zpos my) ltac:(lia)) as Hdm.
  rewrite <- Hq, <- Hrm in Hdm.
  pose proof (Z.mod_pos_bound a (Zpos my) ltac:(lia)) as Hrb. rewrite <- Hrm in Hrb.
  assert (Hqlo : 2 ^ 52 <= q).
  { rewrite Hq. apply Z.div_le_lower_bound; [lia|]. unfold a. rewrite Hmy. nia. }
  assert (Hqhi : q < 2 ^ 54).
  { rewrite Hq. apply Z.div_lt_upper_bound; [lia|]. unfold a. rewrite Hmy. nia. }
  destruct q as [|qp|qp]; try lia.
  pose proof (digits2_pos_bounds qp) as Hkb.
  pose proof (digits2_le qp 54 ltac:(lia) Hqhi) as Hk54.
  assert (Hk53 : 53 <= Zpos (digits2_pos qp)).
  { destruct (Z.le_gt_cases 53 (Zpos (digits2_pos qp))) as [H|H]; [exact H|].
    assert (2 ^ Zpos (digits2_pos qp) <= 2 ^ 52) by (apply Z.pow_le_mono_r; lia). lia. }
  destruct (new_location_spec (Zpos my) r (Zpos qp) Hrb) as [Hr0 Hs0].
  destruct (round_aux_gen qp (-10 - Bv) (new_location (Zpos my) r) r (Zpos my))
    as (m2 & e2 & Hr & He & Hm2 & HW & _ & _); try lia; try assumption.
  exists m2, e2. cbn [xorb]. split; [exact Hr|].
  assert (He2 : -10 - Bv <= e2 <= -8 - Bv) by lia.
  split; [lia|]. split; [lia|]. split; [exact Hm2|].
  replace (Zpos qp * Zpos my + r) with a in HW by lia. unfold a in HW. rewrite Hmv, Hmy in HW.
  set (t := e2 - (-10 - Bv)) in HW.
  assert (Ht : 0 <= t) by lia.
  set (P := 2 ^ (t + 43)).
  assert (HP : 0 < P) by (apply Z.pow_pos_nonneg; lia).
  assert (E1 : Zpos m2 * 2 ^ t * (1000 * 2 ^ 43) = P * (Zpos m2 * 1000)).
  { unfold P. rewrite Z.pow_add_r by lia. ring. }
  assert (E2 : v * 2 ^ Bv * 2 ^ 53 = P * (v * 2 ^ (- e2))).
  { assert (Hpw : 2 ^ Bv * 2 ^ 53 = P * 2 ^ (- e2))
      by (unfold P; rewrite <- !Z.pow_add_r by lia; f_equal; unfold t; lia).
    rewrite <- Z.mul_assoc, Hpw. ring. }
  rewrite E1, E2, <- Z.mul_sub_distr_l, Z.abs_mul, (Z.abs_eq P) in HW by lia.
  nia.
Qed.

Lemma denormalize_floor_or_less (v d : Z) :
  1 <= v -> 1 <= d < 2 ^ 53 -> v * d <= 2 ^ 51 ->
  denormalize v d = Ok (exact_denormalize v d) \/
  ((v * d) mod 1000 = 0 /\ denormalize v d = Ok (exact_denormalize v d - 1)).
Proof.
  intros Hv Hd Hvd. unfold denormalize, exact_denormalize.
  destruct (div_close v ltac:(nia)) as (mq & eq & Eq & He1 & He2 & Hmq & Hclose).
  rewrite Eq.
  destruct (of_int_exact d Hd) as (md & B & Hof & HB & Hmd & Hmd53 & _).
  rewrite Hof. unfold PyFloat.mul, PyFloat.prec, PyFloat.emax. cbn [SFmul xorb].
  assert (HP : Zpos (mq * md) < 2 ^ 106).
  { rewrite Pos2Z.inj_mul. change (2 ^ 106) with (2 ^ 53 * 2 ^ 53). nia. }
  pose proof (digits2_le (mq * md) 106 ltac:(lia) HP) as Hk.
  pose proof (Pos2Z.is_pos (digits2_pos (mq * md))) as Hk1.
  assert (HB52 : B <= 52).
  { destruct (Z.le_gt_cases B 52) as [H|H]; [exact H|].
    assert (2 ^ 53 <= 2 ^ B) by (apply Z.pow_le_mono_r; lia). nia. }
  destruct (round_aux_pos (mq * md) (eq + - B)) as (m2 & e2 & Hr & He & _ & HW & _ & _);
    try lia.
  rewrite Hr, (to_int_finite m2 e2 (eq + - B)) by lia.
  replace (- (eq + - B)) with (- eq + B) by lia.
  rewrite Z.pow_add_r by lia.
  rewrite Pos2Z.inj_mul, Hmd in HW.
  destruct (floor_window v d (Zpos mq) (2 ^ (- eq)) (2 ^ B)
              (Zpos m2 * 2 ^ (e2 - (eq + - B)))) as [H|[H0 H]]; try lia;
    try (apply Z.pow_pos_nonneg; lia); try assumption;
    [left|right; split; [exact H0|]]; rewrite H; reflexivity.
Qed.

Lemma div_1000_1000 :
  PyFloat.div (PyFloat.of_int 1000) (PyFloat.of_int 1000) = S754_finite false (2 ^ 52) (-52).
Proof. vm_compute. reflexivity. Qed.

Lemma div_0_1000 :
  PyFloat.div (PyFloat.of_int 0) (PyFloat.of_int 1000) = S754_zero false.
Proof. vm_compute. reflexivity. Qed.

Lemma denormalize_0_any (d : Z) : 0 <= d < 2 ^ 53 -> denormalize 0 d = Ok 0.
Proof.
  intros Hd. unfold denormalize. rewrite div_0_1000.
  destruct (Z.eq_dec d 0) as [->|Hne]; [reflexivity|].
  destruct (of_int_exact d ltac:(lia)) as (md & B & -> & _). reflexivity.
Qed.

Lemma denormalize_1000_any (d : Z) : 0 <= d < 2 ^ 53 -> denormalize 1000 d = Ok d.
Proof.
  intros Hd. destruct (Z.eq_dec d 0) as [->|Hne]; [reflexivity|].
  unfold denormalize. rewrite div_1000_1000.
  destruct (of_int_exact d ltac:(lia)) as (md & B & Hof & HB & Hmd & Hmd53 & _).
  rewrite Hof. unfold PyFloat.mul, PyFloat.prec, PyFloat.emax. cbn [SFmul xorb].
  assert (HB52 : B <= 52).
  { destruct (Z.le_gt_cases B 52) as [H|H]; [exact H|].
    assert (2 ^ 53 <= 2 ^ B) by (apply Z.pow_le_mono_r; lia). nia. }
  assert (HP : Zpos (2 ^ 52 * md) = 2 ^ 52 * Zpos md) by reflexivity.
  pose proof (digits2_pos_bounds (2 ^ 52 * md)) as Hb. rewrite HP in Hb.
  remember (Zpos (digits2_pos (2 ^ 52 * md))) as k eqn:Hk.
  assert (Hk105 : k <= 105).
  { destruct (Z.le_gt_cases k 105) as [H|H]; [exact H|].
    assert (2 ^ 105 <= 2 ^ (k - 1)) by (apply Z.pow_le_mono_r; lia).
    change (2 ^ 105) with (2 ^ 52 * 2 ^ 53) in *. nia. }
  assert (Hk53 : 53 <= k).
  { destruct (Z.le_gt_cases 53 k) as [H|H]; [exact H|].
    assert (2 ^ k <= 2 ^ 52) by (apply Z.pow_le_mono_r; lia). nia. }
  destruct (round_aux_pos (2 ^ 52 * md) (-52 + - B)) as (m2 & e2 & Hr & He & _ & _ & _ & Hex);
    try lia.
  rewrite Hr, (to_int_finite m2 e2 (-52 + - B)) by lia.
  rewrite Hex.
  - rewrite HP, Hmd. replace (- (-52 + - B)) with (52 + B) by lia.
    rewrite Z.pow_add_r by lia.
    replace (2 ^ 52 * (d * 2 ^ B)) with (d * (2 ^ 52 * 2 ^ B)) by ring.
    rewrite Z.div_mul; [reflexivity|]. apply Z.neq_mul_0; split; apply Z.pow_nonzero; lia.
  - rewrite <- Hk, HP.
    replace (2 ^ 52) with (2 ^ (105 - k) * 2 ^ (k - 53)) at 1
      by (rewrite <- Z.pow_add_r by lia; f_equal; lia).
    rewrite <- Z.mul_assoc, (Z.mul_comm (2 ^ (k - 53))), Z.mul_assoc.
    apply Z.mod_mul. apply Z.pow_nonzero; lia.
Qed.

(** The float operations are symmetric in the sign. *)
Lemma round_aux_opp (s : bool) (m e : Z) (l : location) :
  binary_round_aux 53 1024 (negb s) m e l = SFopp (binary_round_aux 53 1024 s m e l).
Proof.
  unfold binary_round_aux.
  destruct (shr_fexp 53 1024 m e l) as [mrs e'].
  destruct (shr_fexp 53 1024 _ e' loc_Exact) as [mrs' e''].
  destruct (shr_m mrs'); try reflexivity. destruct (e'' <=? 1024 - 53); reflexivity.
Qed.

Lemma of_int_opp (p : positive) :
  PyFloat.of_int (Zneg p) = SFopp (PyFloat.of_int (Zpos p)).
Proof.
  unfold PyFloat.of_int, PyFloat.prec, PyFloat.emax, binary_normalize, binary_round.
  destruct (shl_align p 0 _) as [mz ez]. exact (round_aux_opp false _ _ _).
Qed.

Lemma div_opp (x y : spec_float) :
  PyFloat.div (SFopp x) y = SFopp (PyFloat.div x y).
Proof.
  unfold PyFloat.div, PyFloat.prec, PyFloat.emax.
  destruct x as [sx|sx| |sx mx ex], y as [sy|sy| |sy my ey];
    try destruct sx; try destruct sy; try reflexivity;
    cbn [SFopp SFdiv negb xorb];
    destruct (SFdiv_core_binary 53 1024 _ _ _ _) as [[mz ez] lz];
    first [exact (round_aux_opp false _ _ _) | exact (round_aux_opp true _ _ _)].
Qed.

Lemma mul_opp (x y : spec_float) :
  PyFloat.mul (SFopp x) y = SFopp (PyFloat.mul x y).
Proof.
  unfold PyFloat.mul, PyFloat.prec, PyFloat.emax.
  destruct x as [sx|sx| |sx mx ex], y as [sy|sy| |sy my ey];
    try destruct sx; try destruct sy; try reflexivity;
    cbn [SFopp SFmul negb xorb];
    first [exact (round_aux_opp false _ _ _) | exact (round_aux_opp true _ _ _)].
Qed.

Lemma to_int_opp (f : spec_float) :
  PyFloat.to_int (SFopp f) =
  match PyFloat.to_int f with Ok z => Ok (- z) | Exc e => Exc e end.
Proof.
  destruct f as [s|s| |s m e]; try reflexivity.
  unfold PyFloat.to_int. cbn [SFopp]. destruct s; cbn [negb]; f_equal; lia.
Qed.

Lemma denormalize_opp (v d : Z) :
  denormalize (- v) d =
  match denormalize v d with Ok z => Ok (- z) | Exc e => Exc e end.
Proof.
  unfold denormalize. destruct v as [|p|p].
  - cbn [Z.opp]. rewrite div_0_1000.
    destruct (PyFloat.of_int d) as [s|s| |s m e]; reflexivity.
  - cbn [Z.opp]. rewrite of_int_opp, div_opp, mul_opp, to_int_opp. reflexivity.
  - cbn [Z.opp]. rewrite (of_int_opp p), div_opp, mul_opp, to_int_opp.
    destruct (PyFloat.to_int _); [rewrite Z.opp_involutive|]; reflexivity.
Qed.

Lemma denormalize_v_0 (v : Z) : 0 <= v < 2 ^ 53 -> denormalize v 0 = Ok 0.
Proof.
  intros Hv. destruct (Z.eq_dec v 0) as [->|Hne]; [reflexivity|].
  unfold denormalize.
  destruct (div_close v ltac:(lia)) as (mq & eq & -> & _). reflexivity.
Qed.

Lemma denormalize_floor_or_less_all (v d : Z) :
  0 <= v <= 2 ^ 51 -> 0 <= d <= 2 ^ 51 -> v * d <= 2 ^ 51 ->
  denormalize v d = Ok (exact_denormalize v d) \/
  ((v * d) mod 1000 = 0 /\ denormalize v d = Ok (exact_denormalize v d - 1)).
Proof.
  intros Hv Hd Hvd.
  destruct (Z.eq_dec v 0) as [->|Hv0].
  - left. rewrite denormalize_0_any by lia. reflexivity.
  - destruct (Z.eq_dec d 0) as [->|Hd0].
    + left. rewrite denormalize_v_0 by lia. unfold exact_denormalize.
      rewrite Z.mul_0_r. reflexivity.
    + apply denormalize_floor_or_less; lia.
Qed.

Lemma denormalize_endpoints (d : Z) : 0 <= d <= 2 ^ 53 ->
  denormalize 0 d = Ok 0 /\ denormalize 1000 d = Ok d.
Proof.
  intros Hd. destruct (Z.eq_dec d (2 ^ 53)) as [->|Hne].
  - vm_compute. split; reflexivity.
  - split; [apply denormalize_0_any|apply denormalize_1000_any]; lia.
Qed.

(** Claim C9, as stated: [denormalize(v, d) = floor(v / 1000 * d)] for
    every [v] in [0, 1000]. It fails at [v = 175], [d = 1440]: the
    double-precision product is 251.99999999999997 and truncates to 251,
    while [floor(175 * 1440 / 1000) = 252]. *)
Lemma denormalize_floor_counterexample :
  ~ (forall v d, 0 <= v <= 1000 -> 0 <= d ->
       denormalize v d = Ok (exact_denormalize v d)).
Proof.
  intros H. specialize (H 175 1440 ltac:(lia) ltac:(lia)).
  vm_compute in H. discriminate H.
Qed.

(** Claim C9, amended: [denormalize(v, d)] is [int(v / 1000 * d)] in
    IEEE-754 double arithmetic. For all [v], [d] in [0, 2^51] with
    [v * d <= 2^51] it is [floor(v * d / 1000)] or one less, and one less
    only when [v * d] is a multiple of 1000. On the configured 1440x900
    screen it is [floor(v * d / 1000)] on the y axis for every [v] in
    [0, 1000], and on the x axis except at [v] in {175, 350, 575, 700}
    where it is one pixel less. [denormalize(0, d) = 0] and
    [denormalize(1000, d) = d] for every [d] in [0, 2^53]. Values outside
    [0, 1000] are neither rejected nor clamped: the first property holds
    for every [v >= 0], and a negative [v] gives the negation of the
    result for [-v]. *)
Theorem denormalize_ieee_C9 :
  (forall v d, 0 <= v <= 2 ^ 51 -> 0 <= d <= 2 ^ 51 -> v * d <= 2 ^ 51 ->
     denormalize v d = Ok (exact_denormalize v d) \/
     ((v * d) mod 1000 = 0 /\ denormalize v d = Ok (exact_denormalize v d - 1))) /\
  (forall v, 0 <= v <= 1000 ->
     denormalize v (snd PLAYWRIGHT_SCREEN_SIZE) = Ok (exact_denormalize v 900) /\
     denormalize v (fst PLAYWRIGHT_SCREEN_SIZE) =
       Ok (if existsb (Z.eqb v) x_off_by_one then exact_denormalize v 1440 - 1
           else exact_denormalize v 1440)) /\
  (forall d, 0 <= d <= 2 ^ 53 -> denormalize 0 d = Ok 0 /\ denormalize 1000 d = Ok d) /\
  (forall v d, denormalize (- v) d =
     match denormalize v d with Ok z => Ok (- z) | Exc e => Exc e end) /\
  denormalize 1500 1440 = Ok 2160 /\
  denormalize (-10) 1440 = Ok (-14).
Proof.
  split; [|split; [|split; [|split; [|split]]]].
  - exact denormalize_floor_or_less_all.
  - intros v Hv.
    pose proof (check_range_sound _ _ _ shipped_screen_checked v ltac:(lia)) as H.
    unfold shipped_screen_ok in H. apply andb_true_iff in H as [H1 H2].
    split; apply res_eqb_ok; assumption.
  - exact denormalize_endpoints.
  - exact denormalize_opp.
  - vm_compute. reflexivity.
  - vm_compute. reflexivity.
Qed.

Lemma denormalize_ieee_C9_witness :
  ((0 <= 175 <= 2 ^ 51 /\ 0 <= 1440 <= 2 ^ 51 /\ 175 * 1440 <= 2 ^ 51) /\
   (denormalize 175 1440 = Ok (exact_denormalize 175 1440) \/
    ((175 * 1440) mod 1000 = 0 /\
     denormalize 175 1440 = Ok (exact_denormalize 175 1440 - 1)))) /\
  ((0 <= 175 <= 1000) /\ denormalize 175 (fst PLAYWRIGHT_SCREEN_SIZE) = Ok 251).
Proof.
  destruct denormalize_ieee_C9 as [H1 [H2 _]].
  split.
  - split; [lia|]. apply H1; lia.
  - split; [lia|].
    destruct (H2 175 ltac:(lia)) as [_ H].
    rewrite H. vm_compute. reflexivity.
Defined.

(* ------------------------------------------------------------------ *)
(** ** Retry wrapper *)

Lemma retry_segment_S (base : Z) (a i : nat) :
  retry_segment base a (S i) =
  Attempt a :: Sleep (base * 2 ^ Z.of_nat a) :: retry_segment base (S a) i.
Proof.
  unfold retry_segment. simpl. rewrite Nat.add_succ_r. reflexivity.
Qed.

Lemma retry_from_retries {R : Type} (transport : nat -> TResult R)
    (max_retries : nat) (base : Z) (a rem : nat) (e : Exn) :
  transport a = TErr e -> (a < max_retries - 1)%nat ->
  retry_from transport max_retries base a (S rem) =
  let '(evs, o) := retry_from transport max_retries base (S a) rem in
  (Attempt a :: Sleep (base * 2 ^ Z.of_nat a) :: evs, o).
Proof.
  intros He Hlt. cbn [retry_from]. rewrite He.
  replace (Nat.ltb a (max_retries - 1)) with true
    by (symmetry; apply Nat.ltb_lt; exact Hlt).
  reflexivity.
Qed.

Lemma retry_from_succeeds {R : Type} (transport : nat -> TResult R)
    (max_retries : nat) (base : Z) (r : R) (i : nat) :
  forall a rem,
  (forall k, (a <= k < a + i)%nat -> exists e, transport k = TErr e) ->
  transport (a + i)%nat = TOk r -> (a + i < max_retries)%nat -> (i < rem)%nat ->
  retry_from transport max_retries base a rem =
  (retry_segment base a i, Returned r).
Proof.
  induction i as [|i IH]; intros a rem Hfail Hok Hmax Hrem.
  - destruct rem as [|rem]; [lia|].
    rewrite Nat.add_0_r in Hok. simpl. rewrite Hok.
    unfold retry_segment. simpl. rewrite Nat.add_0_r. reflexivity.
  - destruct rem as [|rem]; [lia|].
    destruct (Hfail a ltac:(lia)) as [e He].
    rewrite (retry_from_retries transport max_retries base a rem e He ltac:(lia)).
    rewrite (IH (S a) rem).
    + rewrite retry_segment_S. reflexivity.
    + intros k Hk. apply Hfail. lia.
    + replace (S a + i)%nat with (a + S i)%nat by lia. exact Hok.
    + lia.
    + lia.
Qed.

Lemma retry_from_exhausts {R : Type} (transport : nat -> TResult R)
    (max_retries : nat) (base : Z) (errs : nat -> Exn) (i : nat) :
  forall a,
  (forall k, transport k = TErr (errs k)) -> (a + S i)%nat = max_retries ->
  retry_from transport max_retries base a (S i) =
  (retry_segment base a i, Raised (errs (a + i)%nat)).
Proof.
  induction i as [|i IH]; intros a Hfail Hmax.
  - simpl. rewrite Hfail.
    replace (Nat.ltb a (max_retries - 1)) with false
      by (symmetry; apply Nat.ltb_ge; lia).
    unfold retry_segment. simpl. rewrite Nat.add_0_r. reflexivity.
  - rewrite (retry_from_retries transport max_retries base a (S i) (errs a)
               (Hfail a) ltac:(lia)).
    rewrite (IH (S a) Hfail ltac:(lia)).
    rewrite retry_segment_S.
    replace (S a + i)%nat with (a + S i)%nat by lia. reflexivity.
Qed.

Lemma retry_segment_claimed (base : Z) (n : nat) :
  retry_segment base 0 n = claimed_trace base n.
Proof.
  induction n as [|n IH].
  - reflexivity.
  - unfold retry_segment, claimed_trace in *. simpl Nat.add in *.
    rewrite !seq_S, !flat_map_app. simpl Nat.add.
    rewrite app_comm_cons, <- IH, <- !app_assoc. f_equal.
    cbn [flat_map app].
    replace (Z.of_nat (S n) - 1) with (Z.of_nat n) by lia.
    reflexivity.
Qed.

(** Claim C7: when the first [j] attempts fail and [j < max_retries], the
    wrapper returns the result of attempt [j] (0-indexed), having slept
    [base * 2^(k-1)] before each attempt [k >= 1]; when every attempt
    fails (and [max_retries >= 1], so that a final attempt exists) it
    makes exactly [max_retries] attempts with sleeps only between them
    and re-raises the last attempt's error. *)
Theorem retry_backoff_C7 (R : Type) :
  (forall (transport : nat -> TResult R) max_retries base j r,
     (forall k, (k < j)%nat -> exists e, transport k = TErr e) ->
     transport j = TOk r -> (j < max_retries)%nat ->
     get_model_response transport max_retries base =
     (claimed_trace base j, Returned r)) /\
  (forall (transport : nat -> TResult R) max_retries base (errs : nat -> Exn),
     (forall k, transport k = TErr (errs k)) -> (0 < max_retries)%nat ->
     get_model_response transport max_retries base =
     (claimed_trace base (max_retries - 1), Raised (errs (max_retries - 1)%nat))).
Proof.
  split.
  - intros transport max_retries base j r Hfail Hok Hlt.
    unfold get_model_response.
    rewrite (retry_from_succeeds transport max_retries base r j 0 max_retries).
    + rewrite retry_segment_claimed. reflexivity.
    + intros k Hk. apply Hfail. lia.
    + exact Hok.
    + lia.
    + exact Hlt.
  - intros transport max_retries base errs Hfail Hpos.
    unfold get_model_response.
    destruct max_retries as [|m]; [lia|].
    rewrite (retry_from_exhausts transport (S m) base errs m 0 Hfail ltac:(lia)).
    rewrite retry_segment_claimed. simpl. rewrite Nat.sub_0_r. reflexivity.
Qed.

Lemma retry_backoff_C7_witness :
  get_model_response
    (fun k => if Nat.ltb k 4 then TErr (TransportError "unavailable") else TOk 42%nat)
    5 1 = (claimed_trace 1 4, Returned 42%nat) /\
  get_model_response (fun _ => @TErr nat (TransportError "unavailable")) 3 1 =
    ([Attempt 0; Sleep 1; Attempt 1; Sleep 2; Attempt 2],
     Raised (TransportError "unavailable")).
Proof.
  split.
  - apply (proj1 (retry_backoff_C7 nat)).
    + intros k Hk. exists (TransportError "unavailable").
      replace (Nat.ltb k 4) with true by (symmetry; apply Nat.ltb_lt; lia).
      reflexivity.
    + reflexivity.
    + lia.
  - apply (proj2 (retry_backoff_C7 nat) _ 3%nat 1 (fun _ => TransportError "unavailable")).
    + intros k. reflexivity.
    + lia.
Defined.

(* ------------------------------------------------------------------ *)
(** ** Safety gate *)

Lemma accepted_answer_iff (x : string) :
  accepted_answer x = true <->
  In (PyStr.lower x) ["y"; "n"; "yes"; "no"; "ye"].
Proof.
  unfold accepted_answer. simpl.
  destruct (String.eqb_spec (PyStr.lower x) "y");
  destruct (String.eqb_spec (PyStr.lower x) "n");
  destruct (String.eqb_spec (PyStr.lower x) "ye");
  destruct (String.eqb_spec (PyStr.lower x) "yes");
  destruct (String.eqb_spec (PyStr.lower x) "no");
  simpl; split; intros H; intuition congruence.
Qed.

Lemma prompt_skips_rejected (pre rest : list string) :
  Forall (fun x => ~ In (PyStr.lower x) ["y"; "n"; "yes"; "no"; "ye"]) pre ->
  prompt_until_accepted (pre ++ rest) = prompt_until_accepted rest.
Proof.
  induction 1 as [|x pre Hx Hpre IH]; [reflexivity|].
  simpl. destruct (accepted_answer x) eqn:E.
  - apply accepted_answer_iff in E. contradiction.
  - exact IH.
Qed.

(** Claim C8: for a well-formed SafetyDecision, with trust mode on the
    gate resolves CONTINUE without reading input; with trust mode off it
    reads lines until one is in {y, n, yes, no, ye} (case-insensitive),
    never resolving on any other line (input that ends first raises
    [EOFError]), and resolves TERMINATE exactly when that line is "n" or
    "no" (case-insensitive), CONTINUE otherwise. *)
Theorem safety_gate_C8 (d : dict) (s : Agent) :
  assoc "decision" d = Some (VStr "require_confirmation") ->
  mem "explanation" d = true ->
  get_safety_confirmation true (VDict d) s = (Ok Continue, s) /\
  (forall pre,
     Forall (fun x => ~ In (PyStr.lower x) ["y"; "n"; "yes"; "no"; "ye"]) pre ->
     stdin s = pre ->
     get_safety_confirmation false (VDict d) s = (Exc EOFError, set_stdin [] s)) /\
  (forall pre a rest,
     Forall (fun x => ~ In (PyStr.lower x) ["y"; "n"; "yes"; "no"; "ye"]) pre ->
     In (PyStr.lower a) ["y"; "n"; "yes"; "no"; "ye"] ->
     stdin s = (pre ++ a :: rest)%list ->
     get_safety_confirmation false (VDict d) s =
     (Ok (if (String.eqb (PyStr.lower a) "n" || String.eqb (PyStr.lower a) "no")%bool
          then Terminate else Continue),
      set_stdin rest s)).
Proof.
  intros Hdec Hexp.
  unfold mem in Hexp. destruct (assoc "explanation" d) as [e|] eqn:He; [|discriminate].
  unfold get_safety_confirmation, bind, lift, value_getitem, getitem.
  rewrite Hdec, He. simpl.
  split; [reflexivity|split].
  - intros pre Hpre Hin. unfold read_decision. rewrite Hin.
    rewrite <- (app_nil_r pre), (prompt_skips_rejected pre [] Hpre).
    reflexivity.
  - intros pre a rest Hpre Ha Hin. unfold read_decision. rewrite Hin.
    rewrite (prompt_skips_rejected pre (a :: rest) Hpre). simpl.
    apply accepted_answer_iff in Ha. rewrite Ha.
    rewrite ?orb_false_r.
    destruct (String.eqb (PyStr.lower a) "n" || String.eqb (PyStr.lower a) "no")%bool;
      reflexivity.
Qed.

Lemma safety_gate_C8_witness :
  get_safety_confirmation false
    (VDict [("decision", VStr "require_confirmation"); ("explanation", VStr "Pay?")])
    (mkAgent [] [] [] ["maybe"; "YES"; "no"] None) =
  (Ok Continue, mkAgent [] [] [] ["no"] None).
Proof.
  destruct (safety_gate_C8
              [("decision", VStr "require_confirmation"); ("explanation", VStr "Pay?")]
              (mkAgent [] [] [] ["maybe"; "YES"; "no"] None)
              eq_refl eq_refl) as [_ [_ H]].
  apply (H ["maybe"] "YES" ["no"]).
  - constructor; [simpl; intuition discriminate|constructor].
  - simpl. auto.
  - reflexivity.
Defined.

(* ------------------------------------------------------------------ *)
(** ** Screenshot retention *)

Lemma count_shots_app (xs ys : list Content) :
  count_shots (xs ++ ys) = (count_shots xs + count_shots ys)%nat.
Proof. unfold count_shots. rewrite filter_app, length_app. reflexivity. Qed.

Lemma count_shots_rev (xs : list Content) : count_shots (rev xs) = count_shots xs.
Proof.
  induction xs as [|c xs IH]; [reflexivity|].
  simpl. rewrite count_shots_app, IH. unfold count_shots. simpl.
  destruct (has_screenshot c); simpl; lia.
Qed.

Lemma strip_part_not_screenshot (p : Part) : screenshot_part (strip_part p) = false.
Proof.
  unfold strip_part. destruct (screenshot_part p) eqn:E; [|exact E].
  unfold screenshot_part in E |- *.
  destruct (function_response p) as [fr|]; [reflexivity|discriminate].
Qed.

Lemma strip_content_no_screenshot (c : Content) :
  has_screenshot (strip_content c) = false.
Proof.
  unfold has_screenshot, strip_content. simpl.
  assert (H : existsb screenshot_part (map strip_part (parts c)) = false).
  { induction (parts c) as [|p ps IH]; [reflexivity|].
    simpl. rewrite strip_part_not_screenshot, IH. reflexivity. }
  rewrite H. rewrite !andb_false_r. reflexivity.
Qed.

Lemma prune_rev_app (xs ys : list Content) :
  forall found, prune_rev found (xs ++ ys) =
  (prune_rev found xs ++ prune_rev (found + count_shots xs) ys)%list.
Proof.
  induction xs as [|c xs IH]; intros found.
  - simpl. rewrite Nat.add_0_r. reflexivity.
  - simpl. unfold count_shots. simpl.
    destruct (has_screenshot c); simpl; rewrite IH; unfold count_shots.
    + rewrite Nat.add_succ_r. reflexivity.
    + reflexivity.
Qed.

Lemma prune_rev_length (cs : list Content) :
  forall found, List.length (prune_rev found cs) = List.length cs.
Proof.
  induction cs as [|c cs IH]; intros found; [reflexivity|].
  simpl. destruct (has_screenshot c); simpl; rewrite IH; reflexivity.
Qed.

Lemma count_shots_cons (c : Content) (cs : list Content) :
  count_shots (c :: cs) =
  ((if has_screenshot c then 1 else 0) + count_shots cs)%nat.
Proof. unfold count_shots. simpl. destruct (has_screenshot c); reflexivity. Qed.

Lemma prune_rev_count (cs : list Content) :
  forall found, count_shots (prune_rev found cs) =
  Nat.min (MAX_RECENT_TURN_WITH_SCREENSHOTS - found) (count_shots cs).
Proof.
  unfold MAX_RECENT_TURN_WITH_SCREENSHOTS.
  induction cs as [|c cs IH]; intros found.
  - unfold count_shots. simpl. lia.
  - cbn [prune_rev]. unfold MAX_RECENT_TURN_WITH_SCREENSHOTS.
    rewrite (count_shots_cons c cs).
    destruct (has_screenshot c) eqn:Hc.
    + destruct (Nat.ltb 3 (S found)) eqn:Hl; lazy beta iota zeta.
      * rewrite count_shots_cons, IH, strip_content_no_screenshot.
        apply Nat.ltb_lt in Hl. lia.
      * rewrite count_shots_cons, IH, Hc.
        apply Nat.ltb_ge in Hl. lia.
    + rewrite count_shots_cons, IH, Hc. lia.
Qed.

Lemma prune_rev_no_shots (cs : list Content) :
  count_shots cs = 0%nat -> forall found, prune_rev found cs = cs.
Proof.
  induction cs as [|c cs IH]; intros H found; [reflexivity|].
  unfold count_shots in H. simpl in H.
  destruct (has_screenshot c) eqn:Hc; [discriminate|].
  simpl. rewrite Hc. f_equal. apply IH. exact H.
Qed.

Lemma prune_rev_idempotent (cs : list Content) :
  forall found, prune_rev found (prune_rev found cs) = prune_rev found cs.
Proof.
  induction cs as [|c cs IH]; intros found; [reflexivity|].
  destruct (Nat.leb_spec MAX_RECENT_TURN_WITH_SCREENSHOTS found) as [Hge|Hlt].
  - apply prune_rev_no_shots. rewrite prune_rev_count.
    replace (MAX_RECENT_TURN_WITH_SCREENSHOTS - found)%nat with 0%nat by lia.
    reflexivity.
  - cbn [prune_rev]. destruct (has_screenshot c) eqn:Hc.
    + replace (Nat.ltb MAX_RECENT_TURN_WITH_SCREENSHOTS (S found)) with false
        by (symmetry; apply Nat.ltb_ge; unfold MAX_RECENT_TURN_WITH_SCREENSHOTS in *; lia).
      cbn [prune_rev]. rewrite Hc.
      replace (Nat.ltb MAX_RECENT_TURN_WITH_SCREENSHOTS (S found)) with false
        by (symmetry; apply Nat.ltb_ge; unfold MAX_RECENT_TURN_WITH_SCREENSHOTS in *; lia).
      rewrite IH. reflexivity.
    + cbn [prune_rev]. rewrite Hc. rewrite IH. reflexivity.
Qed.

Lemma prune_rev_cons_head (k : nat) (c : Content) (l : list Content) :
  exists k', prune_rev k (c :: l) =
  (if (has_screenshot c && Nat.ltb 3 (S k))%bool then strip_content c else c)
  :: prune_rev k' l.
Proof. simpl. destruct (has_screenshot c); simpl; eexists; reflexivity. Qed.

Lemma skipn_after (l1 l2 : list Content) (c : Content) :
  skipn (S (List.length l1)) (l1 ++ c :: l2) = l2.
Proof. induction l1 as [|x l1 IH]; [reflexivity|exact IH]. Qed.

Lemma prune_screenshots_nth (cs : list Content) (i : nat) (c : Content) :
  nth_error cs i = Some c ->
  nth_error (prune_screenshots cs) i =
  Some (if (has_screenshot c && Nat.leb 3 (count_shots (skipn (S i) cs)))%bool
        then strip_content c else c).
Proof.
  intros H.
  destruct (nth_error_split cs i H) as [l1 [l2 [Hcs Hlen]]]. subst cs i.
  rewrite skipn_after. unfold prune_screenshots.
  rewrite rev_app_distr. simpl (rev (c :: l2)). rewrite <- app_assoc.
  rewrite prune_rev_app.
  destruct (prune_rev_cons_head (0 + count_shots (rev l2)) c (rev l1)) as [k' Hk].
  simpl ([c] ++ rev l1)%list. rewrite Hk.
  rewrite rev_app_distr. simpl (rev (_ :: _)). rewrite <- app_assoc.
  assert (Hl : List.length (rev (prune_rev k' (rev l1))) = List.length l1).
  { rewrite length_rev, prune_rev_length, length_rev. reflexivity. }
  rewrite nth_error_app2 by lia. rewrite Hl, Nat.sub_diag. simpl.
  rewrite count_shots_rev. reflexivity.
Qed.

(** Claim C5: when more than 3 user turns carry a built-in action's
    screenshot, the pass keeps every turn in place; a turn is stripped
    exactly when it is screenshot-bearing and at least 3 more recent
    turns are, so exactly the 3 most recent keep their screenshots;
    stripping clears the attachment of every matching part and nothing
    else (role, text, call, name and the metadata mapping stay), and
    leaves the turn without screenshot; all other turns are unchanged. *)
Theorem screenshot_retention_C5 (cs : list Content) :
  (MAX_RECENT_TURN_WITH_SCREENSHOTS < count_shots cs)%nat ->
  List.length (prune_screenshots cs) = List.length cs /\
  (forall i c, nth_error cs i = Some c ->
     nth_error (prune_screenshots cs) i =
     Some (if (has_screenshot c &&
               Nat.leb MAX_RECENT_TURN_WITH_SCREENSHOTS
                       (count_shots (skipn (S i) cs)))%bool
           then strip_content c else c)) /\
  count_shots (prune_screenshots cs) = MAX_RECENT_TURN_WITH_SCREENSHOTS /\
  (forall c,
     has_screenshot (strip_content c) = false /\
     role (strip_content c) = role c /\
     Forall2 (fun p q =>
       (screenshot_part p = false -> q = p) /\
       (screenshot_part p = true ->
        exists fr, function_response p = Some fr /\
          q = mkPart (text p) (function_call p)
                (Some (mkFunctionResponse (fr_name fr) (fr_response fr) None))))
       (parts c) (parts (strip_content c))).
Proof.
  intros Hmany.
  split; [|split; [|split]].
  - unfold prune_screenshots.
    rewrite length_rev, prune_rev_length, length_rev. reflexivity.
  - intros i c H. apply prune_screenshots_nth. exact H.
  - unfold prune_screenshots.
    rewrite count_shots_rev, prune_rev_count, count_shots_rev.
    unfold MAX_RECENT_TURN_WITH_SCREENSHOTS in *. lia.
  - intros c. split; [apply strip_content_no_screenshot|split; [reflexivity|]].
    unfold strip_content. simpl.
    induction (parts c) as [|p ps IH]; simpl; constructor; [|exact IH].
    unfold strip_part. split.
    + intros Hf. rewrite Hf. reflexivity.
    + intros Ht. rewrite Ht. unfold screenshot_part in Ht.
      destruct (function_response p) as [fr|]; [|discriminate].
      exists fr. split; reflexivity.
Qed.

Lemma screenshot_retention_C5_witness :
  (MAX_RECENT_TURN_WITH_SCREENSHOTS < count_shots conv_four_shots)%nat /\
  nth_error (prune_screenshots conv_four_shots) 2 =
    Some (strip_content (shot_turn "a")).
Proof.
  assert (Hmany : (MAX_RECENT_TURN_WITH_SCREENSHOTS < count_shots conv_four_shots)%nat)
    by (apply Nat.ltb_lt; vm_compute; reflexivity).
  split; [exact Hmany|].
  destruct (screenshot_retention_C5 conv_four_shots Hmany) as [_ [Hnth _]].
  rewrite (Hnth 2%nat (shot_turn "a") eq_refl).
  vm_compute. reflexivity.
Defined.

(** Claim C6: the retention pass is idempotent. *)
Theorem screenshot_retention_idempotent_C6 (cs : list Content) :
  prune_screenshots (prune_screenshots cs) = prune_screenshots cs.
Proof.
  unfold prune_screenshots. rewrite rev_involutive, prune_rev_idempotent.
  reflexivity.
Qed.

(* ------------------------------------------------------------------ *)
(** ** The monad and the dispatcher's branches *)

Lemma bind_inv {A B : Type} (m : M A) (k : A -> M B) (s : Agent) (r : B) (s' : Agent) :
  bind m k s = (Ok r, s') -> exists a s1, m s = (Ok a, s1) /\ k a s1 = (Ok r, s').
Proof.
  unfold bind. destruct (m s) as [[a|e] s1]; intros H; [eauto|discriminate].
Qed.

Lemma lift_inv {A : Type} (r : Res A) (s : Agent) (a : A) (s1 : Agent) :
  lift r s = (Ok a, s1) -> r = Ok a /\ s1 = s.
Proof. unfold lift. intros H. inversion H. auto. Qed.

Lemma arg_x_inv scr fc k s a s1 : arg_x scr fc k s = (Ok a, s1) -> s1 = s.
Proof.
  unfold arg_x. intros H. apply bind_inv in H as (v & s2 & H1 & H2).
  apply lift_inv in H1 as [_ ->]. apply lift_inv in H2 as [_ ->]. reflexivity.
Qed.

Lemma arg_y_inv scr fc k s a s1 : arg_y scr fc k s = (Ok a, s1) -> s1 = s.
Proof.
  unfold arg_y. intros H. apply bind_inv in H as (v & s2 & H1 & H2).
  apply lift_inv in H1 as [_ ->]. apply lift_inv in H2 as [_ ->]. reflexivity.
Qed.

Lemma call_backend_inv be c s r s1 :
  call_backend be c s = (Ok r, s1) ->
  r = FREnv (be (backend_log s) c) /\ s1 = set_backend_log (backend_log s ++ [c])%list s.
Proof. unfold call_backend. intros H. inversion H. auto. Qed.

Lemma handle_action_type_text scr env be fc :
  fc_name fc = "type_text_at" ->
  handle_action scr env be fc = type_text_at_branch scr be fc.
Proof. intros H. unfold handle_action. rewrite H. reflexivity. Qed.

Lemma handle_action_login scr env be fc :
  fc_name fc = "perform_secure_login" ->
  handle_action scr env be fc = perform_secure_login_branch env fc.
Proof. intros H. unfold handle_action. rewrite H. reflexivity. Qed.

Lemma handle_action_listing scr env be fc :
  fc_name fc = "get_available_credentials" ->
  handle_action scr env be fc = ret (FRDict (get_available_credentials env)).
Proof. intros H. unfold handle_action. rewrite H. reflexivity. Qed.

(** A successful [type_text_at] dispatch sends one action to the browser,
    with the text after the placeholder rule, and leaves the vault. *)
Lemma type_text_dispatch scr be fc s r s' :
  type_text_at_branch scr be fc s = (Ok r, s') ->
  exists x y txt pe cb,
    arg fc "text" = Ok txt /\
    backend_log s' =
      (backend_log s ++
       [BTypeTextAt x y (substitute_placeholder txt (temp_credentials s)) pe cb])%list /\
    temp_credentials s' = temp_credentials s.
Proof.
  unfold type_text_at_branch. intros H.
  apply bind_inv in H as (x & s1 & Hx & H). apply arg_x_inv in Hx. subst s1.
  apply bind_inv in H as (y & s1 & Hy & H). apply arg_y_inv in Hy. subst s1.
  apply bind_inv in H as (pe & s1 & Hpe & H). apply lift_inv in Hpe as [_ ->].
  apply bind_inv in H as (cb & s1 & Hcb & H). apply lift_inv in Hcb as [_ ->].
  apply bind_inv in H as (txt & s1 & Ht & H). apply lift_inv in Ht as [Ht ->].
  apply bind_inv in H as (creds & s1 & Hc & H).
  unfold gets in Hc. inversion Hc. subst creds s1.
  apply call_backend_inv in H as [_ ->].
  exists x, y, txt, pe, cb. split; [exact Ht|split; reflexivity].
Qed.

Lemma is_str_true (v : Value) (t : string) : is_str v t = true -> v = VStr t.
Proof.
  destruct v; simpl; try discriminate.
  intros H. apply String.eqb_eq in H. subst. reflexivity.
Qed.

Lemma substitute_placeholder_spec (txt : Value) (creds : list (string * Value)) :
  (txt = VStr "{{USERNAME}}" -> forall u, assoc "username" creds = Some u ->
     substitute_placeholder txt creds = u) /\
  (txt = VStr "{{PASSWORD}}" -> forall p, assoc "password" creds = Some p ->
     substitute_placeholder txt creds = p) /\
  ((txt = VStr "{{USERNAME}}" -> assoc "username" creds = None) ->
   (txt = VStr "{{PASSWORD}}" -> assoc "password" creds = None) ->
   substitute_placeholder txt creds = txt).
Proof.
  split; [|split].
  - intros -> u Hu. unfold substitute_placeholder, mem, dict_get.
    rewrite Hu. reflexivity.
  - intros -> p Hp. unfold substitute_placeholder, mem, dict_get.
    rewrite Hp. reflexivity.
  - intros H1 H2. unfold substitute_placeholder.
    destruct (is_str txt "{{USERNAME}}") eqn:E1.
    + pose proof (is_str_true _ _ E1) as Ht. specialize (H1 Ht).
      unfold mem. rewrite H1. subst txt. reflexivity.
    + destruct (is_str txt "{{PASSWORD}}") eqn:E2; [|reflexivity].
      pose proof (is_str_true _ _ E2) as Ht. specialize (H2 Ht).
      unfold mem. rewrite H2. reflexivity.
Qed.

(* ------------------------------------------------------------------ *)
(** ** Placeholder substitution *)

(** Claim C3: a [type_text_at] dispatch forwards the username (password)
    held in the vault when its text argument is the placeholder
    {{USERNAME}} ({{PASSWORD}}) and the vault holds that value, and the
    literal text argument in every other case. *)
Theorem type_text_substitution_C3 scr env be fc s r s' :
  fc_name fc = "type_text_at" ->
  handle_action scr env be fc s = (Ok r, s') ->
  exists x y txt pe cb fwd,
    arg fc "text" = Ok txt /\
    backend_log s' = (backend_log s ++ [BTypeTextAt x y fwd pe cb])%list /\
    (txt = VStr "{{USERNAME}}" ->
       forall u, assoc "username" (temp_credentials s) = Some u -> fwd = u) /\
    (txt = VStr "{{PASSWORD}}" ->
       forall p, assoc "password" (temp_credentials s) = Some p -> fwd = p) /\
    ((txt = VStr "{{USERNAME}}" -> assoc "username" (temp_credentials s) = None) ->
     (txt = VStr "{{PASSWORD}}" -> assoc "password" (temp_credentials s) = None) ->
     fwd = txt).
Proof.
  intros Hn H. rewrite handle_action_type_text in H by exact Hn.
  apply type_text_dispatch in H as (x & y & txt & pe & cb & Ht & Hlog & _).
  exists x, y, txt, pe, cb, (substitute_placeholder txt (temp_credentials s)).
  destruct (substitute_placeholder_spec txt (temp_credentials s)) as [A [B C]].
  repeat split; auto.
Qed.

Lemma type_text_substitution_C3_witness :
  fc_name type_username = "type_text_at" /\
  handle_action PLAYWRIGHT_SCREEN_SIZE [] fixed_backend type_username vault_state =
    (Ok (FREnv (mkEnvState "https://example.com" "PNG")),
     mkAgent [] [("username", VStr "alice"); ("password", VStr "s3cret")]
       [BTypeTextAt 144 180 (VStr "alice") (VBool false) (VBool true)] [] None) /\
  exists x y txt pe cb fwd,
    arg type_username "text" = Ok txt /\
    [BTypeTextAt 144 180 (VStr "alice") (VBool false) (VBool true)] =
      ([] ++ [BTypeTextAt x y fwd pe cb])%list /\
    (txt = VStr "{{USERNAME}}" ->
       forall u, assoc "username" (temp_credentials vault_state) = Some u -> fwd = u) /\
    (txt = VStr "{{PASSWORD}}" ->
       forall p, assoc "password" (temp_credentials vault_state) = Some p -> fwd = p) /\
    ((txt = VStr "{{USERNAME}}" -> assoc "username" (temp_credentials vault_state) = None) ->
     (txt = VStr "{{PASSWORD}}" -> assoc "password" (temp_credentials vault_state) = None) ->
     fwd = txt).
Proof.
  assert (Hrun : handle_action PLAYWRIGHT_SCREEN_SIZE [] fixed_backend type_username vault_state =
    (Ok (FREnv (mkEnvState "https://example.com" "PNG")),
     mkAgent [] [("username", VStr "alice"); ("password", VStr "s3cret")]
       [BTypeTextAt 144 180 (VStr "alice") (VBool false) (VBool true)] [] None))
    by (vm_compute; reflexivity).
  split; [reflexivity|split; [exact Hrun|]].
  exact (type_text_substitution_C3 PLAYWRIGHT_SCREEN_SIZE [] fixed_backend type_username
           vault_state _ _ eq_refl Hrun).
Defined.

(* ------------------------------------------------------------------ *)
(** ** Credential vault frame *)

Lemma frame_ret {X A : Type} (f : Agent -> X) (a : A) : frame f (ret a).
Proof. intros s r s' H. inversion H. reflexivity. Qed.

Lemma frame_raise {X A : Type} (f : Agent -> X) (e : Exn) : frame f (@raise A e).
Proof. intros s r s' H. inversion H. reflexivity. Qed.

Lemma frame_lift {X A : Type} (f : Agent -> X) (x : Res A) : frame f (lift x).
Proof. intros s r s' H. inversion H. reflexivity. Qed.

Lemma frame_gets {X A : Type} (f : Agent -> X) (g : Agent -> A) : frame f (gets g).
Proof. intros s r s' H. inversion H. reflexivity. Qed.

Lemma frame_modify {X : Type} (f : Agent -> X) (g : Agent -> Agent) :
  (forall s, f (g s) = f s) -> frame f (modify g).
Proof. intros Hg s r s' H. inversion H. apply Hg. Qed.

Lemma frame_call_backend {X : Type} (f : Agent -> X) be c :
  (forall l s, f (set_backend_log l s) = f s) -> frame f (call_backend be c).
Proof. intros Hb s r s' H. inversion H. apply Hb. Qed.

Lemma frame_bind {X A B : Type} (f : Agent -> X) (m : M A) (k : A -> M B) :
  frame f m -> (forall a, frame f (k a)) -> frame f (bind m k).
Proof.
  intros Hm Hk s r s' H. unfold bind in H.
  destruct (m s) as [[a|e] s1] eqn:E.
  - rewrite (Hk a s1 r s' H). exact (Hm s _ s1 E).
  - injection H as <- <-. exact (Hm s _ s1 E).
Qed.

Ltac frame_tac :=
  repeat first
    [ apply frame_bind; [|intros]
    | apply frame_ret | apply frame_raise | apply frame_lift | apply frame_gets
    | apply frame_call_backend; first [assumption | intros; reflexivity]
    | apply frame_modify; first [intros; auto | intros; reflexivity]
    | progress unfold arg_x, arg_y, type_text_at_branch, perform_secure_login_branch
    | progress cbv zeta
    | match goal with
      | |- frame _ (if ?b then _ else _) => destruct b
      | |- frame _ (match ?v with _ => _ end) => destruct v
      end ].

(** Only the browser log and the vault are written by a dispatch. *)
Lemma handle_action_frame {X : Type} (f : Agent -> X) scr env be fc :
  (forall l s, f (set_backend_log l s) = f s) ->
  (forall c s, f (set_temp_credentials c s) = f s) ->
  frame f (handle_action scr env be fc).
Proof. intros Hb Hc. unfold handle_action. frame_tac. Qed.

Lemma handle_action_keeps_vault scr env be fc :
  String.eqb (fc_name fc) "perform_secure_login" = false ->
  frame temp_credentials (handle_action scr env be fc).
Proof.
  intros Hn. unfold handle_action. cbv zeta. rewrite Hn. frame_tac.
Qed.

Lemma login_branch_vault env fc s res s' :
  perform_secure_login_branch env fc s = (res, s') ->
  temp_credentials s' =
  match arg fc "site" with
  | Ok (VStr st) =>
      let r := perform_secure_login env st in
      if lr_success r
      then [("username", lr_username r); ("password", lr_password r)]
      else temp_credentials s
  | _ => temp_credentials s
  end.
Proof.
  unfold perform_secure_login_branch, bind, lift. intros H.
  destruct (arg fc "site") as [v|e].
  - destruct v; try (inversion H; reflexivity).
    cbv zeta in *. destruct (lr_success (perform_secure_login env s0));
      inversion H; reflexivity.
  - inversion H. reflexivity.
Qed.

Lemma handle_action_vault scr env be fc s r s' :
  handle_action scr env be fc s = (r, s') ->
  temp_credentials s' =
  match successful_login env fc with Some c => c | None => temp_credentials s end.
Proof.
  intros H. unfold successful_login.
  destruct (String.eqb (fc_name fc) "perform_secure_login") eqn:E.
  - apply String.eqb_eq in E.
    rewrite handle_action_login in H by exact E.
    apply login_branch_vault in H. rewrite H.
    destruct (arg fc "site") as [[]|]; try reflexivity.
    cbv zeta. destruct (lr_success (perform_secure_login env s0)); reflexivity.
  - exact (handle_action_keeps_vault scr env be fc E s r s' H).
Qed.

Lemma handle_actions_vault scr env be fcs s s' :
  handle_actions scr env be fcs s = (Ok tt, s') ->
  temp_credentials s' = vault_after env fcs (temp_credentials s).
Proof.
  revert s. induction fcs as [|fc rest IH]; intros s H.
  - inversion H. reflexivity.
  - simpl in H. apply bind_inv in H as (a & s1 & H1 & H2).
    unfold vault_after. simpl. fold (vault_after env rest).
    rewrite (IH s1 H2). rewrite (handle_action_vault _ _ _ _ _ _ _ H1).
    reflexivity.
Qed.

Lemma vault_after_app env pre post v :
  vault_after env (pre ++ post) v = vault_after env post (vault_after env pre v).
Proof. unfold vault_after. apply fold_left_app. Qed.

Lemma vault_after_no_login env post v :
  Forall (fun g => successful_login env g = None) post ->
  vault_after env post v = v.
Proof.
  intros H. revert v. induction H as [|g post Hg _ IH]; intros v; [reflexivity|].
  unfold vault_after. simpl. rewrite Hg. apply IH.
Qed.

(** Claim C10: only a successful credential retrieval changes the vault,
    and it overwrites it; a failed retrieval leaves the stored pair in
    place; a [type_text_at] dispatch reads the vault without changing it.
    Hence after a sequence of dispatches the vault holds the pair of the
    last successful retrieval (whatever failed retrievals follow it), and
    a later [type_text_at] substitutes the placeholders from that pair. *)
Theorem credential_vault_frame_C10 scr env be :
  (forall fc s r s',
     handle_action scr env be fc s = (r, s') ->
     temp_credentials s' =
     match successful_login env fc with Some c => c | None => temp_credentials s end) /\
  (forall fcs s s',
     handle_actions scr env be fcs s = (Ok tt, s') ->
     temp_credentials s' = vault_after env fcs (temp_credentials s)) /\
  (forall pre fc post v c,
     successful_login env fc = Some c ->
     Forall (fun g => successful_login env g = None) post ->
     vault_after env (pre ++ fc :: post)%list v = c) /\
  (forall fcs fc s s' r s'',
     handle_actions scr env be fcs s = (Ok tt, s') ->
     fc_name fc = "type_text_at" ->
     handle_action scr env be fc s' = (Ok r, s'') ->
     exists x y txt pe cb,
       arg fc "text" = Ok txt /\
       backend_log s'' =
         (backend_log s' ++
          [BTypeTextAt x y
             (substitute_placeholder txt (vault_after env fcs (temp_credentials s)))
             pe cb])%list /\
       temp_credentials s'' = temp_credentials s').
Proof.
  split; [|split; [|split]].
  - exact (handle_action_vault scr env be).
  - exact (handle_actions_vault scr env be).
  - intros pre fc post v c Hfc Hpost.
    rewrite vault_after_app. unfold vault_after at 1. simpl. rewrite Hfc.
    apply vault_after_no_login. exact Hpost.
  - intros fcs fc s s' r s'' Hs Hn H.
    rewrite handle_action_type_text in H by exact Hn.
    apply type_text_dispatch in H as (x & y & txt & pe & cb & Ht & Hlog & Hv).
    rewrite <- (handle_actions_vault _ _ _ _ _ _ Hs).
    exists x, y, txt, pe, cb. auto.
Qed.

Lemma credential_vault_frame_C10_witness :
  handle_actions PLAYWRIGHT_SCREEN_SIZE env_github fixed_backend
    [login_to "github"; login_to "gitlab"] empty_agent = (Ok tt, vault_state) /\
  handle_action PLAYWRIGHT_SCREEN_SIZE env_github fixed_backend type_username vault_state =
    (Ok (FREnv (mkEnvState "https://example.com" "PNG")),
     mkAgent [] [("username", VStr "alice"); ("password", VStr "s3cret")]
       [BTypeTextAt 144 180 (VStr "alice") (VBool false) (VBool true)] [] None) /\
  exists x y txt pe cb,
    arg type_username "text" = Ok txt /\
    [BTypeTextAt 144 180 (VStr "alice") (VBool false) (VBool true)] =
      ([] ++
       [BTypeTextAt x y
          (substitute_placeholder txt
             (vault_after env_github [login_to "github"; login_to "gitlab"] []))
          pe cb])%list /\
    temp_credentials vault_state = temp_credentials vault_state.
Proof.
  assert (H1 : handle_actions PLAYWRIGHT_SCREEN_SIZE env_github fixed_backend
    [login_to "github"; login_to "gitlab"] empty_agent = (Ok tt, vault_state))
    by (vm_compute; reflexivity).
  assert (H2 : handle_action PLAYWRIGHT_SCREEN_SIZE env_github fixed_backend type_username
    vault_state =
    (Ok (FREnv (mkEnvState "https://example.com" "PNG")),
     mkAgent [] [("username", VStr "alice"); ("password", VStr "s3cret")]
       [BTypeTextAt 144 180 (VStr "alice") (VBool false) (VBool true)] [] None))
    by (vm_compute; reflexivity).
  split; [exact H1|split; [exact H2|]].
  destruct (credential_vault_frame_C10 PLAYWRIGHT_SCREEN_SIZE env_github fixed_backend)
    as [_ [_ [_ H]]].
  exact (H _ type_username empty_agent vault_state _ _ H1 eq_refl H2).
Defined.

(* ------------------------------------------------------------------ *)
(** ** Credential results and the secrets *)

Lemma same_shape_names e1 e2 : same_shape e1 e2 -> map fst e1 = map fst e2.
Proof.
  induction 1 as [|a b l1 l2 [Hab _] _ IH]; simpl; [reflexivity|].
  rewrite Hab, IH. reflexivity.
Qed.

Lemma same_shape_mem e1 e2 k : same_shape e1 e2 -> mem k e1 = mem k e2.
Proof.
  unfold mem. induction 1 as [|[a1 v1] [a2 v2] l1 l2 [Hab _] _ IH];
    simpl in *; [reflexivity|].
  subst a2. destruct (String.eqb k a1); [reflexivity|exact IH].
Qed.

Lemma same_shape_truthy e1 e2 k :
  same_shape e1 e2 -> truthy (environ_get e1 k) = truthy (environ_get e2 k).
Proof.
  unfold environ_get. induction 1 as [|[a1 v1] [a2 v2] l1 l2 [Hab Hv] _ IH];
    simpl in *; [reflexivity|].
  subst a2. destruct (String.eqb k a1); [|exact IH].
  simpl. destruct (String.eqb v1 "") eqn:E1, (String.eqb v2 "") eqn:E2;
    try reflexivity.
  - apply String.eqb_eq in E1. apply Hv in E1. subst v2. discriminate.
  - apply String.eqb_eq in E2. apply Hv in E2. subst v1. discriminate.
Qed.

(** The conversation-visible fields of a retrieval do not depend on the
    values of the variables, only on their names and emptiness. *)
Lemma perform_secure_login_shape e1 e2 site :
  same_shape e1 e2 ->
  lr_success (perform_secure_login e1 site) = lr_success (perform_secure_login e2 site) /\
  lr_message (perform_secure_login e1 site) = lr_message (perform_secure_login e2 site).
Proof.
  intros H. unfold perform_secure_login. cbv zeta.
  rewrite (same_shape_mem e1 e2 _ H).
  rewrite (same_shape_truthy e1 e2 _ H).
  rewrite (same_shape_truthy e1 e2 (PyStr.upper site ++ "_PASSWORD") H).
  destruct (_ && _)%bool; split; reflexivity.
Qed.

Lemma get_available_credentials_shape e1 e2 :
  same_shape e1 e2 -> get_available_credentials e1 = get_available_credentials e2.
Proof.
  intros H. unfold get_available_credentials. rewrite (same_shape_names e1 e2 H).
  reflexivity.
Qed.

Lemma scan_sites_names env_vars vars st :
  In st (scan_sites env_vars vars) ->
  exists var, In var vars /\ st = PyStr.lower (site_of_var var).
Proof.
  induction vars as [|var rest IH]; simpl; [contradiction|].
  destruct (_ || _)%bool; [|intros Hin; destruct (IH Hin) as (v & ? & ?); eauto].
  cbv zeta. destruct (existsb _ _).
  - intros [<-|Hin]; [eauto|destruct (IH Hin) as (v & ? & ?); eauto].
  - intros Hin; destruct (IH Hin) as (v & ? & ?); eauto.
Qed.

Lemma login_result_keys scr env be fc s r s' :
  fc_name fc = "perform_secure_login" ->
  handle_action scr env be fc s = (Ok r, s') ->
  exists d, r = FRDict d /\
    ((map fst d = ["success"; "message"; "instruction"] /\
      assoc "success" d = Some (VBool true)) \/
     (map fst d = ["success"; "message"] /\
      assoc "success" d = Some (VBool false))).
Proof.
  intros Hn H. rewrite handle_action_login in H by exact Hn.
  unfold perform_secure_login_branch, bind, lift in H.
  destruct (arg fc "site") as [[]|]; try discriminate.
  cbv zeta in H. destruct (lr_success (perform_secure_login env s0)) eqn:E;
    inversion H; subst; eexists; (split; [reflexivity|]); simpl; auto.
Qed.

Lemma listing_result_keys scr env be fc s r s' :
  fc_name fc = "get_available_credentials" ->
  handle_action scr env be fc s = (Ok r, s') ->
  exists d sites, r = FRDict d /\
    map fst d = ["available_sites"; "message"] /\
    assoc "available_sites" d = Some (VList (map VStr sites)) /\
    (forall st, In st sites ->
       exists var, In var (map fst env) /\ st = PyStr.lower (site_of_var var)).
Proof.
  intros Hn H. rewrite handle_action_listing in H by exact Hn.
  inversion H; subst.
  exists (get_available_credentials env), (scan_sites (map fst env) (map fst env)).
  split; [reflexivity|split; [reflexivity|split; [reflexivity|]]].
  intros st Hin. exact (scan_sites_names _ _ _ Hin).
Qed.

(** Claim C2: a credential retrieval answers with exactly the keys
    success, message (and instruction on success); the credential listing
    answers with the keys available_sites and message, the sites being
    derived from variable names. Neither answer reveals a secret: for two
    environments that differ only in the secret values (same names, same
    emptiness), both dispatches return the same result, exception or
    value, to the conversation. *)
Theorem credential_results_hide_secrets_C2 scr e1 e2 be fc s :
  same_shape e1 e2 ->
  ((fc_name fc = "perform_secure_login" \/ fc_name fc = "get_available_credentials") ->
   fst (handle_action scr e1 be fc s) = fst (handle_action scr e2 be fc s)) /\
  (forall r s', fc_name fc = "perform_secure_login" ->
   handle_action scr e1 be fc s = (Ok r, s') ->
   exists d, r = FRDict d /\
     ((map fst d = ["success"; "message"; "instruction"] /\
       assoc "success" d = Some (VBool true)) \/
      (map fst d = ["success"; "message"] /\
       assoc "success" d = Some (VBool false)))) /\
  (forall r s', fc_name fc = "get_available_credentials" ->
   handle_action scr e1 be fc s = (Ok r, s') ->
   exists d sites, r = FRDict d /\
     map fst d = ["available_sites"; "message"] /\
     assoc "available_sites" d = Some (VList (map VStr sites)) /\
     (forall st, In st sites ->
        exists var, In var (map fst e1) /\ st = PyStr.lower (site_of_var var))).
Proof.
  intros Hsh. split; [|split].
  - intros [Hn|Hn].
    + rewrite !handle_action_login by exact Hn.
      unfold perform_secure_login_branch, bind, lift.
      destruct (arg fc "site") as [[]|]; try reflexivity.
      destruct (perform_secure_login_shape e1 e2 s0 Hsh) as [Hs Hm].
      cbv zeta. rewrite Hs, Hm.
      destruct (lr_success (perform_secure_login e2 s0)); reflexivity.
    + rewrite !handle_action_listing by exact Hn.
      rewrite (get_available_credentials_shape e1 e2 Hsh). reflexivity.
  - intros r s'. apply login_result_keys.
  - intros r s'. apply listing_result_keys.
Qed.

Lemma credential_results_hide_secrets_C2_witness :
  same_shape env_github [("GITHUB_USERNAME", "bob"); ("GITHUB_PASSWORD", "hunter2")] /\
  fst (handle_action PLAYWRIGHT_SCREEN_SIZE env_github fixed_backend
         (login_to "github") empty_agent) =
  fst (handle_action PLAYWRIGHT_SCREEN_SIZE
         [("GITHUB_USERNAME", "bob"); ("GITHUB_PASSWORD", "hunter2")] fixed_backend
         (login_to "github") empty_agent).
Proof.
  assert (Hsh : same_shape env_github
                  [("GITHUB_USERNAME", "bob"); ("GITHUB_PASSWORD", "hunter2")]).
  { unfold same_shape, env_github. repeat constructor; intros H; discriminate. }
  split; [exact Hsh|].
  apply (proj1 (credential_results_hide_secrets_C2 PLAYWRIGHT_SCREEN_SIZE _ _
                  fixed_backend (login_to "github") empty_agent Hsh)).
  left. reflexivity.
Defined.

(* ------------------------------------------------------------------ *)
(** ** The dispatch loop under a denied safety gate *)

Lemma dict_get_found (d : dict) (k : string) (v : Value) :
  dict_get d k VNone = v -> v <> VNone -> truthy (VDict d) = true.
Proof. destruct d; simpl; [intros <- H; contradiction H; reflexivity|reflexivity]. Qed.

Lemma safety_step_unflagged trust fc s :
  flagged fc = false -> safety_step trust fc s = (Ok (Some []), s).
Proof.
  unfold flagged, safety_step. destruct (fc_args fc) as [args|]; [|reflexivity].
  cbv zeta. intros H. rewrite H. reflexivity.
Qed.

Lemma safety_step_denied fc s :
  human_denies fc (stdin s) = true ->
  safety_step false fc s = (Ok None, set_stdin (snd (prompt_until_accepted (stdin s))) s).
Proof.
  unfold human_denies, safety_step. destruct (fc_args fc) as [args|]; [|discriminate].
  destruct (dict_get args "safety_decision" VNone) eqn:Eg; try discriminate.
  intros H. apply andb_prop in H as [H Hd]. apply andb_prop in H as [Hdec Hexp].
  cbv zeta.
  rewrite (dict_get_found args _ _ Eg) by discriminate.
  unfold dict_get in Hdec. destruct (assoc "decision" d) as [v|] eqn:Ed;
    [|discriminate].
  apply is_str_true in Hdec. subst v.
  rewrite (dict_get_found d "decision" (VStr "require_confirmation")) by
    (try (unfold dict_get; rewrite Ed; reflexivity); discriminate).
  unfold get_safety_confirmation, value_getitem, getitem, bind, lift.
  rewrite Ed. cbn [negb is_str]. rewrite String.eqb_refl. cbn [negb andb].
  unfold mem in Hexp. destruct (assoc "explanation" d); [|discriminate].
  unfold read_decision.
  destruct (prompt_until_accepted (stdin s)) as [[a|e] rest]; [|discriminate].
  cbn [snd]. rewrite Hd. reflexivity.
Qed.

Lemma handle_action_stdin scr env be fc :
  frame stdin (handle_action scr env be fc).
Proof. apply handle_action_frame; reflexivity. Qed.

Lemma handle_action_contents scr env be fc :
  frame contents (handle_action scr env be fc).
Proof. apply handle_action_frame; reflexivity. Qed.

Lemma dispatch_denied_first scr env be fa rest acc s :
  human_denies fa (stdin s) = true ->
  dispatch_calls false scr env be (fa :: rest) acc s =
    (Ok None, set_stdin (snd (prompt_until_accepted (stdin s))) s).
Proof.
  intros H. cbn [dispatch_calls]. unfold bind at 1.
  rewrite (safety_step_denied fa s H). reflexivity.
Qed.

Lemma dispatch_denied_second scr env be fa fb acc s r s1 :
  flagged fa = false ->
  handle_action scr env be fa s = (Ok r, s1) ->
  human_denies fb (stdin s) = true ->
  dispatch_calls false scr env be [fa; fb] acc s =
    (Ok None, set_stdin (snd (prompt_until_accepted (stdin s))) s1).
Proof.
  intros Hf Hh Hd. cbn [dispatch_calls]. unfold bind at 1.
  rewrite (safety_step_unflagged false fa s Hf).
  unfold bind at 1. rewrite Hh.
  rewrite <- (handle_action_stdin scr env be fa s _ s1 Hh) in Hd |- *.
  unfold bind at 1. rewrite (safety_step_denied fb s1 Hd). reflexivity.
Qed.

Lemma run_dispatch_none trust scr env be transport s response cand cs c fcs s2 :
  snd (get_model_response transport 5 1) = Returned response ->
  candidates response = cand :: cs ->
  cand_content cand = Some c ->
  extract_function_calls cand = fcs -> fcs <> [] ->
  dispatch_calls trust scr env be fcs [] (set_contents (contents s ++ [c])%list s) =
    (Ok None, s2) ->
  run_one_iteration trust scr env be transport s = (Ok COMPLETE, s2).
Proof.
  intros Hr Hc Hcc Hx Hne Hd. unfold run_one_iteration.
  rewrite Hr, Hc, Hcc. cbv zeta. rewrite Hx.
  destruct fcs as [|fc rest]; [contradiction Hne; reflexivity|].
  unfold bind at 1, append_content, modify.
  unfold bind at 1. rewrite Hd. reflexivity.
Qed.

(** Claim C1, as stated, fails: when the unflagged request comes first, it
    is dispatched (here a click reaches the browser) before the gate of the
    second request is consulted and denied. *)
Lemma denied_gate_dispatches_first_C1 :
  flagged click_point = false /\ flagged flagged_type = true /\
  human_denies flagged_type (stdin denying_agent) = true /\
  run_one_iteration false PLAYWRIGHT_SCREEN_SIZE [] fixed_backend
    (respond_with (calls_turn [click_point; flagged_type])) denying_agent =
    (Ok COMPLETE,
     mkAgent [calls_turn [click_point; flagged_type]] [] [BClickAt 251 450] [] None).
Proof.
  split; [reflexivity|split; [reflexivity|split; [reflexivity|]]].
  vm_compute. reflexivity.
Qed.

(** Claim C1 (amended): for a model turn with two requests [fa], [fb] and
    trust mode off, when the human denies the flagged one the iteration
    returns COMPLETE and appends no user turn (only the model turn). When
    the flagged request comes first, no backend call is made; when the
    unflagged request comes first, it is dispatched before the gate (the
    state after that dispatch is the final one, up to the consumed input),
    and only the flagged request is skipped. *)
Theorem denied_gate_two_calls_C1 scr env be transport s response cand cs c fa fb :
  snd (get_model_response transport 5 1) = Returned response ->
  candidates response = cand :: cs ->
  cand_content cand = Some c ->
  extract_function_calls cand = [fa; fb] ->
  (human_denies fa (stdin s) = true ->
   exists s', run_one_iteration false scr env be transport s = (Ok COMPLETE, s') /\
     backend_log s' = backend_log s /\ contents s' = (contents s ++ [c])%list) /\
  (forall r s1, flagged fa = false -> human_denies fb (stdin s) = true ->
   handle_action scr env be fa (set_contents (contents s ++ [c])%list s) = (Ok r, s1) ->
   exists s', run_one_iteration false scr env be transport s = (Ok COMPLETE, s') /\
     backend_log s' = backend_log s1 /\ contents s' = (contents s ++ [c])%list).
Proof.
  intros Hr Hc Hcc Hx. split.
  - intros Hd. eexists. split.
    + eapply run_dispatch_none; [exact Hr|exact Hc|exact Hcc|exact Hx|discriminate|].
      apply dispatch_denied_first. exact Hd.
    + split; reflexivity.
  - intros r s1 Hf Hd Hh. eexists. split.
    + eapply run_dispatch_none; [exact Hr|exact Hc|exact Hcc|exact Hx|discriminate|].
      apply (dispatch_denied_second _ _ _ _ _ _ _ _ _ Hf Hh). exact Hd.
    + split; [reflexivity|].
      cbn [contents set_stdin].
      exact (handle_action_contents scr env be fa _ _ _ Hh).
Qed.

Lemma denied_gate_two_calls_C1_witness :
  exists s', run_one_iteration false PLAYWRIGHT_SCREEN_SIZE [] fixed_backend
               (respond_with (calls_turn [click_point; flagged_type])) denying_agent =
             (Ok COMPLETE, s') /\
    backend_log s' = [BClickAt 251 450] /\
    contents s' = ([] ++ [calls_turn [click_point; flagged_type]])%list.
Proof.
  assert (Hh : handle_action PLAYWRIGHT_SCREEN_SIZE [] fixed_backend click_point
                 (set_contents ([] ++ [calls_turn [click_point; flagged_type]])%list
                    denying_agent) =
               (Ok (FREnv (mkEnvState "https://example.com" "PNG")),
                mkAgent [calls_turn [click_point; flagged_type]] [] [BClickAt 251 450]
                  ["maybe"; "No"] None))
    by (vm_compute; reflexivity).
  destruct (denied_gate_two_calls_C1 PLAYWRIGHT_SCREEN_SIZE [] fixed_backend
              (respond_with (calls_turn [click_point; flagged_type])) denying_agent
              (mkResponse [mkCandidate (Some (calls_turn [click_point; flagged_type])) STOP])
              (mkCandidate (Some (calls_turn [click_point; flagged_type])) STOP) []
              (calls_turn [click_point; flagged_type]) click_point flagged_type
              eq_refl eq_refl eq_refl eq_refl) as [_ H2].
  exact (H2 _ _ eq_refl eq_refl Hh).
Defined.

(* ------------------------------------------------------------------ *)
(** ** The safety acknowledgement of custom tools *)

(** Claim C4 fails on the code: a custom tool's mapping result is sent
    back as is, so the acknowledgement fields of a flagged call resolved
    CONTINUE are dropped, while a built-in action's response carries them. *)
Lemma safety_ack_dropped_C4 :
  (forall fc extra d, fr_response (to_function_response fc extra (FRDict d)) = d) /\
  flagged flagged_multiply = true /\
  run_one_iteration true PLAYWRIGHT_SCREEN_SIZE [] fixed_backend
    (respond_with (calls_turn [flagged_multiply])) empty_agent =
    (Ok CONTINUE,
     mkAgent [calls_turn [flagged_multiply];
              mkContent "user"
                [response_part (mkFunctionResponse "multiply_numbers"
                                  [("result", VInt 6)] None)]] [] [] [] None) /\
  run_one_iteration true PLAYWRIGHT_SCREEN_SIZE [] fixed_backend
    (respond_with (calls_turn [flagged_type])) empty_agent =
    (Ok CONTINUE,
     mkAgent [calls_turn [flagged_type];
              mkContent "user"
                [response_part (mkFunctionResponse "type_text_at"
                                  [("url", VStr "https://example.com");
                                   ("safety_acknowledgement", VStr "true")]
                                  (Some [mkBlob "image/png" "PNG"]))]] []
       [BTypeTextAt 144 180 (VStr "yes") (VBool false) (VBool true)] [] None).
Proof.
  split; [intros; reflexivity|split; [reflexivity|split]];
    vm_compute; reflexivity.
Qed.

(* ================================================================== *)
(** * Further properties of the agent *)

(* ------------------------------------------------------------------ *)
(** ** [get_text] *)

Lemma join_nonempty (sep w : string) (ws : list string) :
  w <> "" -> PyStr.join sep (w :: ws) <> "".
Proof.
  intros Hw. destruct ws as [|w' ws]; [exact Hw|].
  cbn [PyStr.join]. destruct w; [contradiction Hw; reflexivity|discriminate].
Qed.

Lemma get_text_some (cand : Candidate) (t : string) :
  get_text cand = Some t -> t <> "".
Proof.
  unfold get_text. destruct (cand_content cand) as [c|]; [|discriminate].
  destruct (parts c); [discriminate|]. cbv zeta.
  destruct (String.eqb _ "") eqn:E; [discriminate|].
  intros H. injection H as <-. apply String.eqb_neq. exact E.
Qed.

(** [get_text] is [None] exactly when no part carries a non-empty text
    (in particular when the candidate has no content or no parts); any
    text it returns is non-empty. *)
Theorem get_text_none_iff (cand : Candidate) :
  (get_text cand = None <->
   forall c p, cand_content cand = Some c -> In p (parts c) ->
               text p = None \/ text p = Some "") /\
  (forall t, get_text cand = Some t -> t <> "").
Proof.
  split; [|apply get_text_some].
  unfold get_text. destruct (cand_content cand) as [c|];
    [|split; [intros _ c p H; discriminate|reflexivity]].
  destruct (parts c) as [|p0 ps] eqn:Ep.
  - split; [intros _ c' p H Hin; injection H as <-; rewrite Ep in Hin; contradiction|
            reflexivity].
  - cbv zeta.
    set (f := fun p : Part => match text p with
                              | Some t => if String.eqb t "" then [] else [t]
                              | None => [] end).
    assert (Hne : forall t, In t (flat_map f (p0 :: ps)) -> t <> "").
    { intros t Ht. apply in_flat_map in Ht as (p & _ & Hp). unfold f in Hp.
      destruct (text p) as [u|]; [|contradiction].
      destruct (String.eqb u "") eqn:Eu; [contradiction|].
      destruct Hp as [<-|[]]. intros ->. discriminate. }
    split.
    + intros H c' p Hc Hin. injection Hc as <-. rewrite Ep in Hin.
      destruct (flat_map f (p0 :: ps)) as [|w ws] eqn:Ef.
      * destruct (text p) as [u|] eqn:Eu; [|left; reflexivity].
        right. destruct (String.eqb u "") eqn:E0.
        -- apply String.eqb_eq in E0. subst. reflexivity.
        -- exfalso. assert (In u (flat_map f (p0 :: ps))).
           { apply in_flat_map. exists p. split; [exact Hin|].
             unfold f. rewrite Eu, E0. left. reflexivity. }
           rewrite Ef in H0. contradiction.
      * destruct (String.eqb (PyStr.join " " (w :: ws)) "") eqn:Ej; [|discriminate].
        apply String.eqb_eq in Ej. exfalso.
        refine (join_nonempty " " w ws _ Ej). apply Hne. left. reflexivity.
    + intros H.
      assert (Hf : flat_map f (p0 :: ps) = []).
      { destruct (flat_map f (p0 :: ps)) as [|w ws] eqn:Ef; [reflexivity|].
        assert (Hw : In w (flat_map f (p0 :: ps))) by (rewrite Ef; left; reflexivity).
        apply in_flat_map in Hw as (p & Hin & Hp). unfold f in Hp.
        destruct (H c p eq_refl ltac:(rewrite Ep; exact Hin)) as [E|E];
          rewrite E in Hp; [contradiction|].
        cbn in Hp. contradiction. }
      rewrite Hf. reflexivity.
Qed.

(* ------------------------------------------------------------------ *)
(** ** [run_one_iteration]: error paths and turns without actions *)

(** When the model service fails at every attempt, the iteration returns
    COMPLETE and leaves the agent as it was (no turn appended); when the
    service answers with no candidate, it raises [ValueError], again with
    the agent unchanged. *)
Theorem run_one_iteration_errors trust scr env be transport s :
  (forall errs : nat -> Exn, (forall k, transport k = TErr (errs k)) ->
   run_one_iteration trust scr env be transport s = (Ok COMPLETE, s)) /\
  (forall response, snd (get_model_response transport 5 1) = Returned response ->
   candidates response = [] ->
   run_one_iteration trust scr env be transport s =
     (Exc (ValueError "Empty response"), s)).
Proof.
  split.
  - intros errs Hf. unfold run_one_iteration, get_model_response.
    rewrite (retry_from_exhausts transport 5 1 errs 4 0 Hf eq_refl). reflexivity.
  - intros response Hr Hc. unfold run_one_iteration. rewrite Hr, Hc. reflexivity.
Qed.

(** A model turn without function calls touches neither the browser, the
    vault nor the input: it is appended to the conversation (when it has
    content), the iteration returns CONTINUE exactly when the turn has no
    text and was cut off as a malformed function call, and otherwise
    returns COMPLETE with the turn's text as the final reasoning. *)
Theorem run_one_iteration_no_calls trust scr env be transport s response cand cs st s' :
  snd (get_model_response transport 5 1) = Returned response ->
  candidates response = cand :: cs ->
  extract_function_calls cand = [] ->
  run_one_iteration trust scr env be transport s = (Ok st, s') ->
  backend_log s' = backend_log s /\ temp_credentials s' = temp_credentials s /\
  stdin s' = stdin s /\
  contents s' =
    (contents s ++ match cand_content cand with Some c => [c] | None => [] end)%list /\
  (st = CONTINUE <-> get_text cand = None /\ is_malformed (finish_reason cand) = true) /\
  (st = COMPLETE -> final_reasoning s' = get_text cand) /\
  (st = CONTINUE -> final_reasoning s' = final_reasoning s).
Proof.
  intros Hr Hc Hx H. unfold run_one_iteration in H. rewrite Hr, Hc in H.
  cbv zeta in H. rewrite Hx in H.
  destruct (cand_content cand) as [c|]; destruct (get_text cand) as [t|];
    try destruct (is_malformed (finish_reason cand));
    unfold bind, append_content, modify, ret in H; inversion H; subst; cbn;
    rewrite ?app_nil_r; intuition congruence.
Qed.

Lemma run_one_iteration_no_calls_witness :
  exists st s',
    run_one_iteration false PLAYWRIGHT_SCREEN_SIZE [] fixed_backend
      (respond_with (mkContent "model" [text_part "done"])) empty_agent = (Ok st, s') /\
    backend_log s' = backend_log empty_agent /\
    temp_credentials s' = temp_credentials empty_agent /\
    stdin s' = stdin empty_agent /\
    contents s' = (contents empty_agent ++ [mkContent "model" [text_part "done"]])%list /\
    (st = CONTINUE <->
       get_text (mkCandidate (Some (mkContent "model" [text_part "done"])) STOP) = None /\
       is_malformed STOP = true) /\
    (st = COMPLETE -> final_reasoning s' =
       get_text (mkCandidate (Some (mkContent "model" [text_part "done"])) STOP)) /\
    (st = CONTINUE -> final_reasoning s' = final_reasoning empty_agent).
Proof.
  assert (H : run_one_iteration false PLAYWRIGHT_SCREEN_SIZE [] fixed_backend
                (respond_with (mkContent "model" [text_part "done"])) empty_agent =
              (Ok COMPLETE, mkAgent [mkContent "model" [text_part "done"]] [] [] []
                              (Some "done")))
    by (vm_compute; reflexivity).
  exists COMPLETE, (mkAgent [mkContent "model" [text_part "done"]] [] [] [] (Some "done")).
  split; [exact H|].
  exact (run_one_iteration_no_calls false PLAYWRIGHT_SCREEN_SIZE [] fixed_backend
           (respond_with (mkContent "model" [text_part "done"])) empty_agent
           (mkResponse [mkCandidate (Some (mkContent "model" [text_part "done"])) STOP])
           (mkCandidate (Some (mkContent "model" [text_part "done"])) STOP) []
           COMPLETE _ eq_refl eq_refl eq_refl H).
Defined.

(* ------------------------------------------------------------------ *)
(** ** [run_one_iteration]: a dispatched turn *)

Lemma frame_read_decision {X : Type} (f : Agent -> X) :
  (forall i s, f (set_stdin i s) = f s) -> frame f read_decision.
Proof.
  intros Hi s r s' H. unfold read_decision in H.
  destruct (prompt_until_accepted (stdin s)). inversion H. apply Hi.
Qed.

Lemma safety_step_frame {X : Type} (f : Agent -> X) trust fc :
  (forall i s, f (set_stdin i s) = f s) -> frame f (safety_step trust fc).
Proof.
  intros Hi. unfold safety_step, get_safety_confirmation.
  destruct (fc_args fc); [|apply frame_ret]. cbv zeta.
  destruct (_ && _)%bool; [|apply frame_ret].
  repeat first
    [ apply frame_bind; [|intros]
    | apply frame_ret | apply frame_raise | apply frame_lift
    | apply frame_read_decision; exact Hi
    | match goal with
      | |- frame _ (if ?b then _ else _) => destruct b
      | |- frame _ (match ?v with _ => _ end) => destruct v
      end ].
Qed.

Lemma dispatch_calls_frame {X : Type} (f : Agent -> X) trust scr env be fcs :
  (forall l s, f (set_backend_log l s) = f s) ->
  (forall c s, f (set_temp_credentials c s) = f s) ->
  (forall i s, f (set_stdin i s) = f s) ->
  forall acc, frame f (dispatch_calls trust scr env be fcs acc).
Proof.
  intros Hb Hc Hi. induction fcs as [|fc rest IH]; intros acc; cbn [dispatch_calls].
  - apply frame_ret.
  - apply frame_bind; [apply safety_step_frame; exact Hi|].
    intros [extra|]; [|apply frame_ret].
    apply frame_bind; [apply handle_action_frame; assumption|]. intros r. apply IH.
Qed.

Lemma dispatch_calls_names trust scr env be fcs :
  forall acc s frs s',
  dispatch_calls trust scr env be fcs acc s = (Ok (Some frs), s') ->
  exists frs', frs = (acc ++ frs')%list /\ map fr_name frs' = map fc_name fcs.
Proof.
  induction fcs as [|fc rest IH]; intros acc s frs s' H; cbn [dispatch_calls] in H.
  - inversion H. exists []. rewrite app_nil_r. split; reflexivity.
  - apply bind_inv in H as ([extra|] & s1 & H1 & H2); [|discriminate].
    apply bind_inv in H2 as (r & s2 & H2 & H3).
    apply IH in H3 as (frs' & -> & Hn).
    exists (to_function_response fc extra r :: frs'). split.
    + rewrite <- app_assoc. reflexivity.
    + cbn [map]. rewrite Hn. f_equal. destruct r; reflexivity.
Qed.

Lemma count_shots_pruned (cs : list Content) :
  (count_shots (prune_screenshots cs) <= MAX_RECENT_TURN_WITH_SCREENSHOTS)%nat.
Proof.
  unfold prune_screenshots. rewrite count_shots_rev, prune_rev_count.
  unfold MAX_RECENT_TURN_WITH_SCREENSHOTS. lia.
Qed.

(** An iteration that dispatches every function call of the model turn
    appends the model turn and one user turn holding one response per
    call, in the calls' order and under their names, then prunes the
    screenshots: afterwards at most three turns carry one. The final
    reasoning is left as it was. *)
Theorem run_one_iteration_dispatch trust scr env be transport s response cand cs c fcs s' :
  snd (get_model_response transport 5 1) = Returned response ->
  candidates response = cand :: cs ->
  cand_content cand = Some c ->
  extract_function_calls cand = fcs -> fcs <> [] ->
  run_one_iteration trust scr env be transport s = (Ok CONTINUE, s') ->
  exists frs,
    map fr_name frs = map fc_name fcs /\
    contents s' =
      prune_screenshots (contents s ++ [c; mkContent "user" (map response_part frs)])%list /\
    (count_shots (contents s') <= MAX_RECENT_TURN_WITH_SCREENSHOTS)%nat /\
    final_reasoning s' = final_reasoning s.
Proof.
  intros Hr Hc Hcc Hx Hne H. unfold run_one_iteration in H.
  rewrite Hr, Hc, Hcc in H. cbv zeta in H. rewrite Hx in H.
  destruct fcs as [|fc rest]; [contradiction Hne; reflexivity|].
  unfold bind at 1, append_content, modify in H.
  unfold bind at 1 in H.
  destruct (dispatch_calls trust scr env be (fc :: rest) []
              (set_contents (contents s ++ [c])%list s)) as [[[frs|]|e] s2] eqn:Ed;
    try discriminate.
  pose proof (dispatch_calls_frame contents trust scr env be (fc :: rest)
                (fun _ _ => eq_refl) (fun _ _ => eq_refl) (fun _ _ => eq_refl) [] _ _ _ Ed)
    as Hcs.
  pose proof (dispatch_calls_frame final_reasoning trust scr env be (fc :: rest)
                (fun _ _ => eq_refl) (fun _ _ => eq_refl) (fun _ _ => eq_refl) [] _ _ _ Ed)
    as Hfr.
  apply dispatch_calls_names in Ed as (frs' & Hfrs & Hn). cbn in Hfrs. subst frs.
  cbn in H. inversion H. subst s'. clear H.
  exists frs'. cbn [contents final_reasoning set_contents] in *.
  split; [exact Hn|].
  rewrite Hcs. cbn [contents set_contents]. rewrite <- app_assoc.
  split; [reflexivity|]. split; [apply count_shots_pruned|exact Hfr].
Qed.

Lemma run_one_iteration_dispatch_witness :
  let s' := mkAgent [calls_turn [click_point];
                     mkContent "user"
                       [response_part (mkFunctionResponse "click_at"
                                         [("url", VStr "https://example.com")]
                                         (Some [mkBlob "image/png" "PNG"]))]]
              [] [BClickAt 251 450] [] None in
  run_one_iteration false PLAYWRIGHT_SCREEN_SIZE [] fixed_backend
    (respond_with (calls_turn [click_point])) empty_agent = (Ok CONTINUE, s') /\
  exists frs,
    map fr_name frs = map fc_name [click_point] /\
    contents s' =
      prune_screenshots (contents empty_agent ++
                         [calls_turn [click_point]; mkContent "user" (map response_part frs)])%list /\
    (count_shots (contents s') <= MAX_RECENT_TURN_WITH_SCREENSHOTS)%nat /\
    final_reasoning s' = final_reasoning empty_agent.
Proof.
  intros s'.
  assert (H : run_one_iteration false PLAYWRIGHT_SCREEN_SIZE [] fixed_backend
                (respond_with (calls_turn [click_point])) empty_agent = (Ok CONTINUE, s'))
    by (vm_compute; reflexivity).
  split; [exact H|].
  apply (run_one_iteration_dispatch false PLAYWRIGHT_SCREEN_SIZE [] fixed_backend
           (respond_with (calls_turn [click_point])) empty_agent
           (mkResponse [mkCandidate (Some (calls_turn [click_point])) STOP])
           (mkCandidate (Some (calls_turn [click_point])) STOP) []
           (calls_turn [click_point]) [click_point] s' eq_refl eq_refl eq_refl eq_refl).
  - discriminate.
  - exact H.
Defined.

(* ------------------------------------------------------------------ *)
(** ** [handle_action]: which actions reach the browser *)

Lemma calls_once_call_backend be c : calls_once be (call_backend be c).
Proof.
  intros s r s' H. inversion H. exists c. split; reflexivity.
Qed.

Lemma calls_once_raise be e : calls_once be (raise e).
Proof. intros s r s' H. discriminate. Qed.

Lemma calls_once_bind {A : Type} be (m : M A) (k : A -> M FunctionResponseT) :
  frame (fun s => s) m -> (forall a, calls_once be (k a)) -> calls_once be (bind m k).
Proof.
  intros Hm Hk s r s' H. apply bind_inv in H as (a & s1 & H1 & H2).
  pose proof (Hm _ _ _ H1) as E. cbv beta in E. subst s1. exact (Hk a s r s' H2).
Qed.

Ltac once_tac :=
  repeat first
    [ apply calls_once_bind;
        [ repeat first [ apply frame_bind; [|intros] | apply frame_lift
                       | apply frame_gets | apply frame_ret
                       | progress unfold arg_x, arg_y ]
        | intros ]
    | apply calls_once_call_backend | apply calls_once_raise
    | progress unfold type_text_at_branch
    | match goal with
      | |- calls_once _ (if ?b then _ else _) => destruct b
      end ].

(** A predefined (Computer Use) action that succeeds sends exactly one
    action to the browser and returns the browser's answer, changing
    nothing else; a custom tool never sends anything to the browser,
    whether it returns or raises. *)
Theorem handle_action_backend_by_name scr env be fc :
  (is_predefined (fc_name fc) = true -> calls_once be (handle_action scr env be fc)) /\
  (is_predefined (fc_name fc) = false -> frame backend_log (handle_action scr env be fc)).
Proof.
  split.
  - intros H. unfold is_predefined, PREDEFINED_COMPUTER_USE_FUNCTIONS in H.
    cbn [existsb] in H.
    repeat (apply orb_true_iff in H; destruct H as [H|H]);
      try (apply orb_true_iff in H); try discriminate;
      apply String.eqb_eq in H; unfold handle_action; rewrite H;
      lazy beta iota zeta delta [String.eqb Ascii.eqb Bool.eqb andb];
      once_tac.
  - intros H. unfold is_predefined, PREDEFINED_COMPUTER_USE_FUNCTIONS in H.
    cbn [existsb] in H. rewrite !orb_false_iff in H.
    repeat match goal with H : _ /\ _ |- _ => destruct H end.
    unfold handle_action. cbv zeta.
    repeat match goal with H : (fc_name fc =? _)%string = false |- _ => rewrite H; clear H end.
    frame_tac.
Qed.

Lemma handle_action_backend_by_name_witness :
  calls_once fixed_backend
    (handle_action PLAYWRIGHT_SCREEN_SIZE [] fixed_backend click_point) /\
  frame backend_log
    (handle_action PLAYWRIGHT_SCREEN_SIZE [] fixed_backend flagged_multiply).
Proof.
  split.
  - exact (proj1 (handle_action_backend_by_name PLAYWRIGHT_SCREEN_SIZE [] fixed_backend
                    click_point) eq_refl).
  - exact (proj2 (handle_action_backend_by_name PLAYWRIGHT_SCREEN_SIZE [] fixed_backend
                    flagged_multiply) eq_refl).
Defined.

(** An action whose name is neither a Computer Use function nor one of
    the custom functions raises [ValueError] and leaves the agent as it
    was: nothing is sent to the browser and the vault is kept. *)
Theorem handle_action_unsupported scr env be fc s :
  existsb (String.eqb (fc_name fc))
    (PREDEFINED_COMPUTER_USE_FUNCTIONS ++ CUSTOM_FUNCTIONS)%list = false ->
  handle_action scr env be fc s = (Exc (ValueError "Unsupported function"), s).
Proof.
  intros H. unfold PREDEFINED_COMPUTER_USE_FUNCTIONS, CUSTOM_FUNCTIONS in H.
  cbn [existsb app] in H. rewrite !orb_false_iff in H.
  repeat match goal with H : _ /\ _ |- _ => destruct H end.
  unfold handle_action. cbv zeta.
  repeat match goal with H : (fc_name fc =? _)%string = false |- _ => rewrite H; clear H end.
  reflexivity.
Qed.

Lemma handle_action_unsupported_witness :
  handle_action PLAYWRIGHT_SCREEN_SIZE [] fixed_backend
    (mkFunctionCall "read_data_from_json" (Some [("file_path", VStr "data.json")]))
    empty_agent = (Exc (ValueError "Unsupported function"), empty_agent).
Proof.
  apply handle_action_unsupported. reflexivity.
Defined.

(* ------------------------------------------------------------------ *)
(** ** [scroll_at] and [key_combination] *)

Lemma handle_action_scroll_at_eq scr env be fc :
  fc_name fc = "scroll_at" ->
  handle_action scr env be fc =
  (x <- arg_x scr fc "x" ;; y <- arg_y scr fc "y" ;;
   magnitude <- lift (arg_get fc "magnitude" (VInt 800)) ;;
   direction <- lift (arg fc "direction") ;;
   if in_strs direction ["up"; "down"] then
     m <- lift (denormalize_y scr magnitude) ;;
     call_backend be (BScrollAt x y direction m)
   else if in_strs direction ["left"; "right"] then
     m <- lift (denormalize_x scr magnitude) ;;
     call_backend be (BScrollAt x y direction m)
   else raise (ValueError "Unknown direction: ")).
Proof. intros H. unfold handle_action. rewrite H. reflexivity. Qed.

Lemma handle_action_key_combination_eq scr env be fc :
  fc_name fc = "key_combination" ->
  handle_action scr env be fc =
  (k <- lift (arg fc "keys") ;; keys <- lift (split_keys k) ;;
   call_backend be (BKeyCombination keys)).
Proof. intros H. unfold handle_action. rewrite H. reflexivity. Qed.

Lemma fails_pure_raise {A : Type} (e : Exn) : fails_pure (@raise A e).
Proof. intros s r s' H. inversion H. eauto. Qed.

Lemma fails_pure_bind {A B : Type} (m : M A) (k : A -> M B) :
  frame (fun s => s) m -> (forall a, fails_pure (k a)) -> fails_pure (bind m k).
Proof.
  intros Hm Hk s r s' H. unfold bind in H.
  destruct (m s) as [[a|e] s1] eqn:E; pose proof (Hm _ _ _ E) as Es; cbv beta in Es;
    subst s1.
  - exact (Hk a s r s' H).
  - inversion H. eauto.
Qed.

Lemma fails_pure_bind_ok {A B : Type} (a : A) (k : A -> M B) :
  fails_pure (k a) -> fails_pure (bind (lift (Ok a)) k).
Proof. intros Hk s r s' H. exact (Hk s r s' H). Qed.

Ltac pure_tac :=
  repeat first [ apply frame_bind; [|intros] | apply frame_lift
               | apply frame_gets | apply frame_ret
               | progress unfold arg_x, arg_y ].

(** A successful [scroll_at] scrolls by the magnitude argument (800 when
    absent) scaled to the screen height for "up"/"down" and to the screen
    width for "left"/"right"; with any other direction it raises without
    sending anything to the browser. *)
Theorem handle_action_scroll_at scr env be fc :
  fc_name fc = "scroll_at" ->
  (forall s r s', handle_action scr env be fc s = (Ok r, s') ->
   exists x y d mag m,
     arg fc "direction" = Ok d /\ arg_get fc "magnitude" (VInt 800) = Ok mag /\
     backend_log s' = (backend_log s ++ [BScrollAt x y d m])%list /\
     ((in_strs d ["up"; "down"] = true /\ denormalize_y scr mag = Ok m) \/
      (in_strs d ["left"; "right"] = true /\ denormalize_x scr mag = Ok m))) /\
  (forall d s r s', arg fc "direction" = Ok d ->
   in_strs d ["up"; "down"; "left"; "right"] = false ->
   handle_action scr env be fc s = (r, s') -> s' = s /\ exists e, r = Exc e).
Proof.
  intros Hn. rewrite (handle_action_scroll_at_eq scr env be fc Hn). split.
  - intros s r s' H.
    apply bind_inv in H as (x & s1 & Hx & H). apply arg_x_inv in Hx. subst s1.
    apply bind_inv in H as (y & s1 & Hy & H). apply arg_y_inv in Hy. subst s1.
    apply bind_inv in H as (mag & s1 & Hm & H). apply lift_inv in Hm as [Hm ->].
    apply bind_inv in H as (d & s1 & Hd & H). apply lift_inv in Hd as [Hd ->].
    cbv beta iota in H. destruct (in_strs d ["up"; "down"]) eqn:E1;
      [|destruct (in_strs d ["left"; "right"]) eqn:E2; [|discriminate]];
      apply bind_inv in H as (m & s1 & Hmm & H); apply lift_inv in Hmm as [Hmm ->];
      apply call_backend_inv in H as [_ ->];
      exists x, y, d, mag, m;
      (split; [exact Hd|split; [exact Hm|split; [reflexivity|]]]);
      first [left; split; assumption | right; split; assumption].
  - intros d s r s' Hd Hin H.
    unfold in_strs in Hin. cbn [existsb] in Hin. rewrite !orb_false_iff in Hin.
    destruct Hin as (H1 & H2 & H3 & H4 & _).
    revert s r s' H. change (fails_pure
      (x <- arg_x scr fc "x" ;; y <- arg_y scr fc "y" ;;
       magnitude <- lift (arg_get fc "magnitude" (VInt 800)) ;;
       direction <- lift (arg fc "direction") ;;
       if in_strs direction ["up"; "down"] then
         m <- lift (denormalize_y scr magnitude) ;;
         call_backend be (BScrollAt x y direction m)
       else if in_strs direction ["left"; "right"] then
         m <- lift (denormalize_x scr magnitude) ;;
         call_backend be (BScrollAt x y direction m)
       else raise (ValueError "Unknown direction: "))).
    do 3 (apply fails_pure_bind; [pure_tac|intros]).
    rewrite Hd. apply fails_pure_bind_ok.
    unfold in_strs. cbn [existsb]. rewrite H1, H2, H3, H4. apply fails_pure_raise.
Qed.

Lemma split_char_nonnil (sep : ascii) (s : string) : PyStr.split_char sep s <> [].
Proof.
  destruct s as [|c r]; cbn [PyStr.split_char]; [discriminate|].
  destruct (PyStr.split_char sep r); [discriminate|].
  destruct (Ascii.eqb c sep); discriminate.
Qed.

Lemma join_cons_char (sep : string) (c : ascii) (w : string) (ws : list string) :
  PyStr.join sep (String c w :: ws) = String c (PyStr.join sep (w :: ws)).
Proof. destruct ws; reflexivity. Qed.

Lemma join_cons_cons (sep a b : string) (l : list string) :
  PyStr.join sep (a :: b :: l) = (a ++ sep ++ PyStr.join sep (b :: l))%string.
Proof. reflexivity. Qed.

Lemma join_split_char (sep : ascii) (s : string) :
  PyStr.join (String sep EmptyString) (PyStr.split_char sep s) = s.
Proof.
  induction s as [|c r IH]; [reflexivity|]. cbn [PyStr.split_char].
  destruct (PyStr.split_char sep r) as [|w ws] eqn:E;
    [exfalso; exact (split_char_nonnil sep r E)|].
  destruct (Ascii.eqb c sep) eqn:Ec.
  - apply Ascii.eqb_eq in Ec. subst c. rewrite join_cons_cons, IH. reflexivity.
  - rewrite join_cons_char, IH. reflexivity.
Qed.

Lemma split_char_no_sep (sep : ascii) (s : string) :
  Forall (fun w => ~ In sep (list_ascii_of_string w)) (PyStr.split_char sep s).
Proof.
  induction s as [|c r IH]; cbn [PyStr.split_char].
  - constructor; [cbn; tauto|constructor].
  - destruct (PyStr.split_char sep r) as [|w ws] eqn:E;
      [exfalso; exact (split_char_nonnil sep r E)|].
    inversion IH as [|? ? Hw Hws]; subst.
    destruct (Ascii.eqb c sep) eqn:Ec.
    + constructor; [cbn; tauto|constructor; assumption].
    + apply Ascii.eqb_neq in Ec. constructor; [|assumption].
      cbn. intros [Hc|Hin]; [exact (Ec Hc)|exact (Hw Hin)].
Qed.

(** A successful [key_combination] sends [keys.split("+")]: the keys
    argument split at every "+", a non-empty list of keys none of which
    contains "+" and which, joined by "+", gives the argument back. A keys
    argument that is not a string raises [AttributeError] with nothing
    sent. *)
Theorem handle_action_key_combination scr env be fc :
  fc_name fc = "key_combination" ->
  (forall s r s', handle_action scr env be fc s = (Ok r, s') ->
   exists k keys,
     arg fc "keys" = Ok (VStr k) /\
     backend_log s' = (backend_log s ++ [BKeyCombination keys])%list /\
     keys = PyStr.split_char "+"%char k /\
     keys <> [] /\
     Forall (fun w => ~ In "+"%char (list_ascii_of_string w)) keys /\
     PyStr.join "+" keys = k) /\
  (forall v s, arg fc "keys" = Ok v -> (forall k, v <> VStr k) ->
   handle_action scr env be fc s = (Exc AttributeError, s)).
Proof.
  intros Hn. rewrite (handle_action_key_combination_eq scr env be fc Hn). split.
  - intros s r s' H.
    apply bind_inv in H as (v & s1 & Hv & H). apply lift_inv in Hv as [Hv ->].
    apply bind_inv in H as (keys & s1 & Hk & H). apply lift_inv in Hk as [Hk ->].
    apply call_backend_inv in H as [_ ->].
    destruct v as [| | |k| |]; try discriminate.
    injection Hk as <-. exists k, (PyStr.split_char "+"%char k).
    repeat split;
      [exact Hv|apply split_char_nonnil|apply split_char_no_sep|apply join_split_char].
  - intros v s Hv Hnot. unfold bind, lift. rewrite Hv.
    destruct v as [| | |k| |]; try reflexivity.
    exfalso. exact (Hnot k eq_refl).
Qed.

Lemma handle_action_scroll_at_witness :
  fc_name sideways_scroll = "scroll_at" /\
  snd (handle_action PLAYWRIGHT_SCREEN_SIZE [] fixed_backend sideways_scroll
         empty_agent) = empty_agent.
Proof.
  split; [reflexivity|].
  destruct (handle_action PLAYWRIGHT_SCREEN_SIZE [] fixed_backend sideways_scroll
              empty_agent) as [r s'] eqn:E.
  destruct (proj2 (handle_action_scroll_at PLAYWRIGHT_SCREEN_SIZE [] fixed_backend
                     sideways_scroll eq_refl)
              (VStr "sideways") empty_agent r s' eq_refl eq_refl E) as [Hs _].
  exact Hs.
Defined.

Lemma handle_action_key_combination_witness :
  fc_name copy_keys = "key_combination" /\
  exists k keys,
    arg copy_keys "keys" = Ok (VStr k) /\
    backend_log (snd (handle_action PLAYWRIGHT_SCREEN_SIZE [] fixed_backend copy_keys
                        empty_agent)) = [BKeyCombination keys] /\
    keys = PyStr.split_char "+"%char k /\ keys <> [] /\
    Forall (fun w => ~ In "+"%char (list_ascii_of_string w)) keys /\
    PyStr.join "+" keys = k.
Proof.
  split; [reflexivity|].
  destruct (handle_action PLAYWRIGHT_SCREEN_SIZE [] fixed_backend copy_keys
              empty_agent) as [r s'] eqn:E.
  destruct r as [r|e]; [|vm_compute in E; discriminate E].
  destruct (proj1 (handle_action_key_combination PLAYWRIGHT_SCREEN_SIZE [] fixed_backend
                     copy_keys eq_refl) empty_agent r s' E)
    as (k & keys & Hk & Hl & Hs & Hne & Hf & Hj).
  exists k, keys. cbn [snd]. rewrite Hl. repeat split; assumption.
Defined.

(* ------------------------------------------------------------------ *)
(** ** Retry wrapper: time slept and number of attempts *)

Lemma total_sleep_segment (base : Z) (i : nat) :
  forall a, total_sleep (retry_segment base a i) =
            base * (2 ^ Z.of_nat (a + i) - 2 ^ Z.of_nat a).
Proof.
  induction i as [|i IH]; intros a.
  - unfold retry_segment. cbn [seq flat_map app total_sleep].
    rewrite Nat.add_0_r. ring.
  - rewrite retry_segment_S. cbn [total_sleep]. rewrite IH.
    replace (S a + i)%nat with (a + S i)%nat by lia.
    rewrite Nat2Z.inj_succ, Z.pow_succ_r by lia. ring.
Qed.

(** When every attempt fails, the wrapper has slept
    [base * (2^(max_retries-1) - 1)] seconds in total before it re-raises
    (the sum of [base * 2^k] for [k < max_retries - 1]). *)
Theorem retry_total_sleep (R : Type) (transport : nat -> TResult R)
    (max_retries : nat) (base : Z) (errs : nat -> Exn) :
  (forall k, transport k = TErr (errs k)) -> (0 < max_retries)%nat ->
  total_sleep (fst (get_model_response transport max_retries base)) =
  base * (2 ^ Z.of_nat (max_retries - 1) - 1).
Proof.
  intros Hfail Hpos. destruct max_retries as [|m]; [lia|].
  unfold get_model_response.
  rewrite (retry_from_exhausts transport (S m) base errs m 0 Hfail ltac:(lia)).
  cbn [fst]. rewrite total_sleep_segment.
  replace (0 + m)%nat with (S m - 1)%nat by lia. reflexivity.
Qed.

Lemma retry_total_sleep_witness :
  total_sleep (fst (get_model_response
                      (fun _ => @TErr nat (TransportError "unavailable")) 5 1)) = 15.
Proof.
  rewrite (retry_total_sleep nat _ 5 1 (fun _ => TransportError "unavailable"));
    [reflexivity|intros; reflexivity|lia].
Defined.

Lemma retry_from_attempts {R : Type} (transport : nat -> TResult R)
    (max_retries : nat) (base : Z) (rem : nat) :
  forall a, (attempts (fst (retry_from transport max_retries base a rem)) <= rem)%nat.
Proof.
  induction rem as [|rem IH]; intros a; cbn [retry_from]; [cbn; lia|].
  destruct (transport a); [cbn; lia|].
  destruct (Nat.ltb a (max_retries - 1)); [|cbn; lia].
  specialize (IH (S a)).
  destruct (retry_from transport max_retries base (S a) rem) as [evs o].
  cbn in *. lia.
Qed.

Lemma retry_from_defined {R : Type} (transport : nat -> TResult R)
    (max_retries : nat) (base : Z) (rem : nat) :
  forall a, (a + rem)%nat = max_retries -> (0 < rem)%nat ->
  snd (retry_from transport max_retries base a rem) <> ReturnedNone.
Proof.
  induction rem as [|rem IH]; intros a Ha Hpos; [lia|]. cbn [retry_from].
  destruct (transport a); [cbn; discriminate|].
  destruct (Nat.ltb a (max_retries - 1)) eqn:E; [|cbn; discriminate].
  apply Nat.ltb_lt in E.
  specialize (IH (S a) ltac:(lia) ltac:(lia)).
  destruct (retry_from transport max_retries base (S a) rem) as [evs o].
  exact IH.
Qed.

(** The wrapper never makes more than [max_retries] attempts. With
    [max_retries = 0] it makes none and returns [None]; otherwise it
    always returns a response or raises, never [None]. *)
Theorem retry_attempts_bounded (R : Type) (transport : nat -> TResult R)
    (max_retries : nat) (base : Z) :
  (attempts (fst (get_model_response transport max_retries base)) <= max_retries)%nat /\
  (max_retries = O -> get_model_response transport max_retries base = ([], ReturnedNone)) /\
  ((0 < max_retries)%nat -> snd (get_model_response transport max_retries base) <> ReturnedNone).
Proof.
  unfold get_model_response. split; [apply retry_from_attempts|split].
  - intros ->. reflexivity.
  - intros Hpos. apply retry_from_defined; [reflexivity|exact Hpos].
Qed.

Lemma retry_attempts_bounded_witness :
  get_model_response (fun _ => @TErr nat (TransportError "unavailable")) 0 1 =
    ([], ReturnedNone) /\
  snd (get_model_response (fun k => if Nat.ltb k 2 then TErr (TransportError "unavailable")
                                    else TOk 7%nat) 5 1) <> ReturnedNone.
Proof.
  split.
  - apply (proj1 (proj2 (retry_attempts_bounded nat _ 0 1))). reflexivity.
  - apply (proj2 (proj2 (retry_attempts_bounded nat _ 5 1))). lia.
Defined.

(* ------------------------------------------------------------------ *)
(** ** Safety gate: checks before input *)

(** The safety gate checks the decision and reads the explanation before
    it reads any input: a missing or unknown decision, or a missing
    explanation, raises with the agent unchanged, in either mode. The
    gate changes nothing but the unread input, and in trust mode changes
    nothing at all. *)
Theorem safety_gate_checks_first (trust : bool) (safety : Value) :
  (forall s e, value_getitem safety "decision" = Exc e ->
     get_safety_confirmation trust safety s = (Exc e, s)) /\
  (forall s d, value_getitem safety "decision" = Ok d ->
     is_str d "require_confirmation" = false ->
     get_safety_confirmation trust safety s =
     (Exc (ValueError "Unknown safety decision: safety['decision']"), s)) /\
  (forall s e, value_getitem safety "decision" = Ok (VStr "require_confirmation") ->
     value_getitem safety "explanation" = Exc e ->
     get_safety_confirmation trust safety s = (Exc e, s)) /\
  frame (set_stdin []) (get_safety_confirmation trust safety) /\
  frame (fun s => s) (get_safety_confirmation true safety).
Proof.
  split; [|split; [|split; [|split]]].
  - intros s e He. unfold get_safety_confirmation, bind, lift. rewrite He. reflexivity.
  - intros s d Hd Hs. unfold get_safety_confirmation, bind, lift.
    rewrite Hd. cbv beta iota. rewrite Hs. reflexivity.
  - intros s e Hd He. unfold get_safety_confirmation, bind, lift.
    rewrite Hd. cbv beta iota. cbn [is_str negb String.eqb Ascii.eqb Bool.eqb andb].
    destruct trust; rewrite He; reflexivity.
  - unfold get_safety_confirmation.
    repeat first
      [ apply frame_bind; [|intros]
      | apply frame_ret | apply frame_raise | apply frame_lift
      | apply frame_read_decision; intros; reflexivity
      | match goal with
        | |- frame _ (if ?b then _ else _) => destruct b
        end ].
  - unfold get_safety_confirmation.
    repeat first
      [ apply frame_bind; [|intros]
      | apply frame_ret | apply frame_raise | apply frame_lift
      | match goal with
        | |- frame _ (if ?b then _ else _) => destruct b
        end ].
Qed.

Lemma safety_gate_checks_first_witness :
  get_safety_confirmation false (VDict [("decision", VStr "require_confirmation")])
    denying_agent = (Exc (KeyError "explanation"), denying_agent) /\
  get_safety_confirmation false (VDict [("decision", VStr "allow")]) denying_agent =
    (Exc (ValueError "Unknown safety decision: safety['decision']"), denying_agent).
Proof.
  split.
  - apply (proj1 (proj2 (proj2 (safety_gate_checks_first false _)))); reflexivity.
  - apply (proj1 (proj2 (safety_gate_checks_first false _)) _ (VStr "allow"));
      reflexivity.
Defined.

(* ------------------------------------------------------------------ *)
(** ** [perform_secure_login] and [get_available_credentials] *)



Lemma existsb_eqb_In (x : string) (l : list string) :
  existsb (String.eqb x) l = true <-> In x l.
Proof.
  rewrite existsb_exists. split.
  - intros (y & Hy & E). apply String.eqb_eq in E. subst. exact Hy.
  - intros H. exists x. split; [exact H|apply String.eqb_refl].
Qed.

Lemma scan_sites_In (env_vars vars : list string) (site : string) :
  In site (scan_sites env_vars vars) <->
  exists var, In var vars /\
    (PyStr.endswith "_USERNAME" var || PyStr.endswith "_USER" var)%bool = true /\
    In (site_of_var var ++ "_PASSWORD") env_vars /\
    site = PyStr.lower (site_of_var var).
Proof.
  induction vars as [|var rest IH]; cbn [scan_sites].
  - split; [contradiction|]. intros (v & [] & _).
  - destruct (_ || _)%bool eqn:Eb; cbv zeta.
    + destruct (existsb _ _) eqn:Ee.
      * apply existsb_eqb_In in Ee. cbn [In]. rewrite IH. split.
        -- intros [<-|(v & Hv & H2)]; [exists var; auto|exists v; auto].
        -- intros (v & [<-|Hv] & H2 & H3 & H4); [left; auto|right; exists v; auto].
      * rewrite IH. split.
        -- intros (v & Hv & H2); exists v; split; [right|]; auto.
        -- intros (v & [<-|Hv] & H2 & H3 & H4).
           ++ apply existsb_eqb_In in H3. congruence.
           ++ exists v; auto.
    + rewrite IH. split.
      * intros (v & Hv & H2); exists v; split; [right|]; auto.
      * intros (v & [<-|Hv] & H2 & H3 & H4); [congruence|exists v; auto].
Qed.

(** [get_available_credentials()] lists a site [s] exactly when some
    environment variable [var] ends in "_USERNAME" or "_USER", and
    [site + "_PASSWORD"] is also a variable, where [site] is [var] with
    "_USERNAME" and then "_USER" removed, and [s] is [site] lower-cased.
    Only variable names count: empty values are listed too. *)
Theorem get_available_credentials_sites (env : Environ) :
  exists l, assoc "available_sites" (get_available_credentials env) = Some (VList l) /\
  forall v, In v l <->
    exists var, In var (map fst env) /\
      (PyStr.endswith "_USERNAME" var || PyStr.endswith "_USER" var)%bool = true /\
      In (site_of_var var ++ "_PASSWORD") (map fst env) /\
      v = VStr (PyStr.lower (site_of_var var)).
Proof.
  eexists. split; [reflexivity|]. intros v. rewrite in_map_iff. split.
  - intros (st & <- & Hin). apply scan_sites_In in Hin as (var & H1 & H2 & H3 & ->).
    exists var. auto.
  - intros (var & H1 & H2 & H3 & ->). eexists. split; [reflexivity|].
    apply scan_sites_In. exists var. auto.
Qed.

(** [multiply_numbers(x, y)] and [multiply_numbers(y, x)] give the same
    result, or raise the same error, on every pair of JSON arguments. *)
Theorem multiply_numbers_comm (x y : Value) :
  multiply_numbers x y = multiply_numbers y x.
Proof.
  unfold multiply_numbers, py_mul.
  destruct x, y; cbn [as_int]; try reflexivity; rewrite Z.mul_comm; reflexivity.
Qed.

Lemma str_length_app (a b : string) :
  String.length (a ++ b) = (String.length a + String.length b)%nat.
Proof. induction a as [|c a IH]; cbn; [reflexivity|rewrite IH; reflexivity]. Qed.

Lemma substring_0_length (b : string) : substring 0 (String.length b) b = b.
Proof. induction b as [|c b IH]; cbn; [reflexivity|rewrite IH; reflexivity]. Qed.

Lemma substring_app (a b : string) :
  substring (String.length a) (String.length b) (a ++ b) = b.
Proof.
  induction a as [|c a IH]; cbn; [apply substring_0_length|exact IH].
Qed.

Lemma endswith_app (suf pre : string) : PyStr.endswith suf (pre ++ suf) = true.
Proof.
  unfold PyStr.endswith. rewrite str_length_app.
  replace (String.length pre + String.length suf - String.length suf)%nat
    with (String.length pre) by lia.
  rewrite substring_app, String.eqb_refl, andb_true_r.
  apply Nat.leb_le. lia.
Qed.

Lemma upper_lower_char (c : ascii) :
  PyStr.upper_char c = c -> PyStr.upper_char (PyStr.lower_char c) = c.
Proof.
  destruct c as [[] [] [] [] [] [] [] []]; vm_compute;
    first [reflexivity | intros H; discriminate H | intros _; reflexivity].
Qed.

Lemma upper_lower (s : string) : PyStr.upper s = s -> PyStr.upper (PyStr.lower s) = s.
Proof.
  unfold PyStr.upper, PyStr.lower.
  induction s as [|c r IH]; cbn; [reflexivity|]. intros H. injection H as Hc Hr.
  rewrite (upper_lower_char c Hc), (IH Hr). reflexivity.
Qed.

Lemma assoc_In_keys {A : Type} (k : string) (d : list (string * A)) (v : A) :
  assoc k d = Some v -> In k (map fst d).
Proof.
  induction d as [|[k' v'] d IH]; cbn; [discriminate|].
  destruct (String.eqb_spec k k'); [subst; auto|auto].
Qed.

(** For an ASCII site name [S] without lower-case letters, which removing
    "_USERNAME" and then "_USER" from [S ++ "_USERNAME"] gives back, with
    [S_USERNAME] and [S_PASSWORD] set to non-empty strings,
    [get_available_credentials()] lists [S] lower-cased, and
    [perform_secure_login] on that listed name succeeds with those two
    strings. *)
Theorem listed_site_logs_in (env : Environ) (S u p : string) :
  PyStr.is_ascii S = true ->
  PyStr.upper S = S -> site_of_var (S ++ "_USERNAME") = S ->
  assoc (S ++ "_USERNAME") env = Some u -> u <> "" ->
  assoc (S ++ "_PASSWORD") env = Some p -> p <> "" ->
  (exists l, assoc "available_sites" (get_available_credentials env) = Some (VList l) /\
             In (VStr (PyStr.lower S)) l) /\
  lr_success (perform_secure_login env (PyStr.lower S)) = true /\
  lr_username (perform_secure_login env (PyStr.lower S)) = VStr u /\
  lr_password (perform_secure_login env (PyStr.lower S)) = VStr p.
Proof.
  intros _ Hup Hsite Hu Hune Hp Hpne. split.
  - destruct (get_available_credentials_sites env) as (l & Hl & Hiff).
    exists l. split; [exact Hl|]. apply Hiff. exists (S ++ "_USERNAME"). split.
    + exact (assoc_In_keys _ _ _ Hu).
    + rewrite endswith_app. split; [reflexivity|]. rewrite Hsite. split; [|reflexivity].
      exact (assoc_In_keys _ _ _ Hp).
  - unfold perform_secure_login, environ_get, mem. rewrite (upper_lower S Hup).
    rewrite Hu. cbv iota. rewrite Hu, Hp. cbn [truthy].
    apply String.eqb_neq in Hune, Hpne. rewrite Hune, Hpne. cbn.
    repeat split.
Qed.

Lemma listed_site_logs_in_witness :
  lr_password (perform_secure_login env_github "github") = VStr "s3cret".
Proof.
  apply (listed_site_logs_in env_github "GITHUB" "alice" "s3cret");
    first [reflexivity | discriminate].
Defined.

(* ------------------------------------------------------------------ *)
(** ** [FormAgent.handle_action] *)

(** With [can_ask_for_help] off, an [ask_for_help] action is unsupported
    and raises without reading input. With it on, it needs a "question"
    argument (else [KeyError] before any input is read) and then reads
    exactly one line, returned as [{"response": line}]; at the end of
    input it raises [EOFError]. *)
Theorem form_ask_for_help (files : Value -> Res dict) scr env be fc :
  fc_name fc = "ask_for_help" ->
  (forall s, FormAgent.handle_action false files scr env be fc s =
             (Exc (ValueError "Unsupported function"), s)) /\
  (forall s e, arg fc "question" = Exc e ->
     FormAgent.handle_action true files scr env be fc s = (Exc e, s)) /\
  (forall s q, arg fc "question" = Ok q ->
     FormAgent.handle_action true files scr env be fc s =
     match stdin s with
     | [] => (Exc EOFError, s)
     | l :: rest => (Ok (FRDict [("response", VStr l)]), set_stdin rest s)
     end).
Proof.
  intros Hn. unfold FormAgent.handle_action. rewrite Hn.
  cbn [String.eqb Ascii.eqb Bool.eqb andb]. split; [|split].
  - intros s. unfold handle_action. rewrite Hn. reflexivity.
  - intros s e He. unfold bind, lift. rewrite He. reflexivity.
  - intros s q Hq. unfold bind, lift, ret, FormAgent.ask_for_help. rewrite Hq.
    destruct (stdin s); reflexivity.
Qed.

Lemma form_ask_for_help_witness :
  FormAgent.handle_action true (fun _ => Exc (KeyError "missing")) PLAYWRIGHT_SCREEN_SIZE []
    fixed_backend (mkFunctionCall "ask_for_help" (Some [("question", VStr "Name?")]))
    denying_agent =
  (Ok (FRDict [("response", VStr "maybe")]), set_stdin ["No"] denying_agent).
Proof.
  rewrite (proj2 (proj2 (form_ask_for_help (fun _ => Exc (KeyError "missing"))
     PLAYWRIGHT_SCREEN_SIZE [] fixed_backend
     (mkFunctionCall "ask_for_help" (Some [("question", VStr "Name?")])) eq_refl))
     denying_agent (VStr "Name?") eq_refl).
  reflexivity.
Defined.

(* ------------------------------------------------------------------ *)
(** ** Playwright login configuration *)

(** [get_credentials] returns the two environment values named by
    [username_env] and [password_env] exactly when both names are strings
    set to non-empty values; when both names are strings, the only other
    outcome is [ValueError]. *)
Theorem get_credentials_spec (env : Environ) (c : Auth.AuthConfig) :
  (forall u p, Auth.get_credentials env c = Ok (u, p) <->
   exists ku kp su sp,
     Auth.username_env c = VStr ku /\ Auth.password_env c = VStr kp /\
     assoc ku env = Some su /\ assoc kp env = Some sp /\ su <> "" /\ sp <> "" /\
     u = VStr su /\ p = VStr sp) /\
  (forall ku kp, Auth.username_env c = VStr ku -> Auth.password_env c = VStr kp ->
   (exists e, Auth.get_credentials env c = Exc e) ->
   Auth.get_credentials env c = Exc (ValueError "Missing credentials")).
Proof.
  unfold Auth.get_credentials, Auth.res_bind, Auth.environ_lookup. split.
  - intros u p. split.
    + destruct (Auth.username_env c) as [| | |ku| |] eqn:Eu; try discriminate.
      destruct (Auth.password_env c) as [| | |kp| |] eqn:Ep; try discriminate.
      unfold environ_get.
      destruct (assoc ku env) as [su|] eqn:Hu; destruct (assoc kp env) as [sp|] eqn:Hp;
        cbn [truthy andb]; rewrite ?andb_false_r; try discriminate.
      destruct (String.eqb_spec su ""); destruct (String.eqb_spec sp "");
        cbn [negb andb]; try discriminate.
      intros H. injection H as <- <-. exists ku, kp, su, sp. auto 10.
    + intros (ku & kp & su & sp & Eu & Ep & Hu & Hp & Hsu & Hsp & -> & ->).
      rewrite Eu, Ep. unfold environ_get. rewrite Hu, Hp. cbn [truthy].
      apply String.eqb_neq in Hsu, Hsp. rewrite Hsu, Hsp. reflexivity.
  - intros ku kp Eu Ep [e He]. rewrite Eu, Ep in *.
    destruct (truthy _ && truthy _)%bool; [discriminate|reflexivity].
Qed.

Lemma get_credentials_spec_witness :
  Auth.get_credentials [("GH_USER", "ada"); ("GH_PASS", "")]
    (Auth.mkAuthConfig "gh" (VStr "gh") (VStr "https://gh.example/login") (VStr "")
       (VStr "GH_USER") (VStr "GH_PASS") (VStr "#u") (VStr "#p") (VStr "#go")
       (VStr "") (VInt 30)) = Exc (ValueError "Missing credentials").
Proof.
  apply (get_credentials_spec _ _) with (ku := "GH_USER") (kp := "GH_PASS");
    [reflexivity|reflexivity|].
  eexists. reflexivity.
Defined.


(** A site table with [login_url], [username_env] and [password_env]
    and nothing else gives a configuration named after the site, with no
    success URL, empty selectors and a 30 second timeout; a missing
    required key raises [KeyError] for the first one missing, in the
    order [login_url], [username_env], [password_env]. *)
Theorem auth_config_init_spec (site : string) (d : dict) :
  (assoc "login_url" d = None ->
   Auth.auth_config_init site (VDict d) = Exc (KeyError "login_url")) /\
  (mem "login_url" d = true -> assoc "username_env" d = None ->
   Auth.auth_config_init site (VDict d) = Exc (KeyError "username_env")) /\
  (mem "login_url" d = true -> mem "username_env" d = true ->
   assoc "password_env" d = None ->
   Auth.auth_config_init site (VDict d) = Exc (KeyError "password_env")) /\
  (forall l u p,
   assoc "login_url" d = Some l -> assoc "username_env" d = Some u ->
   assoc "password_env" d = Some p ->
   assoc "name" d = None -> assoc "success_url" d = None -> assoc "selectors" d = None ->
   Auth.auth_config_init site (VDict d) =
   Ok (Auth.mkAuthConfig site (VStr site) l (VStr "") u p (VStr "") (VStr "") (VStr "")
         (VStr "") (VInt 30))).
Proof.
  unfold Auth.auth_config_init, Auth.res_bind, Auth.value_get, value_getitem, getitem, mem.
  split; [|split; [|split]].
  - intros H. rewrite H. reflexivity.
  - destruct (assoc "login_url" d); [|discriminate]. intros _ H. rewrite H. reflexivity.
  - destruct (assoc "login_url" d); [|discriminate].
    destruct (assoc "username_env" d); [|discriminate]. intros _ _ H. rewrite H. reflexivity.
  - intros l u p Hl Hu Hp Hn Hs Hsel. unfold dict_get.
    rewrite Hl, Hu, Hp, Hn, Hs, Hsel. reflexivity.
Qed.

Lemma auth_config_init_spec_witness :
  Auth.auth_config_init "gh" (VDict [("login_url", VStr "https://gh.example/login");
                                     ("username_env", VStr "GH_USER")]) =
  Exc (KeyError "password_env").
Proof.
  apply (auth_config_init_spec "gh"); reflexivity.
Defined.


(* ------------------------------------------------------------------ *)
(** ** [perform_login] *)

Lemma pbind_inv {A B : Type} (m : Auth.PM A) (k : A -> Auth.PM B) log b log' :
  Auth.pbind m k log = (Auth.AOk b, log') ->
  exists a log1, m log = (Auth.AOk a, log1) /\ k a log1 = (Auth.AOk b, log').
Proof.
  unfold Auth.pbind. destruct (m log) as [[a|e] log1]; intros H; [eauto|discriminate].
Qed.

Lemma plift_inv {A : Type} (r : Res A) log a log' :
  Auth.plift r log = (Auth.AOk a, log') -> r = Ok a /\ log' = log.
Proof.
  unfold Auth.plift, Auth.of_res. destruct r; intros H; inversion H; auto.
Qed.

Lemma page_op_log page o log r log' :
  Auth.page_op page o log = (r, log') -> log' = (log ++ [o])%list.
Proof. unfold Auth.page_op. intros H. inversion H. reflexivity. Qed.

Lemma on_timeout_inv {A : Type} (m h : Auth.PM unit) log (a : unit) log' :
  Auth.on_timeout m h log = (Auth.AOk a, log') ->
  m log = (Auth.AOk a, log') \/
  exists log1, m log = (Auth.AErr Auth.PlaywrightTimeoutError, log1) /\
               h log1 = (Auth.AOk a, log').
Proof.
  unfold Auth.on_timeout. destruct (m log) as [[u|e] log1].
  - intros H. left. exact H.
  - destruct e; intros H; try discriminate. right. eauto.
Qed.

Lemma plift_err {A : Type} (e : Exn) log :
  @Auth.plift A (Exc e) log = (Auth.AErr (Auth.PyExn e), log).
Proof. reflexivity. Qed.

(** [perform_login] makes no call on the page until the site's
    configuration is found and its credentials are read: if either step
    raises, the page is untouched. *)
Theorem perform_login_checks_first page page_url cfg env site_name log :
  (forall e, Auth.get_site_config cfg site_name = Exc e ->
   Auth.perform_login page page_url cfg env site_name log =
   (Auth.AErr (Auth.PyExn e), log)) /\
  (forall c e, Auth.get_site_config cfg site_name = Ok c ->
   Auth.get_credentials env c = Exc e ->
   Auth.perform_login page page_url cfg env site_name log =
   (Auth.AErr (Auth.PyExn e), log)).
Proof.
  unfold Auth.perform_login, Auth.pbind, Auth.plift. split.
  - intros e He. rewrite He. reflexivity.
  - intros c e Hc He. rewrite Hc. cbn [Auth.of_res]. rewrite He. reflexivity.
Qed.

Lemma perform_login_checks_first_witness :
  Auth.perform_login (fun _ _ => Auth.Done) (fun _ => "about:blank")
    (Auth.mkAuthData "" []) [] None [] =
  (Auth.AErr (Auth.PyExn (ValueError "No site specified and no default_site configured")),
   []).
Proof.
  apply (perform_login_checks_first _ _ _ _ None []). reflexivity.
Defined.

Lemma plift_page_op_log {A : Type} page (r : Res A) (f : A -> Auth.PageOp) log e log' :
  Auth.pbind (Auth.plift r) (fun x => Auth.page_op page (f x)) log = (Auth.AErr e, log') ->
  log' = log \/ exists x, log' = (log ++ [f x])%list.
Proof.
  unfold Auth.pbind, Auth.plift, Auth.of_res. destruct r as [x|e'].
  - intros H. right. exists x. exact (page_op_log _ _ _ _ _ H).
  - intros H. inversion H. left. reflexivity.
Qed.

Ltac login_inv :=
  repeat match goal with
  | H : Auth.pbind _ _ _ = (Auth.AOk _, _) |- _ =>
      let a := fresh "a" in let l := fresh "l" in let H1 := fresh "H" in
      apply pbind_inv in H as (a & l & H1 & H)
  | H : Auth.plift _ _ = (Auth.AOk _, _) |- _ =>
      let Hr := fresh "Hr" in apply plift_inv in H as [Hr ->]
  | H : Auth.page_op _ _ _ = _ |- _ => apply page_op_log in H; subst
  | H : Auth.on_timeout _ _ _ = (Auth.AOk _, _) |- _ =>
      let l := fresh "l" in let H1 := fresh "H" in
      apply (on_timeout_inv (A := unit)) in H as [H|(l & H1 & H)]
  | H : Auth.pbind (Auth.plift _) _ _ = (Auth.AErr Auth.PlaywrightTimeoutError, _) |- _ =>
      let x := fresh "x" in
      apply plift_page_op_log in H as [H|(x & H)]; subst
  | H : Auth.wait_networkidle _ _ _ = _ |- _ => unfold Auth.wait_networkidle in H
  | H : Auth.pret _ _ = _ |- _ => unfold Auth.pret in H; inversion H; clear H; subst
  | H : (Auth.AOk _, _) = (Auth.AOk _, _) |- _ => inversion H; clear H; subst
  | H : (if ?b then _ else _) _ = _ |- _ => let E := fresh "E" in destruct b eqn:E
  | H : (let '(_, _) := ?x in _) _ = _ |- _ => destruct x
  | H : (fun _ => _) _ = _ |- _ => cbv beta in H
  | x : unit |- _ => destruct x
  end.

(** When [perform_login] returns, the site's configuration and
    credentials were found, and the calls it made on the page start with
    [goto(login_url)]; the only text it typed is the user name, once or
    twice (the CSS selector, then the label on a timeout) into the
    username field, then the password, once or twice, into the password
    field. It returns the configured success URL when that is non-empty,
    and otherwise the page's URL at the end. *)
Theorem perform_login_success page page_url cfg env site_name log v log' :
  Auth.perform_login page page_url cfg env site_name log = (Auth.AOk v, log') ->
  exists c u p new,
    Auth.get_site_config cfg site_name = Ok c /\
    Auth.get_credentials env c = Ok (u, p) /\
    log' = (log ++ new)%list /\
    hd_error new = Some (Auth.Goto (Auth.login_url c)) /\
    (exists i j, (1 <= i <= 2)%nat /\ (1 <= j <= 2)%nat /\
       Auth.fills new = (repeat (Auth.username_field c, u) i ++
                         repeat (Auth.password_field c, p) j)%list) /\
    v = (if truthy (Auth.success_url c) then Auth.success_url c
         else VStr (page_url log')).
Proof.
  intros H. unfold Auth.perform_login in H. login_inv;
  do 4 eexists; (split; [eassumption|]); (split; [eassumption|]);
  (split; [rewrite <- ?app_assoc; reflexivity|]);
  (split; [reflexivity|]);
  (split;
   [cbn [Auth.fills app repeat];
    first [ solve [exists 1%nat, 1%nat; split; [lia|split; [lia|reflexivity]]]
          | solve [exists 1%nat, 2%nat; split; [lia|split; [lia|reflexivity]]]
          | solve [exists 2%nat, 1%nat; split; [lia|split; [lia|reflexivity]]]
          | solve [exists 2%nat, 2%nat; split; [lia|split; [lia|reflexivity]]] ]
   |]);
  try rewrite E; try rewrite E0; reflexivity.
Qed.

Lemma perform_login_success_witness :
  exists c u p new,
    Auth.get_site_config gh_auth None = Ok c /\
    Auth.get_credentials gh_env c = Ok (u, p) /\
    [Auth.Goto (VStr "https://gh.example/login");
     Auth.WaitForLoadState "networkidle" (VInt 30000);
     Auth.Fill (VStr "#user") (VStr "ada"); Auth.LabelFill (VStr "#user") (VStr "ada");
     Auth.Fill (VStr "#pass") (VStr "pw"); Auth.Click (VStr "Sign in");
     Auth.RoleClick (VStr "Sign in");
     Auth.WaitForUrl (VStr "https://gh.example/home") (VInt 30000)] = ([] ++ new)%list /\
    hd_error new = Some (Auth.Goto (Auth.login_url c)) /\
    (exists i j, (1 <= i <= 2)%nat /\ (1 <= j <= 2)%nat /\
       Auth.fills new = (repeat (Auth.username_field c, u) i ++
                         repeat (Auth.password_field c, p) j)%list) /\
    VStr "https://gh.example/home" =
      (if truthy (Auth.success_url c) then Auth.success_url c
       else VStr (blank_url
         [Auth.Goto (VStr "https://gh.example/login");
          Auth.WaitForLoadState "networkidle" (VInt 30000);
          Auth.Fill (VStr "#user") (VStr "ada"); Auth.LabelFill (VStr "#user") (VStr "ada");
          Auth.Fill (VStr "#pass") (VStr "pw"); Auth.Click (VStr "Sign in");
          Auth.RoleClick (VStr "Sign in");
          Auth.WaitForUrl (VStr "https://gh.example/home") (VInt 30000)])).
Proof.
  apply (perform_login_success label_page blank_url gh_auth gh_env None []).
  vm_compute. reflexivity.
Defined.

Lemma get_text_none_iff_witness :
  get_text (mkCandidate (Some (mkContent "model" [text_part ""; call_part click_point]))
              STOP) = None.
Proof.
  apply (proj1 (get_text_none_iff _)).
  intros c p H Hin. injection H as <-. cbn in Hin.
  destruct Hin as [<-|[<-|[]]]; [right|left]; reflexivity.
Defined.

Lemma run_one_iteration_errors_witness :
  run_one_iteration false PLAYWRIGHT_SCREEN_SIZE [] fixed_backend
    (fun _ => TErr (TransportError "unavailable")) denying_agent =
  (Ok COMPLETE, denying_agent).
Proof.
  apply (proj1 (run_one_iteration_errors false PLAYWRIGHT_SCREEN_SIZE [] fixed_backend
                  (fun _ => TErr (TransportError "unavailable")) denying_agent)
           (fun _ => TransportError "unavailable")).
  intros k. reflexivity.
Defined.
